(** * calibre2komga: the naming rules and the migration engine

    A shallow embedding of [calibre2komga.py] (class [CalibreKomgaMigrator])
    and the properties of its specification.

    Conventions of the embedding
    - a Python [str] is a list of Unicode code points ([N]);
    - [re] patterns are values of a small regular-expression type that covers
      the constructs the program uses, run by a backtracking matcher;
    - a [float] read from the catalog is the rational number it denotes
      (every finite double is one; [int()], [==] and the [f] format are exact
      functions of that value);
    - the counters are Python integers ([Z]);
    - the success rate is computed in IEEE binary64 ([spec_float]);
    - [pathlib], the file system, [sqlite3] and the case tables of [str.lower]
      are an interface ([Platform]); the engine is written against it in a
      state-and-exception monad.

    What the embedding takes for granted
    - the numbers of the catalog are finite (an infinite [series_index], on
      which [int()] raises, is outside the model);
    - the queries on the file system ([exists], [is_dir], [is_file],
      [iterdir]) return; [mkdir], [copy2] and the catalog query may raise;
    - a file name has no path separator in it, so [Path(name).suffix] is the
      suffix of the name. *)

From Stdlib Require Import List NArith ZArith QArith Lia Bool String Ascii.
From Stdlib Require Decimal DecimalPos DecimalN.
From Stdlib Require Import Floats.SpecFloat.
Import ListNotations.

Set Implicit Arguments.
Local Open Scope string_scope.
Local Open Scope list_scope.
Local Open Scope N_scope.

(** ** Python strings *)

Definition char := N.
Definition str := list char.

(** A literal of the source, as code points. *)
Definition py (s : string) : str :=
  map N_of_ascii (list_ascii_of_string s).

Definition chr_lparen : char := 40.
Definition chr_rparen : char := 41.
Definition chr_dot : char := 46.
Definition chr_space : char := 32.
Definition chr_underscore : char := 95.
Definition chr_newline : char := 10.
Definition chr_comma : char := 44.
Definition chr_slash : char := 47.
Definition chr_backslash : char := 92.
Definition chr_zero : char := 48.
Definition chr_minus : char := 45.

Definition in_range (c : char) (r : N * N) : bool :=
  (fst r <=? c) && (c <=? snd r).

(** [str.isspace] on one character, which is also the class [\s] of [re] on
    [str] patterns. *)
Definition space_ranges : list (N * N) :=
  [(9, 13); (28, 32); (133, 133); (160, 160); (5760, 5760); (8192, 8202);
   (8232, 8233); (8239, 8239); (8287, 8287); (12288, 12288)].

Definition is_space (c : char) : bool := existsb (in_range c) space_ranges.

(** The class [\d] of [re] on [str] patterns: the decimal digits of Unicode
    (general category Nd, Unicode 14.0). *)
Definition digit_ranges : list (N * N) :=
  [(48, 57); (1632, 1641); (1776, 1785); (1984, 1993); (2406, 2415);
   (2534, 2543); (2662, 2671); (2790, 2799); (2918, 2927); (3046, 3055);
   (3174, 3183); (3302, 3311); (3430, 3439); (3558, 3567); (3664, 3673);
   (3792, 3801); (3872, 3881); (4160, 4169); (4240, 4249); (6112, 6121);
   (6160, 6169); (6470, 6479); (6608, 6617); (6784, 6793); (6800, 6809);
   (6992, 7001); (7088, 7097); (7232, 7241); (7248, 7257); (42528, 42537);
   (43216, 43225); (43264, 43273); (43472, 43481); (43504, 43513);
   (43600, 43609); (44016, 44025); (65296, 65305); (66720, 66729);
   (68912, 68921); (69734, 69743); (69872, 69881); (69942, 69951);
   (70096, 70105); (70384, 70393); (70736, 70745); (70864, 70873);
   (71248, 71257); (71360, 71369); (71472, 71481); (71904, 71913);
   (72016, 72025); (72784, 72793); (73040, 73049); (73120, 73129);
   (92768, 92777); (92864, 92873); (93008, 93017); (120782, 120831);
   (123200, 123209); (123632, 123641); (125264, 125273); (130032, 130041)].

Definition is_digit (c : char) : bool := existsb (in_range c) digit_ranges.

Definition mem_char (c : char) (cs : str) : bool := existsb (N.eqb c) cs.

Fixpoint str_eqb (a b : str) : bool :=
  match a, b with
  | [], [] => true
  | x :: a', y :: b' => (x =? y) && str_eqb a' b'
  | _, _ => false
  end.

(** [s.lstrip(chars)], [s.rstrip(chars)] and [s.strip(chars)], the set of
    characters given as a predicate. *)
Fixpoint lstrip_by (p : char -> bool) (s : str) : str :=
  match s with
  | c :: s' => if p c then lstrip_by p s' else s
  | [] => []
  end.

Definition rstrip_by (p : char -> bool) (s : str) : str :=
  rev (lstrip_by p (rev s)).

Definition strip_by (p : char -> bool) (s : str) : str :=
  rstrip_by p (lstrip_by p s).

(** [s.strip()] *)
Definition strip (s : str) : str := strip_by is_space s.

(** [s.strip(chars)] *)
Definition strip_chars (chars : str) (s : str) : str :=
  strip_by (fun c => mem_char c chars) s.

(** ** The fragment of [re] the program uses

    A pattern is a sequence of items; the quantifiers are greedy and apply to
    one-character classes, as in all three patterns of the source. *)

Inductive re_item : Type :=
| Lit (c : char)                 (* an escaped or plain literal character *)
| Class (p : char -> bool)       (* [\s], [\d] or a bracketed set, once *)
| Star (p : char -> bool)        (* [X*] *)
| Plus (p : char -> bool)        (* [X+] *)
| Eos.                           (* [$], without MULTILINE *)

Definition pattern := list re_item.

(** [$] matches at the end of the string and just before a newline that ends
    the string. *)
Definition at_end (s : str) : bool :=
  match s with
  | [] => true
  | [c] => c =? chr_newline
  | _ => false
  end.

(** Greedy repetition with backtracking: the longest run first, then shorter
    ones, until the continuation [k] succeeds. *)
Fixpoint star (p : char -> bool) (k : str -> option str) (s : str)
  : option str :=
  match s with
  | c :: s' =>
      if p c then
        match star p k s' with
        | Some r => Some r
        | None => k s
        end
      else k s
  | [] => k s
  end.

(** [match_here pat s]: the pattern matched at the start of [s]; the result is
    what is left of [s] after the match the backtracking search finds first. *)
Fixpoint match_here (pat : pattern) (s : str) : option str :=
  match pat with
  | [] => Some s
  | Lit c :: pat' =>
      match s with
      | c' :: s' => if c' =? c then match_here pat' s' else None
      | [] => None
      end
  | Class p :: pat' =>
      match s with
      | c' :: s' => if p c' then match_here pat' s' else None
      | [] => None
      end
  | Star p :: pat' => star p (match_here pat') s
  | Plus p :: pat' =>
      match s with
      | c' :: s' => if p c' then star p (match_here pat') s' else None
      | [] => None
      end
  | Eos :: pat' => if at_end s then match_here pat' s else None
  end.

(** [re.sub(pat, repl, s)] for a literal replacement: the string is scanned
    from the left, every match found is replaced and the scan goes on behind
    it. [skip] counts the characters of the current match still to be dropped.
    (An empty match is replaced and the scan moves on by one character; the
    patterns of this program never match the empty string.) *)
Fixpoint sub_from (pat : pattern) (repl : str) (s : str) (skip : nat) : str :=
  match s with
  | [] =>
      match match_here pat [] with
      | Some _ => repl
      | None => []
      end
  | c :: s' =>
      match skip with
      | S k => sub_from pat repl s' k
      | O =>
          match match_here pat s with
          | Some rest =>
              match (List.length s - List.length rest)%nat with
              | O => repl ++ c :: sub_from pat repl s' 0
              | S k => repl ++ sub_from pat repl s' k
              end
          | None => c :: sub_from pat repl s' 0
          end
      end
  end.

Definition re_sub (pat : pattern) (repl : str) (s : str) : str :=
  sub_from pat repl s 0.

(** ** Name Sanitizer *)

(** [r'\s*\(\d+\)\s*$'] *)
Definition suffix_re : pattern :=
  [Star is_space; Lit chr_lparen; Plus is_digit; Lit chr_rparen;
   Star is_space; Eos].

(** [r'\s+\(\d+\)\s*$'] *)
Definition spaced_suffix_re : pattern :=
  [Plus is_space; Lit chr_lparen; Plus is_digit; Lit chr_rparen;
   Star is_space; Eos].

(** [clean_calibre_title] *)
Definition clean_calibre_title (title : str) : str :=
  match title with
  | [] => title
  | _ =>
      let cleaned := re_sub suffix_re [] title in
      let cleaned := re_sub spaced_suffix_re [] cleaned in
      strip cleaned
  end.

(** The bracketed set of the first pattern of [sanitize_filename]: the
    characters less-than, greater-than, colon, double quote, slash, backslash,
    bar, question mark and asterisk. *)
Definition invalid_chars : str := [60; 62; 58; 34; 47; 92; 124; 63; 42].

Definition is_invalid (c : char) : bool := mem_char c invalid_chars.

(** The name [sanitize_filename] holds after its second step, before the
    length is limited. *)
Definition stripped_name (filename : str) : str :=
  strip_chars (py ". ") (re_sub [Class is_invalid] (py "_") filename).

(** [sanitize_filename] *)
Definition sanitize_filename (filename : str) : str :=
  let sanitized := re_sub [Class is_invalid] (py "_") filename in
  let sanitized := strip_chars (py ". ") sanitized in
  if (100 <? List.length sanitized)%nat then firstn 100 sanitized
  else sanitized.

(** ** Numbers as text *)

Fixpoint str_of_uint (d : Decimal.uint) : str :=
  match d with
  | Decimal.Nil => []
  | Decimal.D0 d' => 48 :: str_of_uint d'
  | Decimal.D1 d' => 49 :: str_of_uint d'
  | Decimal.D2 d' => 50 :: str_of_uint d'
  | Decimal.D3 d' => 51 :: str_of_uint d'
  | Decimal.D4 d' => 52 :: str_of_uint d'
  | Decimal.D5 d' => 53 :: str_of_uint d'
  | Decimal.D6 d' => 54 :: str_of_uint d'
  | Decimal.D7 d' => 55 :: str_of_uint d'
  | Decimal.D8 d' => 56 :: str_of_uint d'
  | Decimal.D9 d' => 57 :: str_of_uint d'
  end.

Definition str_of_N (n : N) : str := str_of_uint (N.to_uint n).

(** [str(z)] of a Python integer *)
Definition str_of_Z (z : Z) : str :=
  match z with
  | Zneg p => chr_minus :: str_of_N (Npos p)
  | _ => str_of_N (Z.to_N z)
  end.

(** [s.zfill(width)]: zeros on the left, behind a leading sign. *)
Definition zfill (width : nat) (s : str) : str :=
  let fill := repeat chr_zero (width - List.length s) in
  match s with
  | c :: s' =>
      if (c =? chr_minus) || (c =? 43) then c :: fill ++ s' else fill ++ s
  | [] => fill
  end.

(** [s.replace(a, b)] for one-character [a] and [b] *)
Definition replace_char (a b : char) (s : str) : str :=
  map (fun c => if c =? a then b else c) s.

(** *** Floats read from the catalog, as the rationals they denote *)

(** [bool(x)] *)
Definition float_truthy (x : Q) : bool := negb (Qnum x =? 0)%Z.

(** [int(x)]: truncation towards zero *)
Definition int_of_float (x : Q) : Z := Z.quot (Qnum x) (Zpos (Qden x)).

(** [x == int(x)] *)
Definition is_whole (x : Q) : bool := Qeq_bool x (inject_Z (int_of_float x)).

(** The integer nearest to [n / d], ties to the even one ([0 <= n], [0 < d]). *)
Definition round_half_even (n d : Z) : Z :=
  let q := (n / d)%Z in
  match (2 * (n mod d) ?= d)%Z with
  | Lt => q
  | Gt => (q + 1)%Z
  | Eq => if Z.even q then q else (q + 1)%Z
  end.

(** The tenths of [x] rounded as the [.1f] format rounds them. *)
Definition tenths (x : Q) : Z :=
  round_half_even (Z.abs (Qnum x) * 10) (Zpos (Qden x)).

(** [format(x, '.1f')] *)
Definition format_1f (x : Q) : str :=
  (if (Qnum x <? 0)%Z then [chr_minus] else [])
    ++ str_of_Z (tenths x / 10) ++ [chr_dot] ++ str_of_Z (tenths x mod 10).

(** [format(x, '05.1f')]: the same, with zeros behind the sign up to a width
    of 5 characters. *)
Definition format_05_1f (x : Q) : str := zfill 5 (format_1f x).

(** ** Path Resolver *)

(** [PurePath.suffix] of a file name *)
Fixpoint rfind (c : char) (s : str) : option nat :=
  match s with
  | [] => None
  | x :: s' =>
      match rfind c s' with
      | Some i => Some (S i)
      | None => if x =? c then Some 0%nat else None
      end
  end.

Definition suffix (name : str) : str :=
  match rfind chr_dot name with
  | Some i =>
      if (0 <? i)%nat && (i <? List.length name - 1)%nat then skipn i name
      else []
  | None => []
  end.

(** An entry of [metadata_cache] *)
Record Metadata : Type := {
  book_id : Z;
  title : str;
  author : str;
  series : option str;
  series_index : option Q;
  formats : list str
}.

(** Truth value of an optional string ([None] and the empty string are
    false). *)
Definition truthy_str (s : option str) : bool :=
  match s with
  | Some (_ :: _) => true
  | _ => false
  end.

(** [get_series_folder_name] *)
Definition get_series_folder_name (metadata : Metadata) : str :=
  match series metadata with
  | Some (c :: s) =>
      sanitize_filename (author metadata ++ py " - " ++ c :: s)
  | _ => sanitize_filename (author metadata)
  end.

(** The volume number of [get_file_name] *)
Definition volume_num (series_index : Q) : str :=
  if is_whole series_index then
    zfill 2 (str_of_Z (int_of_float series_index))
  else
    replace_char chr_dot chr_underscore (format_05_1f series_index).

(** [get_file_name] *)
Definition get_file_name (metadata : Metadata) (original_filename : str)
  : str :=
  let clean_title := clean_calibre_title (title metadata) in
  let extension := suffix original_filename in
  let filename :=
    match series_index metadata with
    | Some idx =>
        if truthy_str (series metadata) && float_truthy idx then
          py "Volume " ++ volume_num idx ++ py " - " ++ clean_title
        else clean_title
    | None => clean_title
    end in
  sanitize_filename filename ++ extension.

(** ** The platform: paths, file system, catalog, Unicode case tables *)

(** A raised exception carries its message ([str(e)]). *)
Inductive result (A : Type) : Type :=
| Ok (a : A)
| Raise (e : str).

Arguments Ok {A} a.
Arguments Raise {A} e.

(** A row of the catalog query of [load_calibre_metadata], columns in the
    order of the [SELECT]. *)
Record Row : Type := {
  row_book_id : Z;
  row_title : str;
  row_path : str;
  row_series_index : option Q;
  row_author_name : option str;
  row_series_name : option str;
  row_formats : option str
}.

(** What the program asks of [pathlib], [shutil], [sqlite3] and [str]. The
    queries are total; [mkdir] and [copy2] change the file system and may
    raise. *)
Class Platform : Type := {
  Path : Type;
  FS : Type;
  (* [p / s] *)
  joinpath : Path -> str -> Path;
  (* [str(p)] *)
  path_str : Path -> str;
  (* [p.name] *)
  path_name : Path -> str;
  (* [p.relative_to(q)], [None] for [ValueError] *)
  relative_to : Path -> Path -> option Path;
  (* [p.exists()], [p.is_dir()], [p.is_file()], [p.iterdir()] *)
  path_exists : FS -> Path -> bool;
  is_dir : FS -> Path -> bool;
  is_file : FS -> Path -> bool;
  iterdir : FS -> Path -> list Path;
  (* [p.mkdir(parents=True, exist_ok=True)] *)
  mkdir : FS -> Path -> FS * option str;
  (* [shutil.copy2(src, dst)] *)
  copy2 : FS -> Path -> Path -> FS * option str;
  (* [sqlite3.connect(p)], [execute(query)] and [fetchall()] *)
  fetch_catalog : FS -> Path -> result (list Row);
  (* [s.lower()] *)
  lower : str -> str;
  (* [str(x)] of a float *)
  float_str : Q -> str
}.

(** ** State of a run *)

Inductive level : Type := DEBUG | INFO | WARNING | ERROR.

Definition LogRecord : Type := (level * str)%type.

(** [self.stats] *)
Record Stats : Type := {
  total_books : Z;
  migrated_books : Z;
  skipped_books : Z;
  errors : Z
}.

(** The statistics of [__init__] *)
Definition init_stats : Stats :=
  {| total_books := 0; migrated_books := 0; skipped_books := 0; errors := 0 |}.

(** A dictionary in insertion order *)
Definition dict (V : Type) : Type := list (str * V).

Fixpoint dict_get {V} (k : str) (d : dict V) : option V :=
  match d with
  | [] => None
  | (k', v) :: d' => if str_eqb k k' then Some v else dict_get k d'
  end.

(** [d[k] = v]: a present key keeps its place. *)
Fixpoint dict_set {V} (k : str) (v : V) (d : dict V) : dict V :=
  match d with
  | [] => [(k, v)]
  | (k', v') :: d' =>
      if str_eqb k k' then (k', v) :: d' else (k', v') :: dict_set k v d'
  end.

(** [s.split(sep)] for a one-character separator *)
Fixpoint split_on (sep : char) (s : str) : list str :=
  match s with
  | [] => [[]]
  | c :: s' =>
      if c =? sep then [] :: split_on sep s'
      else
        match split_on sep s' with
        | w :: ws => (c :: w) :: ws
        | [] => [[c]]
        end
  end.

(** [needle in hay] *)
Fixpoint is_prefix (a b : str) : bool :=
  match a, b with
  | [], _ => true
  | x :: a', y :: b' => (x =? y) && is_prefix a' b'
  | _ :: _, [] => false
  end.

Fixpoint contains (needle hay : str) : bool :=
  is_prefix needle hay
  || match hay with
     | [] => false
     | _ :: hay' => contains needle hay'
     end.

Definition mem_str (s : str) (l : list str) : bool := existsb (str_eqb s) l.

(** ** State and exceptions

    A computation reads and writes a state [W] and returns a value or raises;
    what it did to the state before raising stays. *)

Definition M (W A : Type) : Type := W -> result A * W.

Definition ret {W A} (a : A) : M W A := fun w => (Ok a, w).

Definition bind {W A B} (c : M W A) (k : A -> M W B) : M W B :=
  fun w =>
    match c w with
    | (Ok a, w') => k a w'
    | (Raise e, w') => (Raise e, w')
    end.

Definition raise {W A} (e : str) : M W A := fun w => (Raise e, w).

(** [try: body except Exception as e: handler(e)] *)
Definition try_except {W A} (body : M W A) (handler : str -> M W A) : M W A :=
  fun w =>
    match body w with
    | (Ok a, w') => (Ok a, w')
    | (Raise e, w') => handler e w'
    end.

(** [for x in l: body(x)] *)
Fixpoint for_each {W A} (l : list A) (body : A -> M W unit) : M W unit :=
  match l with
  | [] => ret tt
  | x :: l' => bind (body x) (fun _ => for_each l' body)
  end.

Declare Scope monad_scope.
Delimit Scope monad_scope with monad.
Notation "x <- c ;; k" := (bind c (fun x => k))
  (at level 61, c at next level, right associativity) : monad_scope.
Notation "c ;; k" := (bind c (fun _ => k))
  (at level 61, right associativity) : monad_scope.
Local Open Scope monad_scope.

(** ** The success rate, in binary64 *)

Definition prec : Z := 53.
Definition emax : Z := 1024.

(** A Python integer as the operand of a float operation. *)
Definition float_of_int (z : Z) : spec_float :=
  match z with
  | Z0 => S754_zero false
  | Zpos p => S754_finite false p 0
  | Zneg p => S754_finite true p 0
  end.

(** [a / b] on integers: the quotient rounded to the nearest double;
    [ZeroDivisionError] for a zero divisor, [OverflowError] for a quotient
    beyond the doubles. *)
Definition int_truediv (a b : Z) : result spec_float :=
  if (b =? 0)%Z then Raise (py "division by zero")
  else
    match SFdiv prec emax (float_of_int a) (float_of_int b) with
    | S754_infinity _ =>
        Raise (py "integer division result too large for a float")
    | q => Ok q
    end.

(** [x * n] for a float [x] and an integer [n] *)
Definition float_mul_int (x : spec_float) (n : Z) : spec_float :=
  SFmul prec emax x (float_of_int n).

(** The rational a finite double denotes *)
Definition float_value (s : bool) (m : positive) (e : Z) : Q :=
  let n := if s then Zneg m else Zpos m in
  match e with
  | Z0 => n # 1
  | Zpos k => (n * 2 ^ Zpos k)%Z # 1
  | Zneg k => n # (2 ^ k)%positive
  end.

(** [format(x, '.1f')] of a double *)
Definition format_float_1f (x : spec_float) : str :=
  match x with
  | S754_zero s => (if s then [chr_minus] else []) ++ py "0.0"
  | S754_infinity s => (if s then [chr_minus] else []) ++ py "inf"
  | S754_nan => py "nan"
  | S754_finite s m e => format_1f (float_value s m e)
  end.

(** The rate [print_summary] reports *)
Definition success_rate (s : Stats) : spec_float :=
  float_mul_int
    (SFdiv prec emax (float_of_int (migrated_books s))
       (float_of_int (total_books s)))
    100.

(** The lines of the summary that show the counters *)
Definition counter_lines (s : Stats) : list LogRecord :=
  [(INFO, py "Migration Summary:");
   (INFO, py "  Total books found: " ++ str_of_Z (total_books s));
   (INFO, py "  Books migrated: " ++ str_of_Z (migrated_books s));
   (INFO, py "  Books skipped: " ++ str_of_Z (skipped_books s));
   (INFO, py "  Errors: " ++ str_of_Z (errors s))].

(** The line of the summary that shows the rate *)
Definition rate_line (s : Stats) : LogRecord :=
  (INFO, py "  Success rate: " ++ format_float_1f (success_rate s) ++ py "%").

(** A double that is a number *)
Definition is_finite (x : spec_float) : bool :=
  match x with
  | S754_zero _ | S754_finite _ _ _ => true
  | _ => false
  end.

(** The counters add up. *)
Definition balanced (s : Stats) : Prop :=
  total_books s = (migrated_books s + skipped_books s + errors s)%Z.

(** Counters a run can show: none is negative and they add up. *)
Definition sane (s : Stats) : Prop :=
  (0 <= migrated_books s /\ 0 <= skipped_books s /\ 0 <= errors s)%Z
  /\ balanced s.

(** Exactly one of the three outcome counters is one more. *)
Definition one_outcome (s s' : Stats) : Prop :=
  (migrated_books s' = migrated_books s + 1
   /\ skipped_books s' = skipped_books s /\ errors s' = errors s)%Z
  \/ (migrated_books s' = migrated_books s
      /\ skipped_books s' = skipped_books s + 1 /\ errors s' = errors s)%Z
  \/ (migrated_books s' = migrated_books s
      /\ skipped_books s' = skipped_books s /\ errors s' = errors s + 1)%Z.

(** A book was counted: the total and one outcome counter are one more. *)
Definition counted (s s' : Stats) : Prop :=
  total_books s' = (total_books s + 1)%Z /\ one_outcome s s'.

Section Engine.

Context {platform : Platform}.

Record World : Type := {
  fs : FS;
  stats : Stats;
  log : list LogRecord;
  metadata_cache : dict Metadata
}.

(** The fields [__init__] sets from its arguments *)
Record Migrator : Type := {
  calibre_path : Path;
  komga_path : Path;
  dry_run : bool
}.

Definition Run (A : Type) : Type := M World A.

Definition supported_formats : list str := [py ".epub"; py ".kepub"].

Definition metadata_db_path (self : Migrator) : Path :=
  joinpath (calibre_path self) (py "metadata.db").

(** The state of the migrator after [__init__], on a file system. *)
Definition init_world (f : FS) : World :=
  {| fs := f; stats := init_stats; log := []; metadata_cache := [] |}.

Definition get_fs : Run FS := fun w => (Ok (fs w), w).

Definition get_cache : Run (dict Metadata) :=
  fun w => (Ok (metadata_cache w), w).

Definition get_stats : Run Stats := fun w => (Ok (stats w), w).

Definition set_stats (s : Stats) : Run unit :=
  fun w =>
    (Ok tt, {| fs := fs w; stats := s; log := log w;
               metadata_cache := metadata_cache w |}).

Definition set_cache (d : dict Metadata) : Run unit :=
  fun w =>
    (Ok tt, {| fs := fs w; stats := stats w; log := log w;
               metadata_cache := d |}).

(** [logger.debug], [.info], [.warning], [.error] *)
Definition logger (l : level) (msg : str) : Run unit :=
  fun w =>
    (Ok tt, {| fs := fs w; stats := stats w; log := log w ++ [(l, msg)];
               metadata_cache := metadata_cache w |}).

(** A file-system operation that may raise; its effect stays. *)
Definition fs_op (op : FS -> FS * option str) : Run unit :=
  fun w =>
    let (f, e) := op (fs w) in
    let w' := {| fs := f; stats := stats w; log := log w;
                 metadata_cache := metadata_cache w |} in
    match e with
    | None => (Ok tt, w')
    | Some msg => (Raise msg, w')
    end.

(** [self.stats[...] += 1] *)
Definition incr_total : Run unit :=
  s <- get_stats ;;
  set_stats {| total_books := total_books s + 1;
               migrated_books := migrated_books s;
               skipped_books := skipped_books s; errors := errors s |}.

Definition incr_migrated : Run unit :=
  s <- get_stats ;;
  set_stats {| total_books := total_books s;
               migrated_books := migrated_books s + 1;
               skipped_books := skipped_books s; errors := errors s |}.

Definition incr_skipped : Run unit :=
  s <- get_stats ;;
  set_stats {| total_books := total_books s;
               migrated_books := migrated_books s;
               skipped_books := skipped_books s + 1; errors := errors s |}.

Definition incr_errors : Run unit :=
  s <- get_stats ;;
  set_stats {| total_books := total_books s;
               migrated_books := migrated_books s;
               skipped_books := skipped_books s; errors := errors s + 1 |}.


(** [validate_paths] *)
Definition validate_paths (self : Migrator) : Run bool :=
  f <- get_fs ;;
  if negb (path_exists f (calibre_path self)) then
    logger ERROR (py "Calibre library path does not exist: "
                  ++ path_str (calibre_path self)) ;;
    ret false
  else if negb (is_dir f (calibre_path self)) then
    logger ERROR (py "Calibre library path is not a directory: "
                  ++ path_str (calibre_path self)) ;;
    ret false
  else if negb (path_exists f (metadata_db_path self)) then
    logger ERROR (py "No metadata.db found in "
                  ++ path_str (calibre_path self)
                  ++ py ". This doesn't appear to be a Calibre library.") ;;
    ret false
  else
    (if negb (dry_run self) then
       fs_op (fun f => mkdir f (komga_path self))
     else ret tt) ;;
    ret true.

(** The dictionary [load_calibre_metadata] stores for a row *)
Definition metadata_of_row (row : Row) : Metadata :=
  let author_name :=
    match row_author_name row with
    | Some (c :: a) => Some (strip (hd [] (split_on chr_comma (c :: a))))
    | other => other
    end in
  {| book_id := row_book_id row;
     title := row_title row;
     author := match author_name with
               | Some (c :: a) => c :: a
               | _ => py "Unknown Author"
               end;
     series := row_series_name row;
     series_index := row_series_index row;
     formats := match row_formats row with
                | Some (c :: f) => split_on chr_comma (c :: f)
                | _ => []
                end |}.

(** [load_calibre_metadata] *)
Definition load_calibre_metadata (self : Migrator) : Run bool :=
  try_except
    (f <- get_fs ;;
     match fetch_catalog f (metadata_db_path self) with
     | Raise e => raise e
     | Ok results =>
         for_each results
           (fun row =>
              d <- get_cache ;;
              set_cache (dict_set (row_path row) (metadata_of_row row) d)) ;;
         d <- get_cache ;;
         logger INFO (py "Loaded metadata for "
                      ++ str_of_N (N.of_nat (List.length d))
                      ++ py " books from Calibre database") ;;
         ret true
     end)
    (fun e =>
       logger ERROR (py "Error loading Calibre metadata: " ++ e) ;;
       ret false).

(** [get_book_metadata] *)
Definition get_book_metadata (self : Migrator) (book_path : Path)
  : Run (option Metadata) :=
  match relative_to book_path (calibre_path self) with
  | Some relative_path =>
      let path_key :=
        replace_char chr_backslash chr_slash (path_str relative_path) in
      d <- get_cache ;;
      ret (dict_get path_key d)
  | None => ret None
  end.

(** [find_ebook_files] *)
Definition find_ebook_files (book_path : Path) : Run (list Path) :=
  f <- get_fs ;;
  ret (filter
         (fun file_path =>
            is_file f file_path
            && mem_str (lower (suffix (path_name file_path)))
                 supported_formats)
         (iterdir f book_path)).

(** The text [series_info] of [migrate_book] *)
Definition series_info (metadata : Metadata) : str :=
  match series metadata with
  | Some (c :: s) =>
      py " (Series: " ++ (c :: s)
      ++ match series_index metadata with
         | Some idx =>
             if float_truthy idx then py ", Index: " ++ float_str idx else []
         | None => []
         end
      ++ py ")"
  | _ => []
  end.

(** The destination of one file of a book *)
Definition dest_file (metadata : Metadata) (series_path ebook_file : Path)
  : Path :=
  joinpath series_path (get_file_name metadata (path_name ebook_file)).

(** The body of the copy loop of [migrate_book] *)
Definition copy_ebook_file (metadata : Metadata)
  (series_path ebook_file : Path) : Run unit :=
  let dest := dest_file metadata series_path ebook_file in
  f <- get_fs ;;
  if path_exists f dest then
    logger WARNING (py "File already exists, skipping: " ++ path_str dest)
  else
    fs_op (fun f => copy2 f ebook_file dest) ;;
    logger DEBUG (py "Copied: " ++ path_str ebook_file ++ py " -> "
                  ++ path_str dest).

(** [migrate_book] *)
Definition migrate_book (self : Migrator) (book_path : Path) : Run bool :=
  found <- get_book_metadata self book_path ;;
  match found with
  | None =>
      logger WARNING (py "No metadata found for " ++ path_str book_path
                      ++ py ", skipping") ;;
      incr_skipped ;;
      ret false
  | Some metadata =>
      let author_name := author metadata in
      let book_title := title metadata in
      ebook_files <- find_ebook_files book_path ;;
      match ebook_files with
      | [] =>
          logger WARNING (py "No supported ebook files found in "
                          ++ path_str book_path) ;;
          incr_skipped ;;
          ret false
      | _ :: _ =>
          let series_folder := get_series_folder_name metadata in
          let series_path := joinpath (komga_path self) series_folder in
          logger INFO (py "Migrating: " ++ author_name ++ py "/"
                       ++ book_title ++ series_info metadata ++ py " -> "
                       ++ series_folder ++ py "/") ;;
          if negb (dry_run self) then
            try_except
              (fs_op (fun f => mkdir f series_path) ;;
               for_each ebook_files
                 (copy_ebook_file metadata series_path) ;;
               incr_migrated ;;
               ret true)
              (fun e =>
                 logger ERROR (py "Error migrating " ++ path_str book_path
                               ++ py ": " ++ e) ;;
                 incr_errors ;;
                 ret false)
          else
            for_each ebook_files
              (fun ebook_file =>
                 logger INFO
                   (py "[DRY RUN] Would create: "
                    ++ path_str (dest_file metadata series_path ebook_file))) ;;
            incr_migrated ;;
            ret true
      end
  end.

(** [print_summary] *)
Definition print_summary : Run unit :=
  s <- get_stats ;;
  logger INFO (py "Migration Summary:") ;;
  logger INFO (py "  Total books found: " ++ str_of_Z (total_books s)) ;;
  logger INFO (py "  Books migrated: " ++ str_of_Z (migrated_books s)) ;;
  logger INFO (py "  Books skipped: " ++ str_of_Z (skipped_books s)) ;;
  logger INFO (py "  Errors: " ++ str_of_Z (errors s)) ;;
  if (0 <? total_books s)%Z then
    match int_truediv (migrated_books s) (total_books s) with
    | Raise e => raise e
    | Ok ratio =>
        let success_rate := float_mul_int ratio 100 in
        logger INFO (py "  Success rate: " ++ format_float_1f success_rate
                     ++ py "%")
    end
  else ret tt.

(** The author test of [migrate_library]: true when the book is filtered
    out. *)
Definition filtered_out (author_filter : option str) (metadata : Metadata)
  : bool :=
  match author_filter with
  | Some (c :: a) => negb (contains (lower (c :: a)) (lower (author metadata)))
  | _ => false
  end.

(** The body of the loop of [migrate_library] *)
Definition process_entry (self : Migrator) (author_filter : option str)
  (entry : str * Metadata) : Run unit :=
  let (path_key, metadata) := entry in
  let book_path := joinpath (calibre_path self) path_key in
  f <- get_fs ;;
  if negb (path_exists f book_path) || negb (is_dir f book_path) then
    logger WARNING (py "Book path does not exist: " ++ path_str book_path)
  else if filtered_out author_filter metadata then ret tt
  else
    incr_total ;;
    migrate_book self book_path ;;
    ret tt.

(** [migrate_library] *)
Definition migrate_library (self : Migrator) (author_filter : option str)
  : Run unit :=
  logger INFO (py "Starting migration from " ++ path_str (calibre_path self)
               ++ py " to " ++ path_str (komga_path self)) ;;
  logger INFO (py "Dry run: "
               ++ (if dry_run self then py "True" else py "False")) ;;
  valid <- validate_paths self ;;
  if negb valid then ret tt
  else
    loaded <- load_calibre_metadata self ;;
    if negb loaded then
      logger ERROR (py "Failed to load Calibre metadata. Exiting.")
    else
      d <- get_cache ;;
      for_each d (process_entry self author_filter) ;;
      print_summary.

(** *** Notions the statements about runs use *)

(** The state with more lines in its log. *)
Definition add_log (w : World) (l : list LogRecord) : World :=
  {| fs := fs w; stats := stats w; log := log w ++ l;
     metadata_cache := metadata_cache w |}.

(** The line that announces a book. *)
Definition migrating_record (metadata : Metadata) : LogRecord :=
  (INFO, py "Migrating: " ++ author metadata ++ py "/" ++ title metadata
         ++ series_info metadata ++ py " -> "
         ++ get_series_folder_name metadata ++ py "/").

(** The line a dry run writes for a file. *)
Definition would_create_record (metadata : Metadata) (series_path : Path)
  (ebook_file : Path) : LogRecord :=
  (INFO, py "[DRY RUN] Would create: "
         ++ path_str (dest_file metadata series_path ebook_file)).

(** The line a real run writes for a file: copied, or passed over because
    the destination is there. *)
Definition copy_record (metadata : Metadata) (series_path : Path)
  (item : bool * Path) : LogRecord :=
  let (copied, ebook_file) := item in
  let dest := dest_file metadata series_path ebook_file in
  if copied then
    (DEBUG, py "Copied: " ++ path_str ebook_file ++ py " -> " ++ path_str dest)
  else (WARNING, py "File already exists, skipping: " ++ path_str dest).

(** The line for a book whose directory is missing. *)
Definition missing_record (self : Migrator) (path_key : str) : LogRecord :=
  (WARNING, py "Book path does not exist: "
            ++ path_str (joinpath (calibre_path self) path_key)).

(** [triple P c Q E]: from a state in [P], [c] ends in [Q] when it returns
    and in [E] when it raises. *)
Definition triple {A : Type} (P : World -> Prop) (c : Run A)
  (Q : A -> World -> Prop) (E : World -> Prop) : Prop :=
  forall w, P w ->
    match c w with
    | (Ok a, w') => Q a w'
    | (Raise _, w') => E w'
    end.

(** An invariant of the state, kept whether the computation returns or
    raises. *)
Definition preserves {A : Type} (I : World -> Prop) (c : Run A) : Prop :=
  triple I c (fun _ => I) I.

Definition keeps_fs (f0 : FS) (w : World) : Prop := fs w = f0.
Definition keeps_stats (s0 : Stats) (w : World) : Prop := stats w = s0.
Definition keeps_balance (w : World) : Prop := balanced (stats w).
Definition keeps_sane (w : World) : Prop := sane (stats w).

(** One outcome was counted and the total is as before. *)
Definition outcome_of (s0 : Stats) (w : World) : Prop :=
  total_books (stats w) = total_books s0 /\ one_outcome s0 (stats w).

(** An invariant that does not look at a field. *)
Definition ignores_log (I : World -> Prop) : Prop :=
  forall f s l l' d,
    I {| fs := f; stats := s; log := l; metadata_cache := d |} ->
    I {| fs := f; stats := s; log := l'; metadata_cache := d |}.

Definition ignores_cache (I : World -> Prop) : Prop :=
  forall f s l d d',
    I {| fs := f; stats := s; log := l; metadata_cache := d |} ->
    I {| fs := f; stats := s; log := l; metadata_cache := d' |}.

Definition ignores_stats (I : World -> Prop) : Prop :=
  forall f s s' l d,
    I {| fs := f; stats := s; log := l; metadata_cache := d |} ->
    I {| fs := f; stats := s'; log := l; metadata_cache := d |}.

Definition ignores_fs (I : World -> Prop) : Prop :=
  forall f f' s l d,
    I {| fs := f; stats := s; log := l; metadata_cache := d |} ->
    I {| fs := f'; stats := s; log := l; metadata_cache := d |}.

(** *** Notions the further statements use *)

(** The dictionary the loop of [load_calibre_metadata] makes of the rows,
    from the dictionary [d]. *)
Definition cache_of_rows (rows : list Row) (d : dict Metadata)
  : dict Metadata :=
  fold_left (fun d row => dict_set (row_path row) (metadata_of_row row) d)
    rows d.

(** The two lines every run starts with. *)
Definition start_records (self : Migrator) : list LogRecord :=
  [(INFO, py "Starting migration from " ++ path_str (calibre_path self)
          ++ py " to " ++ path_str (komga_path self));
   (INFO, py "Dry run: " ++ (if dry_run self then py "True" else py "False"))].

(** The three tests of [validate_paths] on the source. *)
Definition usable (self : Migrator) (f : FS) : bool :=
  path_exists f (calibre_path self) && is_dir f (calibre_path self)
  && path_exists f (metadata_db_path self).

(** What [validate_paths] does to the file system once the source is found
    usable: nothing in a dry run, [mkdir] of the destination root
    otherwise. *)
Definition prepared (self : Migrator) (f : FS) : FS * option str :=
  if dry_run self then (f, None) else mkdir f (komga_path self).

(** The test of [find_ebook_files] on one entry of the directory. *)
Definition is_ebook (f : FS) (file_path : Path) : bool :=
  is_file f file_path
  && mem_str (lower (suffix (path_name file_path))) supported_formats.

(** [find_ebook_files] would return a file. *)
Definition has_ebook_files (f : FS) (book_path : Path) : bool :=
  existsb (is_ebook f) (iterdir f book_path).

(** An entry of the index that the loop of [migrate_library] counts: its
    directory is there and its author passes the filter. *)
Definition eligible (self : Migrator) (author_filter : option str) (f : FS)
  (entry : str * Metadata) : bool :=
  path_exists f (joinpath (calibre_path self) (fst entry))
  && is_dir f (joinpath (calibre_path self) (fst entry))
  && negb (filtered_out author_filter (snd entry)).

Definition counted_entries (self : Migrator) (author_filter : option str)
  (f : FS) (d : dict Metadata) : dict Metadata :=
  filter (eligible self author_filter f) d.

(** The directory of an entry has a supported file. *)
Definition with_files (self : Migrator) (f : FS) (entry : str * Metadata)
  : bool :=
  has_ebook_files f (joinpath (calibre_path self) (fst entry)).

(** The key comes back from the directory of the book as
    [get_book_metadata] computes it: the path relative to the library root,
    as text, with slashes for backslashes. *)
Definition round_trips (self : Migrator) (key : str) : Prop :=
  exists rel,
    relative_to (joinpath (calibre_path self) key) (calibre_path self)
    = Some rel
    /\ replace_char chr_backslash chr_slash (path_str rel) = key.

(** The counters [s'] are those of [s] with [t], [m], [k] and [e] added to
    the total, the migrated, the skipped and the error count. *)
Definition tally (t m k e : Z) (s s' : Stats) : Prop :=
  total_books s' = (total_books s + t)%Z
  /\ migrated_books s' = (migrated_books s + m)%Z
  /\ skipped_books s' = (skipped_books s + k)%Z
  /\ errors s' = (errors s + e)%Z.

Definition keeps_cache (d : dict Metadata) (w : World) : Prop :=
  metadata_cache w = d.

End Engine.

(** ** A small platform for the examples

    Paths are strings joined with a slash; the file system is a table from
    paths to nodes, in the order the nodes were made. *)

Module Toy.

Inductive node : Type :=
| Dir
| File (content : str)
| Catalog (rows : list Row).

Definition tree : Type := dict node.

Definition join (p : str) (s : str) : str :=
  match s with
  | [] => p
  | _ => p ++ chr_slash :: s
  end.

Definition name (p : str) : str := last (split_on chr_slash p) [].

Definition relative (p q : str) : option str :=
  if is_prefix (q ++ [chr_slash]) p then
    Some (skipn (List.length q + 1) p)
  else None.

Definition exists_ (f : tree) (p : str) : bool :=
  match dict_get p f with
  | Some _ => true
  | None => false
  end.

Definition isdir (f : tree) (p : str) : bool :=
  match dict_get p f with
  | Some Dir => true
  | _ => false
  end.

Definition isfile (f : tree) (p : str) : bool :=
  match dict_get p f with
  | Some (File _) | Some (Catalog _) => true
  | _ => false
  end.

Definition is_child (p k : str) : bool :=
  match relative k p with
  | Some (c :: r) => negb (mem_char chr_slash (c :: r))
  | _ => false
  end.

Definition children (f : tree) (p : str) : list str :=
  map fst (filter (fun kv => is_child p (fst kv)) f).

Definition make_dir (f : tree) (p : str) : tree * option str :=
  match dict_get p f with
  | Some Dir => (f, None)
  | Some _ => (f, Some (py "File exists"))
  | None => (f ++ [(p, Dir)], None)
  end.

Definition copy (f : tree) (src dst : str) : tree * option str :=
  match dict_get src f with
  | Some (File c) => (dict_set dst (File c) f, None)
  | Some (Catalog r) => (dict_set dst (Catalog r) f, None)
  | _ => (f, Some (py "No such file or directory"))
  end.

Definition fetch (f : tree) (p : str) : result (list Row) :=
  match dict_get p f with
  | Some (Catalog rows) => Ok rows
  | _ => Raise (py "unable to open database file")
  end.

(** [str.lower] on ASCII letters *)
Definition ascii_lower (s : str) : str :=
  map (fun c => if (65 <=? c) && (c <=? 90) then c + 32 else c) s.

#[global] Instance platform : Platform := {|
  Path := str;
  FS := tree;
  joinpath := join;
  path_str := fun p => p;
  path_name := name;
  relative_to := relative;
  path_exists := exists_;
  is_dir := isdir;
  is_file := isfile;
  iterdir := children;
  mkdir := make_dir;
  copy2 := copy;
  fetch_catalog := fetch;
  lower := ascii_lower;
  float_str := format_1f
|}.

Definition row (id : Z) (t : string) (p : string) (a : string) : Row :=
  {| row_book_id := id; row_title := py t; row_path := py p;
     row_series_index := Some 1%Q; row_author_name := Some (py a);
     row_series_name := None; row_formats := Some (py "EPUB") |}.

Definition migrator (dry : bool) : Migrator :=
  {| calibre_path := py "lib"; komga_path := py "out"; dry_run := dry |}.

(** A library of two books by different authors. *)
Definition two_books : tree :=
  [(py "lib", Dir);
   (py "lib/metadata.db",
    Catalog [row 2 "Dune" "Frank Herbert/Dune (2)" "Frank Herbert";
             row 1 "Foundation (84)" "Isaac Asimov/Foundation (1)"
               "Isaac Asimov"]);
   (py "lib/Isaac Asimov/Foundation (1)", Dir);
   (py "lib/Isaac Asimov/Foundation (1)/book.epub", File (py "f"));
   (py "lib/Frank Herbert/Dune (2)", Dir);
   (py "lib/Frank Herbert/Dune (2)/dune.kepub", File (py "d"))].

(** A library whose only book has no directory on disk. *)
Definition missing_dir : tree :=
  [(py "lib", Dir);
   (py "lib/metadata.db", Catalog [row 1 "Dune" "Frank Herbert/Dune (2)"
                                     "Frank Herbert"])].

(** A library of one book, whose destination file is there already. *)
Definition already_there : tree :=
  [(py "lib", Dir);
   (py "lib/metadata.db", Catalog [row 2 "Dune" "Frank Herbert/Dune (2)"
                                     "Frank Herbert"]);
   (py "lib/Frank Herbert/Dune (2)", Dir);
   (py "lib/Frank Herbert/Dune (2)/dune.epub", File (py "new"));
   (py "out", Dir);
   (py "out/Frank Herbert", Dir);
   (py "out/Frank Herbert/Dune.epub", File (py "old"))].

(** The state before a run on the file system [f]. *)
Definition start (f : tree) : World := init_world f.

Definition run (dry : bool) (author_filter : option str) (f : tree) : World :=
  snd (migrate_library (migrator dry) author_filter (start f)).

(** The state once the catalog of [f] is loaded. *)
Definition loaded (f : tree) : World :=
  snd (load_calibre_metadata (migrator true) (start f)).

(** The record of the book by Frank Herbert, as loaded. *)
Definition dune : Metadata :=
  {| book_id := 2; title := py "Dune"; author := py "Frank Herbert";
     series := None; series_index := Some 1%Q; formats := [py "EPUB"] |}.

(** A file system without the library. *)
Definition no_library : tree := [].

(** A library whose [metadata.db] is not a catalog. *)
Definition broken_catalog : tree :=
  [(py "lib", Dir); (py "lib/metadata.db", File (py "junk"))].

(** A library with an empty catalog, and a file where the destination root
    should be. *)
Definition blocked_root : tree :=
  [(py "lib", Dir); (py "lib/metadata.db", Catalog []);
   (py "out", File (py "x"))].

End Toy.

(** ** Notions the statements use *)

(** An ASCII decimal digit *)
Definition is_ascii_digit (c : char) : Prop := 48 <= c <= 57.

(** A record of the catalog, for the examples. *)
Definition book (t : string) (s : option string) (i : option Q) : Metadata :=
  {| book_id := 1; title := py t; author := py "Isaac Asimov";
     series := option_map py s; series_index := i; formats := [] |}.

(** The disambiguation suffix: optional white space, a parenthesized run of
    one or more decimal digits, optional white space. *)
Definition is_suffix (s : str) : Prop :=
  exists w1 ds w2,
    s = w1 ++ chr_lparen :: ds ++ chr_rparen :: w2
    /\ forallb is_space w1 = true
    /\ ds <> []
    /\ forallb is_digit ds = true
    /\ forallb is_space w2 = true.

Definition ends_with_suffix (t : str) : Prop :=
  exists pre s, t = pre ++ s /\ is_suffix s.

(** [pre] itself ends with a suffix that white space precedes. *)
Definition stacked (pre : str) : Prop :=
  exists p0 w s0, pre = p0 ++ w :: s0 /\ is_space w = true /\ is_suffix s0.

(** Deciders for the three notions, by the shape of the string. *)
Definition tail_ok (s : str) : bool :=
  match s with
  | c :: s' => (c =? chr_rparen) && forallb is_space s'
  | [] => false
  end.

Definition digits_then_close (s : str) : bool :=
  match s with
  | d :: s' => is_digit d && tail_ok (lstrip_by is_digit s')
  | [] => false
  end.

Definition paren_suffix (s : str) : bool :=
  match s with
  | c :: s' => (c =? chr_lparen) && digits_then_close s'
  | [] => false
  end.

Definition is_suffixb (s : str) : bool :=
  paren_suffix (lstrip_by is_space s).

Definition spaced_suffixb (s : str) : bool :=
  match s with
  | c :: s' => is_space c && is_suffixb s'
  | [] => false
  end.

Fixpoint any_tail (m : str -> bool) (s : str) : bool :=
  m s || match s with
         | [] => false
         | _ :: s' => any_tail m s'
         end.

Definition ends_with_suffixb (t : str) : bool := any_tail is_suffixb t.

Definition stackedb (pre : str) : bool := any_tail spaced_suffixb pre.

(** The string up to the first place where [m] holds of what follows. *)
Fixpoint cut (m : str -> bool) (s : str) : str :=
  match s with
  | [] => []
  | c :: s' => if m s then [] else c :: cut m s'
  end.

(** [rstrip_by] from the left. *)
Fixpoint rstrip_l (p : char -> bool) (s : str) : str :=
  match s with
  | [] => []
  | c :: s' => if forallb p s then [] else c :: rstrip_l p s'
  end.

(** * Properties *)

Unset Implicit Arguments.

(** ** The examples of the specification *)

Example clean_foundation :
  clean_calibre_title (py "Foundation (84)") = py "Foundation"
  /\ clean_calibre_title (py "Foundation") = py "Foundation"
  /\ clean_calibre_title (py "Book 2020") = py "Book 2020".
Proof. repeat split; vm_compute; reflexivity. Qed.

Example sanitize_sample :
  sanitize_filename (py " ..a<b>:c/d\e|f?g*h. ") = py "a_b__c_d_e_f_g_h"
  /\ sanitize_filename [] = [].
Proof. split; vm_compute; reflexivity. Qed.

Example file_name_samples :
  get_file_name (book "Foundation (84)" (Some "Foundation") (Some (7 # 1)))
    (py "book.epub") = py "Volume 07 - Foundation.epub"
  /\ get_file_name (book "Foundation (84)" (Some "Foundation") (Some (7 # 2)))
    (py "book.epub") = py "Volume 003_5 - Foundation.epub"
  /\ get_file_name (book "Dune" None (Some 1%Q)) (py "x.kepub") = py "Dune.kepub"
  /\ get_file_name (book "F" (Some "S") (Some (123 # 1))) (py "b.epub")
     = py "Volume 123 - F.epub"
  /\ get_file_name (book "F" (Some "S") (Some (-7 # 2))) (py "b.epub")
     = py "Volume -03_5 - F.epub"
  /\ get_file_name (book "F" (Some "S") (Some (123456 # 100))) (py "b.epub")
     = py "Volume 1234_6 - F.epub"
  /\ get_file_name (book "F" (Some "S") (Some (1 # 4))) (py "b.epub")
     = py "Volume 000_2 - F.epub"
  /\ get_file_name (book "F" (Some "S") (Some (-3 # 1))) (py "b.epub")
     = py "Volume -3 - F.epub"
  /\ get_series_folder_name (book "F" (Some "Foundation") None)
     = py "Isaac Asimov - Foundation".
Proof. repeat split; vm_compute; reflexivity. Qed.


(** ** Stripping *)

Lemma lstrip_by_split (p : char -> bool) (s : str) :
  exists a, s = a ++ lstrip_by p s /\ forallb p a = true.
Proof.
  induction s as [|c s IH]; simpl.
  - exists []. split; reflexivity.
  - destruct (p c) eqn:Hc.
    + destruct IH as (a & Ha & Hp). exists (c :: a). split.
      * simpl. f_equal. exact Ha.
      * simpl. rewrite Hc. exact Hp.
    + exists []. split; reflexivity.
Qed.

Lemma lstrip_by_head (p : char -> bool) (s : str) (c : char) (r : str) :
  lstrip_by p s = c :: r -> p c = false.
Proof.
  induction s as [|x s IH]; simpl; [discriminate|].
  destruct (p x) eqn:Hx; [exact IH|].
  intros H. injection H as -> _. exact Hx.
Qed.

Lemma lstrip_by_fix (p : char -> bool) (c : char) (r : str) :
  p c = false -> lstrip_by p (c :: r) = c :: r.
Proof. intros H. simpl. rewrite H. reflexivity. Qed.

Lemma rstrip_by_snoc (p : char -> bool) (s : str) (c : char) :
  rstrip_by p (s ++ [c]) = if p c then rstrip_by p s else s ++ [c].
Proof.
  unfold rstrip_by. rewrite rev_app_distr. simpl.
  destruct (p c); [reflexivity|].
  simpl. rewrite rev_involutive. reflexivity.
Qed.

Lemma rstrip_by_nil (p : char -> bool) : rstrip_by p [] = [].
Proof. reflexivity. Qed.

Lemma rstrip_by_split (p : char -> bool) (s : str) :
  exists b, s = rstrip_by p s ++ b /\ forallb p b = true.
Proof.
  induction s as [|c s IH] using rev_ind.
  - exists []. split; reflexivity.
  - rewrite rstrip_by_snoc. destruct (p c) eqn:Hc.
    + destruct IH as (b & Hb & Hp). exists (b ++ [c]). split.
      * rewrite app_assoc. rewrite <- Hb. reflexivity.
      * rewrite forallb_app. rewrite Hp. simpl. rewrite Hc. reflexivity.
    + exists []. split; [rewrite app_nil_r; reflexivity | reflexivity].
Qed.

Lemma rstrip_by_last (p : char -> bool) (s pre : str) (c : char) :
  rstrip_by p s = pre ++ [c] -> p c = false.
Proof.
  induction s as [|x s IH] using rev_ind.
  - rewrite rstrip_by_nil. intros H. destruct pre; discriminate.
  - rewrite rstrip_by_snoc. destruct (p x) eqn:Hx; [exact IH|].
    intros H. apply app_inj_tail in H. destruct H as [_ ->]. exact Hx.
Qed.

Lemma rstrip_by_head (p : char -> bool) (c : char) (r : str) :
  p c = false -> exists r', rstrip_by p (c :: r) = c :: r'.
Proof.
  intros Hc. induction r as [|x r IH] using rev_ind.
  - exists []. change [c] with ([] ++ [c]). rewrite rstrip_by_snoc.
    rewrite Hc. reflexivity.
  - change (c :: r ++ [x]) with ((c :: r) ++ [x]). rewrite rstrip_by_snoc.
    destruct (p x); [exact IH|]. exists (r ++ [x]). reflexivity.
Qed.

Lemma rstrip_by_fix (p : char -> bool) (s : str) (c : char) :
  p c = false -> rstrip_by p (s ++ [c]) = s ++ [c].
Proof. intros H. rewrite rstrip_by_snoc. rewrite H. reflexivity. Qed.

Lemma strip_by_incl (p : char -> bool) (s : str) (c : char) :
  In c (strip_by p s) -> In c s.
Proof.
  unfold strip_by. intros H.
  destruct (lstrip_by_split p s) as (a & Ha & _).
  destruct (rstrip_by_split p (lstrip_by p s)) as (b & Hb & _).
  rewrite Ha. apply in_or_app. right. rewrite Hb. apply in_or_app.
  left. exact H.
Qed.

Lemma strip_by_head (p : char -> bool) (s : str) (c : char) (r : str) :
  strip_by p s = c :: r -> p c = false.
Proof.
  unfold strip_by. intros H.
  destruct (lstrip_by p s) as [|x t] eqn:Hl.
  - rewrite rstrip_by_nil in H. discriminate.
  - assert (Hx : p x = false) by (eapply lstrip_by_head; exact Hl).
    destruct (rstrip_by_head p x t Hx) as (r' & Hr).
    rewrite Hr in H. injection H as -> _. exact Hx.
Qed.

Lemma strip_by_last (p : char -> bool) (s pre : str) (c : char) :
  strip_by p s = pre ++ [c] -> p c = false.
Proof. unfold strip_by. apply rstrip_by_last. Qed.

(** A string that neither starts nor ends with a stripped character is left
    as it is. *)
Lemma strip_by_clean (p : char -> bool) (s : str) :
  (forall c r, s = c :: r -> p c = false) ->
  (forall pre c, s = pre ++ [c] -> p c = false) ->
  strip_by p s = s.
Proof.
  intros Hh Hl. unfold strip_by. destruct s as [|c r]; [reflexivity|].
  rewrite (lstrip_by_fix p c r (Hh c r eq_refl)).
  destruct (exists_last (l := c :: r)) as (pre & x & E); [discriminate|].
  rewrite E. apply rstrip_by_fix. apply (Hl pre x). exact E.
Qed.

(** ** The substitution of [re.sub] *)

Lemma sub_from_class (p : char -> bool) (repl : str) (s : str) :
  sub_from [Class p] repl s 0 = flat_map (fun c => if p c then repl else [c]) s.
Proof.
  induction s as [|c s IH]; [reflexivity|].
  cbn [sub_from match_here flat_map].
  destruct (p c).
  - replace (List.length (c :: s) - List.length s)%nat with 1%nat
      by (change (List.length (c :: s)) with (S (List.length s)); lia).
    rewrite IH. reflexivity.
  - rewrite IH. reflexivity.
Qed.

(** The first step of [sanitize_filename] replaces character by character. *)
Lemma re_sub_invalid (s : str) :
  re_sub [Class is_invalid] (py "_") s
  = map (fun c => if is_invalid c then chr_underscore else c) s.
Proof.
  unfold re_sub. rewrite sub_from_class.
  induction s as [|c s IH]; [reflexivity|].
  simpl. rewrite IH. destruct (is_invalid c); reflexivity.
Qed.

(** ** [sanitize_filename] *)

Lemma mem_char_In (c : char) (cs : str) : mem_char c cs = true <-> In c cs.
Proof.
  unfold mem_char. rewrite existsb_exists. split.
  - intros (x & Hx & E). apply N.eqb_eq in E. subst. exact Hx.
  - intros H. exists c. split; [exact H | apply N.eqb_refl].
Qed.

Lemma not_dot_space (c : char) :
  mem_char c (py ". ") = false -> c <> chr_dot /\ c <> chr_space.
Proof.
  intros H. split; intros ->; vm_compute in H; discriminate.
Qed.

Lemma sanitize_filename_unfold (x : str) :
  sanitize_filename x
  = if (100 <? List.length (stripped_name x))%nat
    then firstn 100 (stripped_name x) else stripped_name x.
Proof. reflexivity. Qed.

Lemma sanitize_filename_short (x : str) :
  (List.length (stripped_name x) <= 100)%nat ->
  sanitize_filename x = stripped_name x.
Proof.
  intros H. rewrite sanitize_filename_unfold.
  destruct (Nat.ltb_spec 100 (List.length (stripped_name x))); [lia|].
  reflexivity.
Qed.

Lemma sanitize_filename_prefix (x : str) :
  exists n, sanitize_filename x = firstn n (stripped_name x).
Proof.
  rewrite sanitize_filename_unfold.
  destruct (100 <? List.length (stripped_name x))%nat.
  - exists 100%nat. reflexivity.
  - exists (List.length (stripped_name x)). symmetry. apply firstn_all.
Qed.

Lemma firstn_In (A : Type) (n : nat) (l : list A) (a : A) :
  In a (firstn n l) -> In a l.
Proof.
  intros H. rewrite <- (firstn_skipn n l). apply in_or_app. left. exact H.
Qed.

Lemma stripped_name_valid (x : str) (c : char) :
  In c (stripped_name x) -> is_invalid c = false.
Proof.
  unfold stripped_name, strip_chars. intros H. apply strip_by_incl in H.
  rewrite re_sub_invalid in H. apply in_map_iff in H.
  destruct H as (d & E & _). destruct (is_invalid d) eqn:Hd.
  - subst c. reflexivity.
  - subst c. exact Hd.
Qed.

Lemma sanitize_filename_valid (x : str) (c : char) :
  In c (sanitize_filename x) -> is_invalid c = false.
Proof.
  destruct (sanitize_filename_prefix x) as (n & ->). intros H.
  apply firstn_In in H. revert H. apply stripped_name_valid.
Qed.

Lemma sanitize_filename_length (x : str) :
  (List.length (sanitize_filename x) <= 100)%nat.
Proof.
  rewrite sanitize_filename_unfold.
  destruct (Nat.ltb_spec 100 (List.length (stripped_name x))).
  - rewrite length_firstn. lia.
  - assumption.
Qed.

Lemma sanitize_filename_head (x : str) (c : char) (r : str) :
  sanitize_filename x = c :: r -> mem_char c (py ". ") = false.
Proof.
  destruct (sanitize_filename_prefix x) as (n & ->).
  destruct (stripped_name x) as [|d t] eqn:E.
  - rewrite firstn_nil. discriminate.
  - destruct n; simpl; [discriminate|]. intros H. injection H as -> _.
    unfold stripped_name, strip_chars in E.
    apply strip_by_head in E. exact E.
Qed.

Lemma sanitize_filename_last (x : str) (pre : str) (c : char) :
  (List.length (stripped_name x) <= 100)%nat ->
  sanitize_filename x = pre ++ [c] -> mem_char c (py ". ") = false.
Proof.
  intros Hlen. rewrite (sanitize_filename_short x Hlen).
  unfold stripped_name, strip_chars. intros E.
  apply strip_by_last in E. exact E.
Qed.

(** On a name that needs no truncation a second pass changes nothing. *)
Lemma sanitize_filename_idempotent_short (x : str) :
  (List.length (stripped_name x) <= 100)%nat ->
  sanitize_filename (sanitize_filename x) = sanitize_filename x.
Proof.
  intros Hlen.
  assert (Hs : stripped_name (sanitize_filename x) = sanitize_filename x).
  { unfold stripped_name at 1, strip_chars. rewrite re_sub_invalid.
    assert (Hm : map (fun c => if is_invalid c then chr_underscore else c)
                   (sanitize_filename x) = sanitize_filename x).
    { rewrite <- (map_id (sanitize_filename x)) at 2. apply map_ext_in.
      intros c Hc. rewrite (sanitize_filename_valid x c Hc). reflexivity. }
    rewrite Hm. apply strip_by_clean.
    - intros c r E. exact (sanitize_filename_head x c r E).
    - intros pre c E. exact (sanitize_filename_last x pre c Hlen E). }
  rewrite (sanitize_filename_short (sanitize_filename x)).
  - exact Hs.
  - rewrite Hs. apply sanitize_filename_length.
Qed.

(** C2 (as amended). For every input, the empty string included,
    [sanitize_filename] returns a string that contains none of the nine
    characters of its pattern, has at most 100 characters, does not start
    with a dot or a space (U+0020) and, when the name left after replacement
    and stripping has at most 100 characters, does not end with one either.
    Only the dot and the space are stripped, other white space is kept. *)
Theorem sanitize_filename_safe (x : str) :
  (forall c, In c (sanitize_filename x) -> ~ In c invalid_chars)
  /\ (List.length (sanitize_filename x) <= 100)%nat
  /\ (forall c r, sanitize_filename x = c :: r ->
                  c <> chr_dot /\ c <> chr_space)
  /\ ((List.length (stripped_name x) <= 100)%nat ->
      forall pre c, sanitize_filename x = pre ++ [c] ->
                    c <> chr_dot /\ c <> chr_space).
Proof.
  split; [|split; [|split]].
  - intros c Hc Hin. apply (sanitize_filename_valid x) in Hc.
    apply mem_char_In in Hin. unfold is_invalid in Hc. congruence.
  - apply sanitize_filename_length.
  - intros c r E. apply not_dot_space. exact (sanitize_filename_head x c r E).
  - intros Hlen pre c E. apply not_dot_space.
    exact (sanitize_filename_last x pre c Hlen E).
Qed.

(** The amended C2 at the name [" ..a<b>. "]. *)
Lemma sanitize_filename_safe_witness :
  sanitize_filename (py " ..a<b>. ") = py "a_b_"
  /\ forall pre c, sanitize_filename (py " ..a<b>. ") = pre ++ [c] ->
                   c <> chr_dot /\ c <> chr_space.
Proof.
  split; [vm_compute; reflexivity|].
  apply (proj2 (proj2 (proj2 (sanitize_filename_safe (py " ..a<b>. "))))).
  apply Nat.leb_le. vm_compute. reflexivity.
Defined.

(** C2 as stated fails: a leading tab (white space) is kept, and truncation
    can leave a dot at the end. *)
Lemma sanitize_filename_counterexample :
  sanitize_filename [9; 120] = [9; 120]
  /\ is_space 9 = true
  /\ sanitize_filename (repeat 97 99 ++ py ".b") = repeat 97 99 ++ [chr_dot].
Proof. repeat split; vm_compute; reflexivity. Qed.

(** C3. [sanitize_filename] is not idempotent on the 101 characters
    [aaa...a.b]: the first pass cuts behind the dot, the second strips it. *)
Theorem sanitize_filename_not_idempotent :
  sanitize_filename (repeat 97 99 ++ py ".b") = repeat 97 99 ++ [chr_dot]
  /\ sanitize_filename (sanitize_filename (repeat 97 99 ++ py ".b"))
     = repeat 97 99
  /\ sanitize_filename (sanitize_filename (repeat 97 99 ++ py ".b"))
     <> sanitize_filename (repeat 97 99 ++ py ".b").
Proof.
  repeat split; try (vm_compute; reflexivity).
  vm_compute. intros H. discriminate H.
Qed.

(** ** The matcher on the two title patterns *)

Lemma star_skip (p : char -> bool) (k : str -> option str) (s : str) :
  (forall c s', p c = true -> k (c :: s') = None) ->
  star p k s = k (lstrip_by p s).
Proof.
  intros Hk. induction s as [|c s IH]; [reflexivity|].
  simpl. destruct (p c) eqn:Hc; [|reflexivity].
  rewrite IH. rewrite (Hk c s Hc). destruct (k (lstrip_by p s)); reflexivity.
Qed.

Lemma star_eos (s : str) :
  star is_space (match_here [Eos]) s
  = if forallb is_space s then Some [] else None.
Proof.
  induction s as [|c s IH]; [reflexivity|].
  cbn [star forallb]. destruct (is_space c) eqn:Hc.
  - rewrite IH. cbn [andb]. destruct (forallb is_space s) eqn:Hs.
    + reflexivity.
    + cbn [match_here at_end]. destruct s as [|d s]; [discriminate|].
      reflexivity.
  - cbn [andb match_here at_end]. destruct s as [|d s]; [|reflexivity].
    destruct (N.eqb_spec c chr_newline) as [->|_]; [|reflexivity].
    vm_compute in Hc. discriminate.
Qed.

Lemma space_not_lparen (c : char) :
  is_space c = true -> (c =? chr_lparen) = false.
Proof.
  intros H. destruct (N.eqb_spec c chr_lparen) as [->|_]; [|reflexivity].
  vm_compute in H. discriminate.
Qed.

Lemma digit_not_rparen (c : char) :
  is_digit c = true -> (c =? chr_rparen) = false.
Proof.
  intros H. destruct (N.eqb_spec c chr_rparen) as [->|_]; [|reflexivity].
  vm_compute in H. discriminate.
Qed.

Lemma match_tail (s : str) :
  match_here [Lit chr_rparen; Star is_space; Eos] s
  = if tail_ok s then Some [] else None.
Proof.
  destruct s as [|c s]; [reflexivity|].
  cbn [match_here tail_ok]. destruct (c =? chr_rparen); [|reflexivity].
  cbn [andb]. apply star_eos.
Qed.

Lemma match_digits (s : str) :
  match_here [Plus is_digit; Lit chr_rparen; Star is_space; Eos] s
  = if digits_then_close s then Some [] else None.
Proof.
  destruct s as [|d s]; [reflexivity|].
  cbn [match_here digits_then_close]. destruct (is_digit d); [|reflexivity].
  cbn [andb].
  change (star is_digit
            (match_here [Lit chr_rparen; Star is_space; Eos]) s
          = if tail_ok (lstrip_by is_digit s) then Some [] else None).
  rewrite star_skip.
  - apply match_tail.
  - intros c s' Hc. cbn [match_here]. rewrite (digit_not_rparen c Hc).
    reflexivity.
Qed.

Lemma match_paren (s : str) :
  match_here [Lit chr_lparen; Plus is_digit; Lit chr_rparen;
              Star is_space; Eos] s
  = if paren_suffix s then Some [] else None.
Proof.
  destruct s as [|c s]; [reflexivity|].
  change (match_here [Lit chr_lparen; Plus is_digit; Lit chr_rparen;
                      Star is_space; Eos] (c :: s))
    with (if c =? chr_lparen
          then match_here [Plus is_digit; Lit chr_rparen; Star is_space; Eos] s
          else None).
  cbn [paren_suffix]. destruct (c =? chr_lparen); [|reflexivity].
  cbn [andb]. apply match_digits.
Qed.

Lemma match_suffix_re (s : str) :
  match_here suffix_re s = if is_suffixb s then Some [] else None.
Proof.
  unfold suffix_re, is_suffixb.
  change (star is_space
            (match_here [Lit chr_lparen; Plus is_digit; Lit chr_rparen;
                         Star is_space; Eos]) s
          = if paren_suffix (lstrip_by is_space s) then Some [] else None).
  rewrite star_skip.
  - apply match_paren.
  - intros c s' Hc.
    change (match_here [Lit chr_lparen; Plus is_digit; Lit chr_rparen;
                        Star is_space; Eos] (c :: s'))
      with (if c =? chr_lparen
            then match_here [Plus is_digit; Lit chr_rparen; Star is_space; Eos]
                   s'
            else None).
    rewrite (space_not_lparen c Hc). reflexivity.
Qed.

Lemma match_spaced_suffix_re (s : str) :
  match_here spaced_suffix_re s = if spaced_suffixb s then Some [] else None.
Proof.
  destruct s as [|c s]; [reflexivity|].
  unfold spaced_suffix_re.
  change (match_here [Plus is_space; Lit chr_lparen; Plus is_digit;
                      Lit chr_rparen; Star is_space; Eos] (c :: s))
    with (if is_space c then match_here suffix_re s else None).
  cbn [spaced_suffixb]. destruct (is_space c); [|reflexivity].
  cbn [andb]. apply match_suffix_re.
Qed.

(** A pattern that matches only up to the end of the string, and never the
    empty string, cuts the string at its leftmost match. *)
Lemma sub_from_drop (pat : pattern) (s : str) :
  match_here pat [] = None -> sub_from pat [] s (List.length s) = [].
Proof.
  intros H0. induction s as [|c s IH]; simpl.
  - rewrite H0. reflexivity.
  - exact IH.
Qed.

Lemma re_sub_cut (pat : pattern) (m : str -> bool) (s : str) :
  (forall u, match_here pat u = if m u then Some [] else None) ->
  m [] = false ->
  re_sub pat [] s = cut m s.
Proof.
  intros Hm H0. unfold re_sub.
  assert (Hnil : match_here pat [] = None) by (rewrite Hm, H0; reflexivity).
  induction s as [|c s IH].
  - simpl. rewrite Hnil. reflexivity.
  - cbn [sub_from cut]. rewrite Hm. destruct (m (c :: s)).
    + replace (List.length (c :: s) - List.length (@nil char))%nat
        with (S (List.length s)) by (simpl; lia).
      simpl. apply sub_from_drop. exact Hnil.
    + rewrite IH. reflexivity.
Qed.

Lemma clean_calibre_title_cut (t : str) :
  clean_calibre_title t = strip (cut spaced_suffixb (cut is_suffixb t)).
Proof.
  destruct t as [|c t]; [reflexivity|].
  unfold clean_calibre_title.
  rewrite (re_sub_cut suffix_re is_suffixb (c :: t) match_suffix_re eq_refl).
  rewrite (re_sub_cut spaced_suffix_re spaced_suffixb _
             match_spaced_suffix_re eq_refl).
  reflexivity.
Qed.

(** ** The suffix notions and their deciders *)

Lemma lstrip_by_app_all (p : char -> bool) (a s : str) :
  forallb p a = true -> lstrip_by p (a ++ s) = lstrip_by p s.
Proof.
  induction a as [|c a IH]; [reflexivity|].
  simpl. intros H. apply andb_prop in H. destruct H as [Hc Ha].
  rewrite Hc. apply IH. exact Ha.
Qed.

Lemma lstrip_by_app_some (p : char -> bool) (a s : str) :
  forallb p a = false ->
  exists c y, lstrip_by p a = c :: y /\ lstrip_by p (a ++ s) = (c :: y) ++ s.
Proof.
  induction a as [|c a IH]; [discriminate|].
  simpl. destruct (p c) eqn:Hc.
  - simpl. exact IH.
  - intros _. exists c, a. split; reflexivity.
Qed.

Lemma forallb_space_app (a b : str) :
  forallb is_space a = true -> forallb is_space b = true ->
  forallb is_space (a ++ b) = true.
Proof. intros Ha Hb. rewrite forallb_app, Ha, Hb. reflexivity. Qed.

Lemma paren_suffix_sound (s : str) :
  paren_suffix s = true ->
  exists ds w2, s = chr_lparen :: ds ++ chr_rparen :: w2
                /\ ds <> [] /\ forallb is_digit ds = true
                /\ forallb is_space w2 = true.
Proof.
  destruct s as [|c s]; [discriminate|]. cbn [paren_suffix].
  intros H. apply andb_prop in H. destruct H as [Hc H].
  apply N.eqb_eq in Hc. subst c.
  destruct s as [|d s]; [discriminate|]. cbn [digits_then_close] in H.
  apply andb_prop in H. destruct H as [Hd H].
  destruct (lstrip_by_split is_digit s) as (a & Ha & Hda).
  destruct (lstrip_by is_digit s) as [|x w2]; [discriminate|].
  cbn [tail_ok] in H. apply andb_prop in H. destruct H as [Hx Hw].
  apply N.eqb_eq in Hx. subst x.
  exists (d :: a), w2. repeat split.
  - simpl. rewrite Ha at 1. reflexivity.
  - discriminate.
  - simpl. rewrite Hd, Hda. reflexivity.
  - exact Hw.
Qed.

Lemma paren_suffix_complete (ds w2 : str) :
  ds <> [] -> forallb is_digit ds = true -> forallb is_space w2 = true ->
  paren_suffix (chr_lparen :: ds ++ chr_rparen :: w2) = true.
Proof.
  intros Hne Hd Hw. destruct ds as [|d ds]; [contradiction|].
  simpl in Hd. apply andb_prop in Hd. destruct Hd as [Hd Hds].
  cbn [paren_suffix app digits_then_close]. rewrite N.eqb_refl, Hd.
  cbn [andb]. rewrite (lstrip_by_app_all is_digit ds _ Hds).
  cbn [lstrip_by]. change (is_digit chr_rparen) with false. cbn iota.
  cbn [tail_ok]. rewrite N.eqb_refl. exact Hw.
Qed.

Lemma is_suffixb_sound (s : str) : is_suffixb s = true -> is_suffix s.
Proof.
  unfold is_suffixb. intros H.
  destruct (lstrip_by_split is_space s) as (a & Ha & Hsa).
  destruct (paren_suffix_sound _ H) as (ds & w2 & E & Hne & Hd & Hw).
  exists a, ds, w2. repeat split; try assumption.
  rewrite <- E. exact Ha.
Qed.

Lemma is_suffixb_complete (s : str) : is_suffix s -> is_suffixb s = true.
Proof.
  intros (w1 & ds & w2 & -> & Hw1 & Hne & Hd & Hw2). unfold is_suffixb.
  rewrite (lstrip_by_app_all is_space w1 _ Hw1).
  cbn [lstrip_by]. change (is_space chr_lparen) with false. cbn iota.
  apply paren_suffix_complete; assumption.
Qed.

Lemma is_suffix_space_left (a s : str) :
  forallb is_space a = true -> is_suffix s -> is_suffix (a ++ s).
Proof.
  intros Ha (w1 & ds & w2 & -> & Hw1 & Hne & Hd & Hw2).
  exists (a ++ w1), ds, w2. repeat split; try assumption.
  - rewrite app_assoc. reflexivity.
  - apply forallb_space_app; assumption.
Qed.

Lemma is_suffix_space_right (s b : str) :
  forallb is_space b = true -> is_suffix s -> is_suffix (s ++ b).
Proof.
  intros Hb (w1 & ds & w2 & -> & Hw1 & Hne & Hd & Hw2).
  exists w1, ds, (w2 ++ b). repeat split; try assumption.
  - rewrite <- app_assoc. simpl. rewrite <- app_assoc. reflexivity.
  - apply forallb_space_app; assumption.
Qed.

Lemma any_tail_true (m : str -> bool) (t : str) :
  any_tail m t = true <-> exists pre u, t = pre ++ u /\ m u = true.
Proof.
  split.
  - induction t as [|c t IH]; simpl; intros H.
    + rewrite orb_false_r in H. exists [], []. split; [reflexivity|exact H].
    + apply orb_prop in H. destruct H as [H|H].
      * exists [], (c :: t). split; [reflexivity|exact H].
      * destruct (IH H) as (pre & u & -> & Hu).
        exists (c :: pre), u. split; [reflexivity|exact Hu].
  - intros (pre & u & -> & Hu). induction pre as [|c pre IH].
    + simpl. destruct u; simpl; rewrite Hu; reflexivity.
    + simpl. rewrite IH. apply orb_true_r.
Qed.

Lemma ends_with_suffix_decide (t : str) :
  ends_with_suffix t <-> ends_with_suffixb t = true.
Proof.
  unfold ends_with_suffix, ends_with_suffixb. rewrite any_tail_true. split.
  - intros (pre & s & E & H). exists pre, s. split; [exact E|].
    apply is_suffixb_complete. exact H.
  - intros (pre & s & E & H). exists pre, s. split; [exact E|].
    apply is_suffixb_sound. exact H.
Qed.

Lemma stacked_decide (pre : str) : stacked pre <-> stackedb pre = true.
Proof.
  unfold stacked, stackedb. rewrite any_tail_true. split.
  - intros (p0 & w & s0 & E & Hw & H). exists p0, (w :: s0).
    split; [exact E|]. cbn [spaced_suffixb]. rewrite Hw.
    apply is_suffixb_complete. exact H.
  - intros (p0 & u & E & H). destruct u as [|w s0]; [discriminate|].
    cbn [spaced_suffixb] in H. apply andb_prop in H. destruct H as [Hw H].
    exists p0, w, s0. repeat split; [exact E|exact Hw|].
    apply is_suffixb_sound. exact H.
Qed.

(** ** Where the patterns cut *)

Lemma cut_none (m : str -> bool) (s : str) : any_tail m s = false -> cut m s = s.
Proof.
  induction s as [|c s IH]; [reflexivity|].
  simpl. intros H. apply orb_false_elim in H. destruct H as [Hm Hs].
  rewrite Hm. rewrite (IH Hs). reflexivity.
Qed.

Lemma cut_prefix (m : str -> bool) (s : str) : exists b, s = cut m s ++ b.
Proof.
  induction s as [|c s IH].
  - exists []. reflexivity.
  - simpl. destruct (m (c :: s)).
    + exists (c :: s). reflexivity.
    + destruct IH as (b & Hb). exists b. simpl. rewrite <- Hb. reflexivity.
Qed.

Lemma tail_ok_before_paren (z r : str) :
  tail_ok (z ++ chr_lparen :: r) = false.
Proof.
  destruct z as [|c z]; [reflexivity|].
  cbn [app tail_ok]. rewrite forallb_app. cbn [forallb].
  change (is_space chr_lparen) with false.
  rewrite andb_false_r, andb_false_r. reflexivity.
Qed.

Lemma digits_then_close_before_paren (z r : str) :
  digits_then_close (z ++ chr_lparen :: r) = false.
Proof.
  destruct z as [|d z]; [reflexivity|].
  cbn [app digits_then_close].
  destruct (forallb is_digit z) eqn:Hz.
  - rewrite (lstrip_by_app_all is_digit z _ Hz). simpl.
    apply andb_false_r.
  - destruct (lstrip_by_app_some is_digit z (chr_lparen :: r) Hz)
      as (c & y & _ & ->).
    rewrite (tail_ok_before_paren (c :: y) r). apply andb_false_r.
Qed.

Lemma is_suffixb_app (u s : str) :
  is_suffix s -> is_suffixb (u ++ s) = forallb is_space u.
Proof.
  intros Hs. destruct (forallb is_space u) eqn:Hu.
  - apply is_suffixb_complete. apply is_suffix_space_left; assumption.
  - unfold is_suffixb.
    destruct (lstrip_by_app_some is_space u s Hu) as (c & y & _ & ->).
    destruct Hs as (w1 & ds & w2 & -> & _).
    cbn [app paren_suffix]. rewrite app_assoc.
    rewrite digits_then_close_before_paren. apply andb_false_r.
Qed.

Lemma cut_suffix (pre s : str) :
  is_suffix s -> cut is_suffixb (pre ++ s) = rstrip_l is_space pre.
Proof.
  intros Hs. induction pre as [|c pre IH].
  - simpl. destruct s as [|x s].
    + destruct Hs as (w1 & ds & w2 & E & _). destruct w1; discriminate.
    + simpl. rewrite (is_suffixb_complete _ Hs). reflexivity.
  - change ((c :: pre) ++ s) with (c :: pre ++ s). cbn [cut rstrip_l].
    change (c :: pre ++ s) with ((c :: pre) ++ s).
    rewrite (is_suffixb_app (c :: pre) s Hs).
    destruct (forallb is_space (c :: pre)); [reflexivity|].
    rewrite IH. reflexivity.
Qed.

Lemma rstrip_l_snoc (p : char -> bool) (s : str) (c : char) :
  rstrip_l p (s ++ [c]) = if p c then rstrip_l p s else s ++ [c].
Proof.
  induction s as [|x s IH].
  - simpl. destruct (p c); reflexivity.
  - change ((x :: s) ++ [c]) with (x :: s ++ [c]). cbn [rstrip_l].
    change (x :: s ++ [c]) with ((x :: s) ++ [c]) at 1.
    rewrite forallb_app. cbn [forallb]. rewrite IH.
    destruct (p c).
    + rewrite !andb_true_r. reflexivity.
    + rewrite !andb_false_r. reflexivity.
Qed.

Lemma rstrip_l_eq (p : char -> bool) (s : str) : rstrip_l p s = rstrip_by p s.
Proof.
  induction s as [|c s IH] using rev_ind; [reflexivity|].
  rewrite rstrip_l_snoc, rstrip_by_snoc, IH. reflexivity.
Qed.

Lemma rstrip_l_all (p : char -> bool) (s : str) :
  forallb p s = true -> rstrip_l p s = [].
Proof. destruct s; simpl; intros H; [reflexivity|rewrite H; reflexivity]. Qed.

Lemma lstrip_rstrip_l (p : char -> bool) (s : str) :
  lstrip_by p (rstrip_l p s) = rstrip_l p (lstrip_by p s).
Proof.
  induction s as [|c s IH]; [reflexivity|].
  cbn [rstrip_l lstrip_by]. destruct (forallb p (c :: s)) eqn:Hall.
  - simpl in Hall. apply andb_prop in Hall. destruct Hall as [Hc Hs].
    rewrite Hc. rewrite <- IH. rewrite (rstrip_l_all p s Hs). reflexivity.
  - destruct (p c) eqn:Hc.
    + cbn [lstrip_by]. rewrite Hc. exact IH.
    + cbn [lstrip_by rstrip_l]. rewrite Hc, Hall. reflexivity.
Qed.

Lemma rstrip_l_idem (p : char -> bool) (s : str) :
  rstrip_l p (rstrip_l p s) = rstrip_l p s.
Proof.
  induction s as [|c s IH] using rev_ind; [reflexivity|].
  rewrite rstrip_l_snoc. destruct (p c) eqn:Hc; [exact IH|].
  rewrite rstrip_l_snoc, Hc. reflexivity.
Qed.

Lemma strip_rstrip (s : str) : strip (rstrip_l is_space s) = strip s.
Proof.
  unfold strip, strip_by. rewrite <- !rstrip_l_eq.
  rewrite lstrip_rstrip_l. apply rstrip_l_idem.
Qed.

Lemma strip_substring (s : str) : exists a b, s = a ++ strip s ++ b.
Proof.
  unfold strip, strip_by.
  destruct (lstrip_by_split is_space s) as (a & Ha & _).
  destruct (rstrip_by_split is_space (lstrip_by is_space s)) as (b & Hb & _).
  exists a, b. rewrite <- Hb. exact Ha.
Qed.

(** ** [clean_calibre_title] *)

Lemma clean_without_suffix (t : str) :
  ~ ends_with_suffix t -> clean_calibre_title t = strip t.
Proof.
  intros Hno. rewrite clean_calibre_title_cut.
  assert (H1 : any_tail is_suffixb t = false).
  { destruct (any_tail is_suffixb t) eqn:E; [|reflexivity].
    exfalso. apply Hno. apply ends_with_suffix_decide. exact E. }
  rewrite (cut_none _ _ H1).
  assert (H2 : any_tail spaced_suffixb t = false).
  { destruct (any_tail spaced_suffixb t) eqn:E; [|reflexivity].
    exfalso. apply Hno. apply any_tail_true in E.
    destruct E as (pre & u & -> & Hu). destruct u as [|w s0]; [discriminate|].
    cbn [spaced_suffixb] in Hu. apply andb_prop in Hu. destruct Hu as [_ Hu].
    exists (pre ++ [w]), s0. split.
    - rewrite <- app_assoc. reflexivity.
    - apply is_suffixb_sound. exact Hu. }
  rewrite (cut_none _ _ H2). reflexivity.
Qed.

Lemma clean_one_suffix (pre s : str) :
  is_suffix s -> ~ stacked pre -> clean_calibre_title (pre ++ s) = strip pre.
Proof.
  intros Hs Hno. rewrite clean_calibre_title_cut.
  rewrite (cut_suffix pre s Hs).
  assert (H2 : any_tail spaced_suffixb (rstrip_l is_space pre) = false).
  { destruct (any_tail spaced_suffixb (rstrip_l is_space pre)) eqn:E;
      [|reflexivity].
    exfalso. apply Hno. apply any_tail_true in E.
    destruct E as (p0 & u & E & Hu). destruct u as [|w s0]; [discriminate|].
    cbn [spaced_suffixb] in Hu. apply andb_prop in Hu. destruct Hu as [Hw Hu].
    destruct (rstrip_by_split is_space pre) as (b & Hb & Hbs).
    rewrite <- rstrip_l_eq in Hb. rewrite E in Hb.
    exists p0, w, (s0 ++ b). repeat split.
    - rewrite Hb. rewrite <- app_assoc. reflexivity.
    - exact Hw.
    - apply is_suffix_space_right; [exact Hbs|].
      apply is_suffixb_sound. exact Hu. }
  rewrite (cut_none _ _ H2). apply strip_rstrip.
Qed.

Lemma clean_substring (t : str) :
  exists a b, t = a ++ clean_calibre_title t ++ b.
Proof.
  rewrite clean_calibre_title_cut.
  destruct (cut_prefix is_suffixb t) as (b1 & H1).
  destruct (cut_prefix spaced_suffixb (cut is_suffixb t)) as (b2 & H2).
  destruct (strip_substring (cut spaced_suffixb (cut is_suffixb t)))
    as (a & b3 & H3).
  exists a, (b3 ++ b2 ++ b1).
  rewrite H1 at 1. rewrite H2 at 1. rewrite H3 at 1.
  rewrite <- !app_assoc. reflexivity.
Qed.

(** C1 (as amended). A title that does not end with a parenthesized run of
    decimal digits (and optional white space) is returned with its leading
    and trailing white space stripped. A title that ends with one such
    suffix, with no further suffix stacked before it behind white space,
    loses that suffix and the white space around it. In every case the
    result is a contiguous part of the title: nothing inside it, digits
    included, is altered. *)
Theorem clean_calibre_title_spec :
  (forall t, ~ ends_with_suffix t -> clean_calibre_title t = strip t)
  /\ (forall pre s, is_suffix s -> ~ stacked pre ->
                    clean_calibre_title (pre ++ s) = strip pre)
  /\ (forall t, exists a b, t = a ++ clean_calibre_title t ++ b).
Proof.
  split; [exact clean_without_suffix|].
  split; [exact clean_one_suffix | exact clean_substring].
Qed.

(** The amended C1 at [" Book 2020 "] and at ["Foundation (84)"]. *)
Lemma clean_calibre_title_spec_witness :
  clean_calibre_title (py " Book 2020 ") = strip (py " Book 2020 ")
  /\ clean_calibre_title (py "Foundation" ++ py " (84)")
     = strip (py "Foundation").
Proof.
  split.
  - apply (proj1 clean_calibre_title_spec).
    intros H. apply ends_with_suffix_decide in H. vm_compute in H.
    discriminate H.
  - apply (proj1 (proj2 clean_calibre_title_spec)).
    + apply is_suffixb_sound. vm_compute. reflexivity.
    + intros H. apply stacked_decide in H. vm_compute in H. discriminate H.
Defined.

(** C1 as stated fails: white space around a title without suffix is
    stripped, and of two stacked suffixes both are removed. *)
Lemma clean_calibre_title_counterexample :
  clean_calibre_title (py " Foundation ") = py "Foundation"
  /\ clean_calibre_title (py " Foundation ") <> py " Foundation "
  /\ ends_with_suffixb (py " Foundation ") = false
  /\ clean_calibre_title (py "Foo (1) (2)") = py "Foo"
  /\ clean_calibre_title (py "Foo (1) (2)") <> py "Foo (1)".
Proof.
  repeat split; try (vm_compute; reflexivity);
    vm_compute; intros H; discriminate H.
Qed.

(** ** Numbers as text *)

Lemma str_of_uint_digits (d : Decimal.uint) :
  Forall is_ascii_digit (str_of_uint d).
Proof.
  induction d; simpl; constructor; try assumption; unfold is_ascii_digit; lia.
Qed.

Lemma str_of_N_digits (n : N) : Forall is_ascii_digit (str_of_N n).
Proof. apply str_of_uint_digits. Qed.

Lemma str_of_N_nonempty (n : N) : str_of_N n <> [].
Proof.
  unfold str_of_N. destruct n as [|p]; [discriminate|].
  simpl. pose proof (DecimalPos.Unsigned.to_uint_nonnil p) as H.
  destruct (Pos.to_uint p); [contradiction|..]; discriminate.
Qed.

Lemma str_of_Z_nonneg (z : Z) : (0 <= z)%Z -> str_of_Z z = str_of_N (Z.to_N z).
Proof. destruct z; [reflexivity|reflexivity|lia]. Qed.

Lemma str_of_Z_digit (r : Z) :
  (0 <= r < 10)%Z -> str_of_Z r = [chr_zero + Z.to_N r].
Proof.
  intros H.
  assert (E : (r = 0 \/ r = 1 \/ r = 2 \/ r = 3 \/ r = 4 \/ r = 5 \/ r = 6
               \/ r = 7 \/ r = 8 \/ r = 9)%Z) by lia.
  repeat (destruct E as [->|E]; [reflexivity|]). subst r. reflexivity.
Qed.

Lemma str_of_N_small (k : N) :
  k < 1000 -> (List.length (str_of_N k) <= 3)%nat.
Proof.
  intros Hk.
  assert (H : forallb (fun n => (List.length (str_of_N n) <=? 3)%nat)
                (map N.of_nat (seq 0 1000)) = true)
    by (vm_compute; reflexivity).
  rewrite forallb_forall in H. apply Nat.leb_le. apply H.
  apply in_map_iff. exists (N.to_nat k). split.
  - apply N2Nat.id.
  - apply in_seq. lia.
Qed.

Lemma str_of_N_two_digits (n : N) :
  10 <= n -> (2 <= List.length (str_of_N n))%nat.
Proof.
  intros Hn. unfold str_of_N.
  pose proof (DecimalN.Unsigned.of_to n) as E.
  destruct (N.to_uint n) as [|u|u|u|u|u|u|u|u|u|u];
    try (vm_compute in E; lia);
    destruct u; simpl; try lia; vm_compute in E; lia.
Qed.

Lemma zfill_long (w : nat) (s : str) :
  (w <= List.length s)%nat -> zfill w s = s.
Proof.
  intros H. unfold zfill.
  replace (w - List.length s)%nat with 0%nat by lia. simpl.
  destruct s as [|c s]; [reflexivity|].
  destruct ((c =? chr_minus) || (c =? 43)); reflexivity.
Qed.

Lemma zfill_unsigned (w : nat) (c : char) (s : str) :
  is_ascii_digit c ->
  zfill w (c :: s)
  = repeat chr_zero (w - List.length (c :: s)) ++ c :: s.
Proof.
  intros Hc. unfold zfill, is_ascii_digit in *.
  destruct (N.eqb_spec c chr_minus) as [E|_];
    [unfold chr_minus in E; lia|].
  destruct (N.eqb_spec c 43) as [E|_]; [lia|]. reflexivity.
Qed.

Lemma zfill_minus (w : nat) (s : str) :
  zfill w (chr_minus :: s)
  = chr_minus :: repeat chr_zero (w - List.length (chr_minus :: s)) ++ s.
Proof. reflexivity. Qed.

Lemma replace_char_app (a b : char) (s t : str) :
  replace_char a b (s ++ t) = replace_char a b s ++ replace_char a b t.
Proof. apply map_app. Qed.

Lemma replace_char_digits (s : str) :
  Forall is_ascii_digit s -> replace_char chr_dot chr_underscore s = s.
Proof.
  intros H. induction H as [|c s Hc _ IH]; [reflexivity|].
  simpl. rewrite IH. unfold is_ascii_digit in Hc.
  destruct (N.eqb_spec c chr_dot) as [E|_];
    [unfold chr_dot in E; lia|reflexivity].
Qed.

Lemma repeat_zero_digits (n : nat) : Forall is_ascii_digit (repeat chr_zero n).
Proof.
  induction n; simpl; constructor; [|assumption].
  unfold is_ascii_digit, chr_zero. lia.
Qed.

(** ** The numbers of the catalog *)

Lemma round_half_even_nonneg (n d : Z) :
  (0 <= n)%Z -> (0 < d)%Z -> (0 <= round_half_even n d)%Z.
Proof.
  intros Hn Hd. unfold round_half_even.
  assert (0 <= n / d)%Z by (apply Z.div_pos; lia).
  destruct (2 * (n mod d) ?= d)%Z; [destruct (Z.even (n / d))|..]; lia.
Qed.

Lemma tenths_nonneg (x : Q) : (0 <= tenths x)%Z.
Proof. unfold tenths. apply round_half_even_nonneg; lia. Qed.

Lemma is_whole_false (x : Q) :
  (forall n : Z, ~ x == inject_Z n) -> is_whole x = false.
Proof.
  intros H. unfold is_whole.
  destruct (Qeq_bool x (inject_Z (int_of_float x))) eqn:E; [|reflexivity].
  apply Qeq_bool_iff in E. exfalso. exact (H _ E).
Qed.

Lemma is_whole_true (x : Q) (n : Z) :
  x == inject_Z n -> is_whole x = true /\ int_of_float x = n.
Proof.
  intros H. unfold Qeq in H. simpl in H.
  assert (E : int_of_float x = n).
  { unfold int_of_float. rewrite Z.mul_1_r in H. rewrite H.
    apply Z.quot_mul. lia. }
  split; [|exact E]. unfold is_whole. apply Qeq_bool_iff. rewrite E.
  unfold Qeq. simpl. lia.
Qed.

Lemma fractional_truthy (x : Q) :
  (forall n : Z, ~ x == inject_Z n) -> float_truthy x = true.
Proof.
  intros H. unfold float_truthy. destruct (Z.eqb_spec (Qnum x) 0) as [E|_];
    [|reflexivity].
  exfalso. apply (H 0%Z). unfold Qeq. simpl. rewrite E. reflexivity.
Qed.

(** ** [get_file_name] *)

Lemma format_1f_eq (x : Q) :
  format_1f x
  = (if (Qnum x <? 0)%Z then [chr_minus] else [])
      ++ str_of_N (Z.to_N (tenths x / 10))
      ++ [chr_dot; chr_zero + Z.to_N (tenths x mod 10)].
Proof.
  unfold format_1f. pose proof (tenths_nonneg x) as Ht.
  rewrite (str_of_Z_nonneg (tenths x / 10)) by (apply Z.div_pos; lia).
  rewrite (str_of_Z_digit (tenths x mod 10)) by (apply Z.mod_pos_bound; lia).
  reflexivity.
Qed.

Lemma replace_token (sign fill ds : str) (d : char) :
  sign = [] \/ sign = [chr_minus] ->
  Forall is_ascii_digit fill -> Forall is_ascii_digit ds ->
  is_ascii_digit d ->
  replace_char chr_dot chr_underscore (sign ++ fill ++ ds ++ [chr_dot; d])
  = sign ++ fill ++ ds ++ [chr_underscore; d].
Proof.
  intros Hsign Hfill Hds Hd. rewrite !replace_char_app.
  rewrite (replace_char_digits fill Hfill), (replace_char_digits ds Hds).
  assert (E1 : replace_char chr_dot chr_underscore sign = sign)
    by (destruct Hsign as [->| ->]; reflexivity).
  assert (E2 : replace_char chr_dot chr_underscore [chr_dot; d]
               = [chr_underscore; d]).
  { simpl. unfold is_ascii_digit in Hd.
    destruct (N.eqb_spec d chr_dot) as [E|_];
      [unfold chr_dot in E; lia | reflexivity]. }
  rewrite E1, E2. reflexivity.
Qed.

Lemma zfill_token (w : nat) (sign ds rest : str) :
  sign = [] \/ sign = [chr_minus] ->
  ds <> [] -> Forall is_ascii_digit ds ->
  zfill w (sign ++ ds ++ rest)
  = sign ++ repeat chr_zero (w - List.length (sign ++ ds ++ rest))
      ++ ds ++ rest.
Proof.
  intros Hsign Hne Hds. destruct ds as [|c ds']; [contradiction|].
  destruct Hsign as [->| ->].
  - change ([] ++ ?a) with a. apply zfill_unsigned.
    inversion Hds; assumption.
  - apply zfill_minus.
Qed.

(** The volume number of a fractional index, laid out. *)
Lemma volume_num_fraction (x : Q) :
  is_whole x = false ->
  let sign := if (Qnum x <? 0)%Z then [chr_minus] else [] in
  let ds := str_of_N (Z.to_N (tenths x / 10)) in
  let d := chr_zero + Z.to_N (tenths x mod 10) in
  volume_num x
  = sign ++ repeat chr_zero (5 - List.length (sign ++ ds ++ [chr_dot; d]))
      ++ ds ++ [chr_underscore; d].
Proof.
  intros Hw sign ds d. unfold volume_num. rewrite Hw.
  unfold format_05_1f. rewrite format_1f_eq. fold sign ds d.
  assert (Hd : is_ascii_digit d).
  { unfold d, is_ascii_digit, chr_zero.
    pose proof (Z.mod_pos_bound (tenths x) 10). lia. }
  assert (Hsign : sign = [] \/ sign = [chr_minus])
    by (unfold sign; destruct (Qnum x <? 0)%Z; auto).
  rewrite (zfill_token 5 sign ds [chr_dot; d] Hsign
             (str_of_N_nonempty _) (str_of_N_digits _)).
  apply replace_token;
    [exact Hsign | apply repeat_zero_digits | apply str_of_N_digits
     | exact Hd].
Qed.

Lemma get_file_name_series (md : Metadata) (orig s : str) (idx : Q) :
  series md = Some s -> s <> [] -> series_index md = Some idx ->
  float_truthy idx = true ->
  get_file_name md orig
  = sanitize_filename (py "Volume " ++ volume_num idx ++ py " - "
                       ++ clean_calibre_title (title md))
      ++ suffix orig.
Proof.
  intros Hs Hne Hi Ht. unfold get_file_name. rewrite Hi, Hs, Ht.
  destruct s; [contradiction|]. reflexivity.
Qed.

(** For a whole index other than zero the name is [Volume NN - title], the
    index padded with zeros to two digits and at its natural width from 10
    on. *)
Lemma get_file_name_whole (md : Metadata) (orig s : str) (idx : Q) (n : Z) :
  series md = Some s -> s <> [] -> series_index md = Some idx ->
  idx == inject_Z n -> n <> 0%Z ->
  get_file_name md orig
  = sanitize_filename (py "Volume " ++ zfill 2 (str_of_Z n) ++ py " - "
                       ++ clean_calibre_title (title md))
      ++ suffix orig
  /\ ((0 < n < 10)%Z -> zfill 2 (str_of_Z n) = [chr_zero; chr_zero + Z.to_N n])
  /\ ((10 <= n)%Z -> zfill 2 (str_of_Z n) = str_of_Z n).
Proof.
  intros Hs Hne Hi Hq Hn.
  destruct (is_whole_true idx n Hq) as [Hw Hint].
  assert (Ht : float_truthy idx = true).
  { unfold float_truthy. destruct (Z.eqb_spec (Qnum idx) 0) as [E|_];
      [|reflexivity].
    exfalso. apply Hn. rewrite <- Hint. unfold int_of_float. rewrite E.
    reflexivity. }
  split; [|split].
  - rewrite (get_file_name_series md orig s idx Hs Hne Hi Ht).
    unfold volume_num. rewrite Hw, Hint. reflexivity.
  - intros Hr. rewrite str_of_Z_digit by lia.
    rewrite zfill_unsigned by (unfold is_ascii_digit, chr_zero; lia).
    reflexivity.
  - intros Hr. apply zfill_long. rewrite str_of_Z_nonneg by lia.
    apply str_of_N_two_digits. lia.
Qed.

(** C4. At the whole index 0 the code does not produce [Volume 00 - title]:
    a zero index counts as absent and the book is named as a standalone
    one. *)
Theorem get_file_name_index_zero :
  get_file_name (book "Foundation (84)" (Some "Foundation") (Some (0 # 1)))
    (py "book.epub") = py "Foundation.epub"
  /\ get_file_name (book "Foundation (84)" (Some "Foundation") (Some (7 # 1)))
       (py "book.epub") = py "Volume 07 - Foundation.epub"
  /\ get_file_name (book "Foundation (84)" (Some "Foundation") (Some (0 # 1)))
       (py "book.epub") <> py "Volume 00 - Foundation.epub".
Proof.
  repeat split; try (vm_compute; reflexivity).
  vm_compute. intros H. discriminate H.
Qed.

(** C5 (as amended). For a record whose series is present (and not empty)
    and whose index is present and fractional, the name is
    [Volume token - title], sanitized, plus the extension of the original
    name; the token is the index in the format [05.1f] with the point
    replaced by an underscore: an optional minus sign, digits padded with
    zeros on the left to a total width of at least 5 characters, an
    underscore and exactly one digit. The token has 5 characters when the
    index is positive and rounds to less than 1000.0, and more when the
    number needs them. *)
Theorem get_file_name_fractional (md : Metadata) (orig s : str) (idx : Q) :
  series md = Some s -> s <> [] -> series_index md = Some idx ->
  (forall n : Z, ~ idx == inject_Z n) ->
  get_file_name md orig
  = sanitize_filename (py "Volume " ++ volume_num idx ++ py " - "
                       ++ clean_calibre_title (title md))
      ++ suffix orig
  /\ volume_num idx
     = replace_char chr_dot chr_underscore (format_05_1f idx)
  /\ (exists sign ds d,
        volume_num idx = sign ++ ds ++ [chr_underscore; d]
        /\ (sign = [] \/ sign = [chr_minus])
        /\ ds <> [] /\ Forall is_ascii_digit ds /\ is_ascii_digit d)
  /\ (5 <= List.length (volume_num idx))%nat
  /\ ((0 <= Qnum idx)%Z -> (tenths idx < 10000)%Z ->
      List.length (volume_num idx) = 5%nat).
Proof.
  intros Hs Hne Hi Hfrac.
  pose proof (is_whole_false idx Hfrac) as Hw.
  pose proof (fractional_truthy idx Hfrac) as Ht.
  pose proof (volume_num_fraction idx Hw) as Hv. cbv zeta in Hv.
  pose proof (tenths_nonneg idx) as Hten.
  pose proof (str_of_N_nonempty (Z.to_N (tenths idx / 10))) as Hds.
  set (ds := str_of_N (Z.to_N (tenths idx / 10))) in *.
  set (d := chr_zero + Z.to_N (tenths idx mod 10)) in *.
  set (sign := if (Qnum idx <? 0)%Z then [chr_minus] else []) in *.
  split; [exact (get_file_name_series md orig s idx Hs Hne Hi Ht)|].
  split; [unfold volume_num; rewrite Hw; reflexivity|].
  split; [|split].
  - exists sign,
      (repeat chr_zero (5 - List.length (sign ++ ds ++ [chr_dot; d])) ++ ds),
      d.
    split; [rewrite Hv, <- app_assoc; reflexivity|].
    split; [unfold sign; destruct (Qnum idx <? 0)%Z; auto|].
    split; [intros E; apply app_eq_nil in E; destruct E; contradiction|].
    split.
    + apply Forall_app. split; [apply repeat_zero_digits|].
      apply str_of_N_digits.
    + unfold d, is_ascii_digit, chr_zero.
      pose proof (Z.mod_pos_bound (tenths idx) 10). lia.
  - rewrite Hv. rewrite !length_app, repeat_length.
    change (List.length [chr_dot; d]) with 2%nat.
    change (List.length [chr_underscore; d]) with 2%nat. lia.
  - intros Hpos Hsmall. rewrite Hv.
    assert (Hsign : sign = []).
    { unfold sign. destruct (Z.ltb_spec (Qnum idx) 0); [lia|reflexivity]. }
    assert (Hlen : (List.length ds <= 3)%nat).
    { apply str_of_N_small.
      assert (tenths idx / 10 < 1000)%Z
        by (apply Z.div_lt_upper_bound; lia).
      assert (0 <= tenths idx / 10)%Z by (apply Z.div_pos; lia). lia. }
    rewrite Hsign. rewrite !length_app, repeat_length.
    change (List.length [chr_dot; d]) with 2%nat.
    change (List.length [chr_underscore; d]) with 2%nat.
    change (List.length (@nil char)) with 0%nat. lia.
Qed.

(** The amended C5 at series "S", index 3.5. *)
Lemma get_file_name_fractional_witness :
  get_file_name (book "F" (Some "S") (Some (7 # 2))) (py "b.epub")
  = sanitize_filename (py "Volume " ++ volume_num (7 # 2) ++ py " - "
                       ++ clean_calibre_title (py "F"))
      ++ suffix (py "b.epub").
Proof.
  refine (proj1 (get_file_name_fractional
                   (book "F" (Some "S") (Some (7 # 2))) (py "b.epub")
                   (py "S") (7 # 2) eq_refl _ eq_refl _)).
  - discriminate.
  - intros n H. unfold Qeq in H. simpl in H. lia.
Defined.

(** C5 as stated fails: the token of 3.5 has 5 characters, not 6; the
    width is not fixed, 1234.5 needs 6; and the name is sanitized, a colon
    in the title becomes an underscore. *)
Lemma get_file_name_fractional_counterexample :
  volume_num (7 # 2) = py "003_5"
  /\ List.length (volume_num (7 # 2)) = 5%nat
  /\ volume_num (12345 # 10) = py "1234_5"
  /\ List.length (volume_num (12345 # 10)) = 6%nat
  /\ get_file_name (book "A:B" (Some "S") (Some (7 # 2))) (py "b.epub")
     = py "Volume 003_5 - A_B.epub".
Proof. repeat split; vm_compute; reflexivity. Qed.

(** ** The success rate in binary64

    The quotient of two counters [0 <= m <= t], [0 < t], is a double below
    4, and 100 times it is a double too: no overflow on either step. *)

Local Open Scope Z_scope.

Ltac pw :=
  first [lia | apply Z.pow_pos_nonneg; lia | apply Z.pow_nonzero; lia].

Lemma digits2_pos_size (p : positive) : digits2_pos p = Pos.size p.
Proof. induction p; simpl; congruence. Qed.

Lemma pow2_pos_exp (z k : Z) : 0 <= z -> z < 2 ^ k -> 0 <= k.
Proof.
  intros Hz Hlt. destruct (Z.lt_ge_cases k 0) as [Hk|Hk]; [|exact Hk].
  rewrite Z.pow_neg_r in Hlt by exact Hk. lia.
Qed.

Lemma Zdigits2_bound (z k : Z) : 0 <= z -> z < 2 ^ k -> Zdigits2 z <= k.
Proof.
  intros Hz Hlt. pose proof (pow2_pos_exp z k Hz Hlt) as Hk.
  destruct z as [|p|p]; [exact Hk| |lia].
  cbn [Zdigits2]. rewrite digits2_pos_size.
  pose proof (Pos.size_le p) as Hs.
  assert (H2 : 2 ^ Zpos (Pos.size p) <= 2 * Zpos p).
  { rewrite <- Pos2Z.inj_pow. change (2 * Zpos p) with (Zpos p~0).
    apply Pos2Z.pos_le_pos. exact Hs. }
  assert (H3 : 2 ^ Zpos (Pos.size p) < 2 ^ (k + 1)).
  { rewrite Z.pow_add_r by lia. lia. }
  apply Z.pow_lt_mono_r_iff in H3; lia.
Qed.

Lemma shr_1_m (mrs : shr_record) :
  0 <= shr_m mrs -> shr_m (shr_1 mrs) = shr_m mrs / 2.
Proof.
  destruct mrs as [m r s]. cbn [shr_m]. intros Hm.
  destruct m as [|p|p]; [reflexivity| |lia].
  destruct p as [p|p|]; cbn [shr_1 shr_m].
  - rewrite <- Z.div2_div. reflexivity.
  - rewrite <- Z.div2_div. reflexivity.
  - reflexivity.
Qed.

Lemma div_pow2_nonneg (m k : Z) : 0 <= m -> 0 <= m / 2 ^ k.
Proof.
  intros Hm. destruct (Z.lt_ge_cases k 0) as [Hk|Hk].
  - rewrite Z.pow_neg_r by exact Hk. rewrite Z.div_0_r. lia.
  - apply Z.div_pos; [exact Hm|]. apply Z.pow_pos_nonneg; lia.
Qed.

Lemma pow2_xO (p : positive) : 2 ^ Zpos p~0 = 2 ^ Zpos p * 2 ^ Zpos p.
Proof. rewrite <- Z.pow_add_r by lia. f_equal. lia. Qed.

Lemma pow2_xI (p : positive) : 2 ^ Zpos p~1 = 2 * (2 ^ Zpos p * 2 ^ Zpos p).
Proof.
  rewrite <- Z.pow_add_r by lia. rewrite <- Z.pow_succ_r by lia. f_equal. lia.
Qed.

Lemma iter_shr_1_m (p : positive) (mrs : shr_record) :
  0 <= shr_m mrs ->
  shr_m (iter_pos shr_1 p mrs) = shr_m mrs / 2 ^ Zpos p.
Proof.
  revert mrs. induction p as [p IH|p IH|]; intros mrs Hm; cbn [iter_pos].
  - assert (H1 : 0 <= shr_m (shr_1 mrs)).
    { rewrite shr_1_m by exact Hm. apply Z.div_pos; lia. }
    assert (H2 : 0 <= shr_m (iter_pos shr_1 p (shr_1 mrs))).
    { rewrite IH by exact H1. apply div_pow2_nonneg. exact H1. }
    rewrite IH by exact H2. rewrite IH by exact H1. rewrite shr_1_m by exact Hm.
    rewrite pow2_xI. rewrite !Z.div_div by pw. f_equal; lia.
  - assert (H2 : 0 <= shr_m (iter_pos shr_1 p mrs)).
    { rewrite IH by exact Hm. apply div_pow2_nonneg. exact Hm. }
    rewrite IH by exact H2. rewrite IH by exact Hm.
    rewrite pow2_xO. rewrite Z.div_div by pw. reflexivity.
  - rewrite shr_1_m by exact Hm. rewrite Z.pow_1_r. reflexivity.
Qed.

Lemma shr_record_of_loc_m (m : Z) (l : location) :
  shr_m (shr_record_of_loc m l) = m.
Proof. destruct l as [|[]]; reflexivity. Qed.

Lemma shr_fexp_spec (m e : Z) (l : location) :
  0 <= m ->
  exists mrs e',
    shr_fexp prec emax m e l = (mrs, e')
    /\ e' = Z.max e (fexp prec emax (Zdigits2 m + e))
    /\ shr_m mrs = m / 2 ^ (e' - e).
Proof.
  intros Hm. unfold shr_fexp, shr.
  destruct (fexp prec emax (Zdigits2 m + e) - e) as [|p|p] eqn:En.
  - eexists _, _. split; [reflexivity|]. split; [lia|].
    rewrite shr_record_of_loc_m. rewrite Z.sub_diag. rewrite Z.pow_0_r.
    rewrite Z.div_1_r. reflexivity.
  - eexists _, _. split; [reflexivity|]. split; [lia|].
    rewrite iter_shr_1_m by (rewrite shr_record_of_loc_m; exact Hm).
    rewrite shr_record_of_loc_m. f_equal. f_equal. lia.
  - eexists _, _. split; [reflexivity|]. split; [lia|].
    rewrite shr_record_of_loc_m. rewrite Z.sub_diag. rewrite Z.pow_0_r.
    rewrite Z.div_1_r. reflexivity.
Qed.

Lemma fexp_eq (x : Z) : fexp prec emax x = Z.max (x - 53) (-1074).
Proof. reflexivity. Qed.

Lemma round_nearest_even_bounds (m : Z) (l : location) :
  m <= round_nearest_even m l <= m + 1.
Proof.
  destruct l as [|[]]; cbn [round_nearest_even]; try lia.
  destruct (Z.even m); lia.
Qed.

(** Shifting to a larger exponent keeps the value below the same power. *)
Lemma shift_bound (m e e' B : Z) :
  0 <= m -> m < 2 ^ (B - e) -> e <= e' -> e' <= B ->
  0 <= m / 2 ^ (e' - e) < 2 ^ (B - e').
Proof.
  intros Hm Hlt He HB. split; [apply div_pow2_nonneg; exact Hm|].
  apply Z.div_lt_upper_bound; [pw|].
  rewrite <- Z.pow_add_r by lia.
  replace (e' - e + (B - e')) with (B - e) by lia. exact Hlt.
Qed.

Lemma bra_bound (s : bool) (mx ex : Z) (lx : location) (B : Z) :
  0 <= mx -> mx < 2 ^ (B - ex) -> ex <= B -> -1021 <= B <= 1023 ->
  ex <= 971 ->
  match binary_round_aux prec emax s mx ex lx with
  | S754_zero _ => True
  | S754_finite _ m e => e <= Z.max ex (B - 52) /\ Zpos m < 2 ^ (B + 1 - e)
  | _ => False
  end.
Proof.
  intros Hm Hlt HexB HB Hex. unfold binary_round_aux.
  destruct (shr_fexp_spec mx ex lx Hm) as (mrs1 & e1 & E1 & He1 & Hm1).
  rewrite E1.
  pose proof (Zdigits2_bound mx (B - ex) Hm Hlt) as Hd.
  rewrite fexp_eq in He1.
  assert (He1B : ex <= e1 <= B) by lia.
  destruct (shift_bound mx ex e1 B Hm Hlt (proj1 He1B) (proj2 He1B))
    as [Hm1a Hm1b].
  rewrite <- Hm1 in Hm1a, Hm1b.
  pose proof (round_nearest_even_bounds (shr_m mrs1) (loc_of_shr_record mrs1))
    as Hq.
  set (q1 := round_nearest_even (shr_m mrs1) (loc_of_shr_record mrs1)) in *.
  assert (Hq0 : 0 <= q1) by lia.
  assert (Hq1 : q1 < 2 ^ (B + 1 - e1)).
  { replace (B + 1 - e1) with (Z.succ (B - e1)) by lia.
    rewrite Z.pow_succ_r by lia.
    assert (0 < 2 ^ (B - e1)) by pw. lia. }
  destruct (shr_fexp_spec q1 e1 loc_Exact Hq0) as (mrs2 & e2 & E2 & He2 & Hm2).
  rewrite E2.
  pose proof (Zdigits2_bound q1 (B + 1 - e1) Hq0 Hq1) as Hd1.
  rewrite fexp_eq in He2.
  assert (He2B : e1 <= e2 <= B + 1) by lia.
  destruct (shift_bound q1 e1 e2 (B + 1) Hq0 Hq1 (proj1 He2B) (proj2 He2B))
    as [Hm2a Hm2b].
  rewrite <- Hm2 in Hm2a, Hm2b.
  destruct (shr_m mrs2) as [|m|m]; [exact I| |lia].
  assert (He971 : e2 <= 971) by lia.
  change (emax - prec) with 971.
  destruct (Z.leb_spec e2 971) as [_|Hbad]; [|lia].
  split; [lia|exact Hm2b].
Qed.

Lemma Zdigits2_gt (p : positive) : Zpos p < 2 ^ Zdigits2 (Zpos p).
Proof.
  cbn [Zdigits2]. rewrite digits2_pos_size. rewrite <- Pos2Z.inj_pow.
  apply Pos2Z.pos_lt_pos. apply Pos.size_gt.
Qed.

Lemma Zdigits2_mono (m t : positive) :
  (m <= t)%positive -> Zdigits2 (Zpos m) <= Zdigits2 (Zpos t).
Proof.
  intros H. apply Zdigits2_bound; [lia|].
  pose proof (Zdigits2_gt t). lia.
Qed.

Lemma ratio_bound (m t : positive) :
  (m <= t)%positive ->
  match SFdiv prec emax (S754_finite false m 0) (S754_finite false t 0) with
  | S754_zero _ => True
  | S754_finite _ mz ez => ez <= -51 /\ Zpos mz < 2 ^ (2 - ez)
  | _ => False
  end.
Proof.
  intros Hmt. pose proof (Zdigits2_mono m t Hmt) as Hd.
  unfold SFdiv, SFdiv_core_binary.
  rewrite !Z.add_0_r. rewrite fexp_eq. change (0 - 0) with 0.
  set (e' := Z.min (Z.max (Zdigits2 (Zpos m) - Zdigits2 (Zpos t) - 53) (-1074))
               0).
  assert (He' : -1074 <= e' <= -53) by (unfold e'; lia).
  replace (0 - e') with (- e') by lia.
  destruct (- e') as [|s|s] eqn:Es; [lia| |lia].
  destruct (Z.div_eucl (Z.shiftl (Zpos m) (Zpos s)) (Zpos t)) as [q r] eqn:Ed.
  assert (Hq : q = Z.shiftl (Zpos m) (Zpos s) / Zpos t)
    by (unfold Z.div; rewrite Ed; reflexivity).
  rewrite Z.shiftl_mul_pow2 in Hq by lia.
  assert (Hpow : 0 < 2 ^ Zpos s) by pw.
  assert (Hq0 : 0 <= q) by (rewrite Hq; apply Z.div_pos; lia).
  assert (Hq1 : q < 2 ^ (1 - e')).
  { replace (1 - e') with (Z.succ (Zpos s)) by lia.
    rewrite Z.pow_succ_r by lia. rewrite Hq.
    apply Z.div_lt_upper_bound; [lia|]. nia. }
  pose proof (bra_bound (xorb false false) q e' (new_location (Zpos t) r) 1
                Hq0 Hq1) as Hb.
  destruct (binary_round_aux prec emax (xorb false false) q e'
              (new_location (Zpos t) r)) as [sz|sz| |sz mz ez].
  - exact I.
  - apply Hb; lia.
  - apply Hb; lia.
  - destruct Hb as [Hb1 Hb2]; try lia. split; [lia|exact Hb2].
Qed.

Lemma product_finite (sx : bool) (mx : positive) (ex : Z) :
  ex <= -51 -> Zpos mx < 2 ^ (2 - ex) ->
  is_finite (SFmul prec emax (S754_finite sx mx ex) (float_of_int 100)) = true.
Proof.
  intros Hex Hmx. cbn [float_of_int SFmul].
  assert (Hlt : Zpos (mx * 100) < 2 ^ (9 - (ex + 0))).
  { replace (9 - (ex + 0)) with (7 + (2 - ex)) by lia.
    rewrite Z.pow_add_r by lia. change (2 ^ 7) with 128.
    rewrite Pos2Z.inj_mul. lia. }
  pose proof (bra_bound (xorb sx false) (Zpos (mx * 100)) (ex + 0) loc_Exact 9
                ltac:(lia) Hlt ltac:(lia) ltac:(lia) ltac:(lia)) as Hb.
  destruct (binary_round_aux prec emax (xorb sx false) (Zpos (mx * 100))
              (ex + 0) loc_Exact); try contradiction; reflexivity.
Qed.

(** The rate of counters that a run can reach is a number. *)
Lemma success_rate_finite (m t : Z) :
  0 <= m <= t -> 0 < t ->
  exists ratio,
    int_truediv m t = Ok ratio
    /\ ratio = SFdiv prec emax (float_of_int m) (float_of_int t)
    /\ is_finite (float_mul_int ratio 100) = true.
Proof.
  intros Hm Ht. unfold int_truediv.
  destruct (Z.eqb_spec t 0) as [E|_]; [lia|].
  destruct t as [|t|t]; [lia| |lia].
  destruct m as [|m|m]; [| |lia].
  - eexists. split; [reflexivity|]. split; reflexivity.
  - assert (Hmt : (m <= t)%positive) by lia.
    pose proof (ratio_bound m t Hmt) as Hb. cbn [float_of_int].
    destruct (SFdiv prec emax (S754_finite false m 0) (S754_finite false t 0))
      as [sz|sz| |sz mz ez]; try contradiction.
    + eexists. split; [reflexivity|]. split; reflexivity.
    + eexists. split; [reflexivity|]. split; [reflexivity|].
      destruct Hb as [Hb1 Hb2]. apply product_finite; assumption.
Qed.

Local Close Scope Z_scope.

(** ** Reasoning about runs *)

Section EngineFacts.

Context {platform : Platform}.

Lemma triple_bind {A B : Type} (P : World -> Prop) (c : Run A)
  (R : A -> World -> Prop) (k : A -> Run B) (Q : B -> World -> Prop)
  (E : World -> Prop) :
  triple P c R E -> (forall a, triple (R a) (k a) Q E) ->
  triple P (bind c k) Q E.
Proof.
  intros Hc Hk w Hw. unfold bind. specialize (Hc w Hw).
  destruct (c w) as [[a|e] w']; [|exact Hc].
  exact (Hk a w' Hc).
Qed.

Lemma triple_try {A : Type} (P : World -> Prop) (body : Run A)
  (handler : str -> Run A) (Q : A -> World -> Prop) (E1 E : World -> Prop) :
  triple P body Q E1 -> (forall e, triple E1 (handler e) Q E) ->
  triple P (try_except body handler) Q E.
Proof.
  intros Hb Hh w Hw. unfold try_except. specialize (Hb w Hw).
  destruct (body w) as [[a|e] w']; [exact Hb|].
  exact (Hh e w' Hb).
Qed.

Lemma triple_weaken {A : Type} (P P' : World -> Prop) (c : Run A)
  (Q Q' : A -> World -> Prop) (E E' : World -> Prop) :
  triple P c Q E ->
  (forall w, P' w -> P w) -> (forall a w, Q a w -> Q' a w) ->
  (forall w, E w -> E' w) ->
  triple P' c Q' E'.
Proof.
  intros H HP HQ HE w Hw. specialize (H w (HP w Hw)).
  destruct (c w) as [[a|e] w']; auto.
Qed.

Lemma triple_for_each {A : Type} (I E : World -> Prop) (l : list A)
  (body : A -> Run unit) :
  (forall x, triple I (body x) (fun _ => I) E) ->
  triple I (for_each l body) (fun _ => I) E.
Proof.
  intros Hb. induction l as [|x l IH].
  - intros w Hw. exact Hw.
  - cbn [for_each]. apply triple_bind with (R := fun _ => I).
    + apply Hb.
    + intros _. exact IH.
Qed.

Lemma preserves_final {A : Type} (I : World -> Prop) (c : Run A) (w : World) :
  preserves I c -> I w -> I (snd (c w)).
Proof.
  intros H Hw. specialize (H w Hw). destruct (c w) as [[a|e] w']; exact H.
Qed.

Lemma keeps_fs_ignores (f0 : FS) :
  ignores_log (keeps_fs f0) /\ ignores_cache (keeps_fs f0)
  /\ ignores_stats (keeps_fs f0).
Proof. repeat split; intros ? ? ? ? ? H; exact H. Qed.

Lemma keeps_stats_ignores (s0 : Stats) :
  ignores_log (keeps_stats s0) /\ ignores_cache (keeps_stats s0)
  /\ ignores_fs (keeps_stats s0).
Proof. repeat split; intros ? ? ? ? ? H; exact H. Qed.

Lemma get_fs_triple (I E : World -> Prop) :
  triple I get_fs (fun _ => I) E.
Proof. intros w H. exact H. Qed.

Lemma get_cache_triple (I E : World -> Prop) :
  triple I get_cache (fun _ => I) E.
Proof. intros w H. exact H. Qed.

Lemma get_stats_triple (I E : World -> Prop) :
  triple I get_stats (fun _ => I) E.
Proof. intros w H. exact H. Qed.

Lemma ret_triple {A : Type} (I E : World -> Prop) (a : A) :
  triple I (ret a) (fun _ => I) E.
Proof. intros w H. exact H. Qed.

Lemma raise_triple {A : Type} (I : World -> Prop) (Q : A -> World -> Prop)
  (e : str) : triple I (raise e) Q I.
Proof. intros w H. exact H. Qed.

Lemma logger_triple (I E : World -> Prop) (l : level) (msg : str) :
  ignores_log I -> triple I (logger l msg) (fun _ => I) E.
Proof. intros HI w H. destruct w. exact (HI _ _ _ _ _ H). Qed.

Lemma set_cache_triple (I E : World -> Prop) (d : dict Metadata) :
  ignores_cache I -> triple I (set_cache d) (fun _ => I) E.
Proof. intros HI w H. destruct w. exact (HI _ _ _ _ _ H). Qed.

Lemma set_stats_triple (I E : World -> Prop) (s : Stats) :
  ignores_stats I -> triple I (set_stats s) (fun _ => I) E.
Proof. intros HI w H. destruct w. exact (HI _ _ _ _ _ H). Qed.

Lemma fs_op_triple (I : World -> Prop) (op : FS -> FS * option str) :
  ignores_fs I -> triple I (fs_op op) (fun _ => I) I.
Proof.
  intros HI w H. destruct w as [f s l d]. unfold fs_op. cbn [fs].
  destruct (op f) as [f' [e|]]; exact (HI _ _ _ _ _ H).
Qed.

Lemma keep_bind {A B : Type} (I E : World -> Prop) (c : Run A)
  (k : A -> Run B) :
  triple I c (fun _ => I) E -> (forall a, triple I (k a) (fun _ => I) E) ->
  triple I (bind c k) (fun _ => I) E.
Proof. intros Hc Hk. eapply triple_bind; [exact Hc|exact Hk]. Qed.

Lemma keep_try {A : Type} (I E : World -> Prop) (body : Run A)
  (handler : str -> Run A) :
  triple I body (fun _ => I) I ->
  (forall e, triple I (handler e) (fun _ => I) E) ->
  triple I (try_except body handler) (fun _ => I) E.
Proof. intros Hb Hh. eapply triple_try; [exact Hb|exact Hh]. Qed.

Lemma keeps_fs_log (f0 : FS) : ignores_log (keeps_fs f0).
Proof. apply keeps_fs_ignores. Qed.

Lemma keeps_fs_cache (f0 : FS) : ignores_cache (keeps_fs f0).
Proof. apply keeps_fs_ignores. Qed.

Lemma keeps_fs_stats (f0 : FS) : ignores_stats (keeps_fs f0).
Proof. apply keeps_fs_ignores. Qed.

Lemma keeps_stats_log (s0 : Stats) : ignores_log (keeps_stats s0).
Proof. apply keeps_stats_ignores. Qed.

Lemma keeps_stats_cache (s0 : Stats) : ignores_cache (keeps_stats s0).
Proof. apply keeps_stats_ignores. Qed.

Lemma keeps_stats_fs (s0 : Stats) : ignores_fs (keeps_stats s0).
Proof. apply keeps_stats_ignores. Qed.

Lemma keeps_balance_log : ignores_log keeps_balance.
Proof. intros ? ? ? ? ? H. exact H. Qed.

Lemma keeps_balance_cache : ignores_cache keeps_balance.
Proof. intros ? ? ? ? ? H. exact H. Qed.

Lemma keeps_balance_fs : ignores_fs keeps_balance.
Proof. intros ? ? ? ? ? H. exact H. Qed.

Lemma keeps_sane_log : ignores_log keeps_sane.
Proof. intros ? ? ? ? ? H. exact H. Qed.

Lemma keeps_sane_cache : ignores_cache keeps_sane.
Proof. intros ? ? ? ? ? H. exact H. Qed.

Lemma keeps_sane_fs : ignores_fs keeps_sane.
Proof. intros ? ? ? ? ? H. exact H. Qed.

Create HintDb ignores.
#[local] Hint Resolve keeps_fs_log keeps_fs_cache keeps_fs_stats
  keeps_stats_log keeps_stats_cache keeps_stats_fs
  keeps_balance_log keeps_balance_cache keeps_balance_fs
  keeps_sane_log keeps_sane_cache keeps_sane_fs : ignores.

(** Walks a computation that keeps an invariant; what it cannot settle is
    left as a goal. *)
Ltac keep :=
  cbv zeta;
  lazymatch goal with
  | |- triple _ (bind _ _) _ _ =>
      apply keep_bind; [keep | intros ?; keep]
  | |- triple _ (try_except _ _) _ _ =>
      apply keep_try; [keep | intros ?; keep]
  | |- triple _ (for_each _ _) _ _ =>
      apply triple_for_each; intros ?; keep
  | |- triple _ (ret _) _ _ => apply ret_triple
  | |- triple _ (raise _) _ _ => apply raise_triple
  | |- triple _ get_fs _ _ => apply get_fs_triple
  | |- triple _ get_cache _ _ => apply get_cache_triple
  | |- triple _ get_stats _ _ => apply get_stats_triple
  | |- triple _ (logger _ _) _ _ =>
      apply logger_triple; solve [auto with ignores]
  | |- triple _ (set_cache _) _ _ =>
      apply set_cache_triple; solve [auto with ignores]
  | |- triple _ (set_stats _) _ _ =>
      apply set_stats_triple; solve [auto with ignores]
  | |- triple _ (fs_op _) _ _ =>
      apply fs_op_triple; solve [auto with ignores]
  | |- triple _ (if ?b then _ else _) _ _ => destruct b; keep
  | |- triple _ (match ?x with _ => _ end) _ _ => destruct x; keep
  | _ => idtac
  end.

(** *** What a dry run leaves alone *)

Lemma incr_total_keeps_fs (f0 : FS) (E : World -> Prop) :
  triple (keeps_fs f0) incr_total (fun _ => keeps_fs f0) E.
Proof. unfold incr_total. keep. Qed.

Lemma incr_migrated_keeps_fs (f0 : FS) (E : World -> Prop) :
  triple (keeps_fs f0) incr_migrated (fun _ => keeps_fs f0) E.
Proof. unfold incr_migrated. keep. Qed.

Lemma incr_skipped_keeps_fs (f0 : FS) (E : World -> Prop) :
  triple (keeps_fs f0) incr_skipped (fun _ => keeps_fs f0) E.
Proof. unfold incr_skipped. keep. Qed.

Lemma validate_paths_dry (self : Migrator) (f0 : FS) (E : World -> Prop) :
  dry_run self = true ->
  triple (keeps_fs f0) (validate_paths self) (fun _ => keeps_fs f0) E.
Proof. intros Hdry. unfold validate_paths. rewrite Hdry. cbn [negb]. keep. Qed.

Lemma load_keeps_fs (self : Migrator) (f0 : FS) (E : World -> Prop) :
  triple (keeps_fs f0) (load_calibre_metadata self) (fun _ => keeps_fs f0) E.
Proof. unfold load_calibre_metadata. keep. Qed.

Lemma get_book_metadata_keeps (I E : World -> Prop) (self : Migrator)
  (book_path : Path) :
  triple I (get_book_metadata self book_path) (fun _ => I) E.
Proof. unfold get_book_metadata. keep. Qed.

Lemma find_ebook_files_keeps (I E : World -> Prop) (book_path : Path) :
  triple I (find_ebook_files book_path) (fun _ => I) E.
Proof. unfold find_ebook_files. keep. Qed.

Lemma migrate_book_dry (self : Migrator) (book_path : Path) (f0 : FS)
  (E : World -> Prop) :
  dry_run self = true ->
  triple (keeps_fs f0) (migrate_book self book_path) (fun _ => keeps_fs f0) E.
Proof.
  intros Hdry. unfold migrate_book. rewrite Hdry. cbn [negb].
  apply keep_bind; [apply get_book_metadata_keeps|]. intros found.
  destruct found as [metadata|].
  - cbv zeta. apply keep_bind; [apply find_ebook_files_keeps|].
    intros ebook_files. destruct ebook_files as [|x l]; keep;
      first [apply incr_skipped_keeps_fs | apply incr_migrated_keeps_fs].
  - keep. apply incr_skipped_keeps_fs.
Qed.

Lemma print_summary_keeps_fs (f0 : FS) :
  preserves (keeps_fs f0) print_summary.
Proof. unfold preserves, print_summary. keep. Qed.

Lemma process_entry_dry (self : Migrator) (author_filter : option str)
  (entry : str * Metadata) (f0 : FS) (E : World -> Prop) :
  dry_run self = true ->
  triple (keeps_fs f0) (process_entry self author_filter entry)
    (fun _ => keeps_fs f0) E.
Proof.
  intros Hdry. unfold process_entry. destruct entry as [path_key metadata].
  keep; [apply incr_total_keeps_fs | apply migrate_book_dry; exact Hdry].
Qed.

Lemma migrate_library_dry (self : Migrator) (author_filter : option str)
  (f0 : FS) :
  dry_run self = true ->
  preserves (keeps_fs f0) (migrate_library self author_filter).
Proof.
  intros Hdry. unfold preserves, migrate_library.
  apply keep_bind; [keep|]. intros _.
  apply keep_bind; [keep|]. intros _.
  apply keep_bind; [apply validate_paths_dry; exact Hdry|]. intros valid.
  destruct (negb valid); [keep|].
  apply keep_bind; [apply load_keeps_fs|]. intros loaded.
  destruct (negb loaded); [keep|].
  apply keep_bind; [keep|]. intros d.
  apply keep_bind.
  - apply triple_for_each. intros entry. apply process_entry_dry. exact Hdry.
  - intros _. apply print_summary_keeps_fs.
Qed.

(** *** The counters *)

Lemma ret_post {A : Type} (P E : World -> Prop) (Q : A -> World -> Prop)
  (a : A) : (forall w, P w -> Q a w) -> triple P (ret a) Q E.
Proof. intros H w Hw. exact (H w Hw). Qed.

Lemma incr_total_stats (s0 : Stats) (E : World -> Prop) :
  triple (keeps_stats s0) incr_total
    (fun _ =>
       keeps_stats {| total_books := total_books s0 + 1;
                      migrated_books := migrated_books s0;
                      skipped_books := skipped_books s0;
                      errors := errors s0 |}) E.
Proof. intros w H. unfold keeps_stats in *. cbn. rewrite H. reflexivity. Qed.

Lemma incr_migrated_stats (s0 : Stats) (E : World -> Prop) :
  triple (keeps_stats s0) incr_migrated
    (fun _ =>
       keeps_stats {| total_books := total_books s0;
                      migrated_books := migrated_books s0 + 1;
                      skipped_books := skipped_books s0;
                      errors := errors s0 |}) E.
Proof. intros w H. unfold keeps_stats in *. cbn. rewrite H. reflexivity. Qed.

Lemma incr_skipped_stats (s0 : Stats) (E : World -> Prop) :
  triple (keeps_stats s0) incr_skipped
    (fun _ =>
       keeps_stats {| total_books := total_books s0;
                      migrated_books := migrated_books s0;
                      skipped_books := skipped_books s0 + 1;
                      errors := errors s0 |}) E.
Proof. intros w H. unfold keeps_stats in *. cbn. rewrite H. reflexivity. Qed.

Lemma incr_errors_stats (s0 : Stats) (E : World -> Prop) :
  triple (keeps_stats s0) incr_errors
    (fun _ =>
       keeps_stats {| total_books := total_books s0;
                      migrated_books := migrated_books s0;
                      skipped_books := skipped_books s0;
                      errors := errors s0 + 1 |}) E.
Proof. intros w H. unfold keeps_stats in *. cbn. rewrite H. reflexivity. Qed.

Lemma copy_ebook_file_keeps_stats (s0 : Stats) (metadata : Metadata)
  (series_path ebook_file : Path) :
  preserves (keeps_stats s0) (copy_ebook_file metadata series_path ebook_file).
Proof. unfold preserves, copy_ebook_file. keep. Qed.

Lemma outcome_migrated (s0 : Stats) (w : World) :
  keeps_stats {| total_books := total_books s0;
                 migrated_books := migrated_books s0 + 1;
                 skipped_books := skipped_books s0;
                 errors := errors s0 |} w ->
  outcome_of s0 w.
Proof.
  unfold keeps_stats, outcome_of, one_outcome. intros H. rewrite H. cbn. auto.
Qed.

Lemma outcome_skipped (s0 : Stats) (w : World) :
  keeps_stats {| total_books := total_books s0;
                 migrated_books := migrated_books s0;
                 skipped_books := skipped_books s0 + 1;
                 errors := errors s0 |} w ->
  outcome_of s0 w.
Proof.
  unfold keeps_stats, outcome_of, one_outcome. intros H. rewrite H. cbn.
  auto 6.
Qed.

Lemma outcome_errors (s0 : Stats) (w : World) :
  keeps_stats {| total_books := total_books s0;
                 migrated_books := migrated_books s0;
                 skipped_books := skipped_books s0;
                 errors := errors s0 + 1 |} w ->
  outcome_of s0 w.
Proof.
  unfold keeps_stats, outcome_of, one_outcome. intros H. rewrite H. cbn.
  auto 6.
Qed.

(** [migrate_book] always returns, and counts exactly one outcome. *)
Lemma migrate_book_outcome (self : Migrator) (book_path : Path) (s0 : Stats) :
  triple (keeps_stats s0) (migrate_book self book_path)
    (fun _ => outcome_of s0) (fun _ => False).
Proof.
  unfold migrate_book.
  eapply triple_bind; [apply get_book_metadata_keeps|]. intros found.
  destruct found as [metadata|].
  - cbv zeta. eapply triple_bind; [apply find_ebook_files_keeps|].
    intros ebook_files. destruct ebook_files as [|x l].
    + eapply triple_bind; [keep|]. intros ?; cbv beta.
      eapply triple_bind; [apply incr_skipped_stats|]. intros ?; cbv beta.
      apply ret_post. apply outcome_skipped.
    + eapply triple_bind; [keep|]. intros ?; cbv beta.
      destruct (negb (dry_run self)).
      * apply triple_try with (E1 := keeps_stats s0).
        -- eapply triple_bind; [keep|]. intros ?; cbv beta.
           eapply triple_bind.
           ++ apply triple_for_each. intros f.
              apply copy_ebook_file_keeps_stats.
           ++ intros ?; cbv beta. eapply triple_bind; [apply incr_migrated_stats|].
              intros ?; cbv beta. apply ret_post. apply outcome_migrated.
        -- intros e. eapply triple_bind; [keep|]. intros ?; cbv beta.
           eapply triple_bind; [apply incr_errors_stats|]. intros ?; cbv beta.
           apply ret_post. apply outcome_errors.
      * eapply triple_bind; [keep|]. intros ?; cbv beta.
        eapply triple_bind; [apply incr_migrated_stats|]. intros ?; cbv beta.
        apply ret_post. apply outcome_migrated.
  - eapply triple_bind; [keep|]. intros ?; cbv beta.
    eapply triple_bind; [apply incr_skipped_stats|]. intros ?; cbv beta.
    apply ret_post. apply outcome_skipped.
Qed.

(** An entry of the index is either passed over or counted once. *)
Lemma process_entry_counts (self : Migrator) (author_filter : option str)
  (entry : str * Metadata) (s0 : Stats) :
  triple (keeps_stats s0) (process_entry self author_filter entry)
    (fun _ w => stats w = s0 \/ counted s0 (stats w)) (fun _ => False).
Proof.
  unfold process_entry. destruct entry as [path_key metadata]. cbv zeta.
  eapply triple_bind; [apply get_fs_triple|]. intros f.
  destruct (negb (path_exists f (joinpath (calibre_path self) path_key))
            || negb (is_dir f (joinpath (calibre_path self) path_key))).
  - eapply triple_weaken
      with (P := keeps_stats s0) (Q := fun _ => keeps_stats s0)
           (E := fun _ => False);
      [apply logger_triple; apply keeps_stats_log|..].
    + intros w H. exact H.
    + intros _ w H. left. exact H.
    + intros w H. exact H.
  - destruct (filtered_out author_filter metadata).
    + apply ret_post. intros w H. left. exact H.
    + eapply triple_bind; [apply incr_total_stats|]. intros ?; cbv beta.
      eapply triple_bind; [apply migrate_book_outcome|]. intros ?; cbv beta.
      apply ret_post. intros w [Ht Ho]. right. split.
      * rewrite Ht. reflexivity.
      * exact Ho.
Qed.

Lemma counted_balanced (s s' : Stats) :
  balanced s -> counted s s' -> balanced s'.
Proof.
  unfold balanced, counted, one_outcome.
  intros Hb [Ht [H|[H|H]]]; destruct H as (Hm & Hs & He); lia.
Qed.

Lemma process_entry_balanced (self : Migrator) (author_filter : option str)
  (entry : str * Metadata) (E : World -> Prop) :
  triple keeps_balance (process_entry self author_filter entry)
    (fun _ => keeps_balance) E.
Proof.
  intros w Hw.
  pose proof (process_entry_counts self author_filter entry (stats w) w
                eq_refl) as H.
  destruct (process_entry self author_filter entry w) as [[a|e] w'];
    [|contradiction].
  unfold keeps_balance in *. destruct H as [H|H].
  - rewrite H. exact Hw.
  - exact (counted_balanced _ _ Hw H).
Qed.

Lemma migrate_library_balanced (self : Migrator) (author_filter : option str) :
  preserves keeps_balance (migrate_library self author_filter).
Proof.
  unfold preserves, migrate_library.
  apply keep_bind; [keep|]. intros _.
  apply keep_bind; [keep|]. intros _.
  apply keep_bind; [unfold validate_paths; keep|]. intros valid.
  destruct (negb valid); [keep|].
  apply keep_bind; [unfold load_calibre_metadata; keep|]. intros loaded.
  destruct (negb loaded); [keep|].
  apply keep_bind; [keep|]. intros d.
  apply keep_bind.
  - apply triple_for_each. intros entry. apply process_entry_balanced.
  - intros _. unfold print_summary. keep.
Qed.

(** *** The summary *)

Lemma print_summary_no_books (w : World) :
  (total_books (stats w) <= 0)%Z ->
  print_summary w = (Ok tt, add_log w (counter_lines (stats w))).
Proof.
  intros Ht. destruct w as [f s l d].
  unfold print_summary, counter_lines, add_log.
  unfold bind, get_stats, logger, ret. cbn [fs stats log metadata_cache] in *.
  destruct (Z.ltb_spec 0 (total_books s)) as [Hpos|_]; [lia|].
  repeat rewrite <- app_assoc. reflexivity.
Qed.

Lemma print_summary_with_rate (w : World) :
  (0 < total_books (stats w))%Z ->
  (0 <= migrated_books (stats w) <= total_books (stats w))%Z ->
  print_summary w
  = (Ok tt, add_log w (counter_lines (stats w) ++ [rate_line (stats w)]))
  /\ is_finite (success_rate (stats w)) = true.
Proof.
  intros Ht Hm. destruct w as [f s l d].
  cbn [fs stats log metadata_cache] in *.
  destruct (success_rate_finite (migrated_books s) (total_books s) Hm Ht)
    as (ratio & Hdiv & Hratio & Hfin).
  split; [|unfold success_rate; rewrite <- Hratio; exact Hfin].
  unfold print_summary, counter_lines, rate_line, success_rate, add_log.
  unfold bind, get_stats, logger, ret. cbn [fs stats log metadata_cache].
  destruct (Z.ltb_spec 0 (total_books s)) as [_|Hle]; [|lia].
  rewrite Hdiv. rewrite Hratio. unfold logger.
  cbn [fs stats log metadata_cache].
  repeat rewrite <- app_assoc. reflexivity.
Qed.

(** Whatever the counters, the summary shows them and never divides by
    zero: it returns, or the quotient is beyond the doubles. *)
Lemma print_summary_outcome (w : World) :
  exists r more,
    print_summary w = (r, add_log w (counter_lines (stats w) ++ more))
    /\ (r = Ok tt
        \/ r = Raise (py "integer division result too large for a float")).
Proof.
  destruct (Z.ltb_spec 0 (total_books (stats w))) as [Hpos|Hle].
  - destruct w as [f s l d]. cbn [fs stats log metadata_cache] in *.
    unfold print_summary, counter_lines, add_log.
    unfold bind, get_stats, logger, ret. cbn [fs stats log metadata_cache].
    destruct (Z.ltb_spec 0 (total_books s)) as [_|Hle]; [|lia].
    unfold int_truediv.
    destruct (Z.eqb_spec (total_books s) 0) as [E|_]; [lia|].
    destruct (SFdiv prec emax (float_of_int (migrated_books s))
                (float_of_int (total_books s))) as [sz|sz| |sz mz ez];
      unfold raise, logger; cbn [fs stats log metadata_cache].
    + eexists _, [_]. split; [|left; reflexivity].
      repeat rewrite <- app_assoc. reflexivity.
    + eexists _, []. split; [|right; reflexivity].
      repeat rewrite <- app_assoc. reflexivity.
    + eexists _, [_]. split; [|left; reflexivity].
      repeat rewrite <- app_assoc. reflexivity.
    + eexists _, [_]. split; [|left; reflexivity].
      repeat rewrite <- app_assoc. reflexivity.
  - exists (Ok tt), []. split; [|left; reflexivity].
    rewrite app_nil_r. apply print_summary_no_books. exact Hle.
Qed.

(** *** A run ends *)

Lemma counted_sane (s s' : Stats) : sane s -> counted s s' -> sane s'.
Proof.
  unfold sane, balanced, counted, one_outcome.
  intros [Hn Hb] [Ht [H|[H|H]]]; destruct H as (Hm & Hs & He);
    repeat split; lia.
Qed.

Lemma process_entry_sane (self : Migrator) (author_filter : option str)
  (entry : str * Metadata) (E : World -> Prop) :
  triple keeps_sane (process_entry self author_filter entry)
    (fun _ => keeps_sane) E.
Proof.
  intros w Hw.
  pose proof (process_entry_counts self author_filter entry (stats w) w
                eq_refl) as H.
  destruct (process_entry self author_filter entry w) as [[a|e] w'];
    [|contradiction].
  unfold keeps_sane in *. destruct H as [H|H].
  - rewrite H. exact Hw.
  - exact (counted_sane _ _ Hw H).
Qed.

Lemma print_summary_sane (E : World -> Prop) :
  triple keeps_sane print_summary (fun _ => keeps_sane) E.
Proof.
  intros w Hw. unfold keeps_sane in *.
  destruct Hw as [(Hm & Hs & He) Hb]. unfold balanced in Hb.
  destruct (Z.ltb_spec 0 (total_books (stats w))) as [Hpos|Hle].
  - destruct (print_summary_with_rate w Hpos) as [Hrun _]; [lia|].
    rewrite Hrun. cbn. repeat split; assumption.
  - rewrite (print_summary_no_books w Hle). cbn. repeat split; assumption.
Qed.

(** [validate_paths] raises only when creating the destination root
    fails. *)
Lemma validate_paths_sane (self : Migrator) (f : FS) :
  triple (fun w => keeps_sane w /\ fs w = f) (validate_paths self)
    (fun _ => keeps_sane)
    (fun w =>
       keeps_sane w /\ dry_run self = false
       /\ exists f' e, mkdir f (komga_path self) = (f', Some e)).
Proof.
  intros w [Hw Hf]. destruct w as [f0 s l d].
  cbn [fs] in Hf. subst f0.
  unfold validate_paths, bind, get_fs, logger, ret.
  cbn [fs stats log metadata_cache].
  destruct (negb (path_exists f (calibre_path self))); [exact Hw|].
  destruct (negb (is_dir f (calibre_path self))); [exact Hw|].
  destruct (negb (path_exists f (metadata_db_path self))); [exact Hw|].
  destruct (dry_run self) eqn:Hdry; cbn [negb]; [exact Hw|].
  unfold fs_op. cbn [fs stats log metadata_cache].
  destruct (mkdir f (komga_path self)) as [f' [e|]] eqn:Hmk.
  - split; [exact Hw|]. split; [reflexivity|]. exists f', e. reflexivity.
  - exact Hw.
Qed.

(** A run that starts with sane counters returns, with sane counters,
    unless the destination root cannot be created. *)
Lemma migrate_library_completes (self : Migrator)
  (author_filter : option str) (f : FS) :
  triple (fun w => keeps_sane w /\ fs w = f)
    (migrate_library self author_filter)
    (fun _ => keeps_sane)
    (fun w =>
       keeps_sane w /\ dry_run self = false
       /\ exists f' e, mkdir f (komga_path self) = (f', Some e)).
Proof.
  unfold migrate_library.
  eapply triple_bind
    with (R := fun _ w => keeps_sane w /\ fs w = f).
  { intros w H. destruct w. exact H. }
  intros ?; cbv beta.
  eapply triple_bind
    with (R := fun _ w => keeps_sane w /\ fs w = f).
  { intros w H. destruct w. exact H. }
  intros ?; cbv beta.
  eapply triple_bind; [apply validate_paths_sane|]. intros valid; cbv beta.
  destruct (negb valid); [keep|].
  apply keep_bind; [unfold load_calibre_metadata; keep|]. intros loaded.
  destruct (negb loaded); [keep|].
  apply keep_bind; [keep|]. intros d.
  apply keep_bind.
  - apply triple_for_each. intros entry. apply process_entry_sane.
  - intros _. apply print_summary_sane.
Qed.

(** *** Entries the loop passes over *)

Lemma process_entry_missing (self : Migrator) (author_filter : option str)
  (path_key : str) (metadata : Metadata) (w : World) :
  path_exists (fs w) (joinpath (calibre_path self) path_key) = false
  \/ is_dir (fs w) (joinpath (calibre_path self) path_key) = false ->
  process_entry self author_filter (path_key, metadata) w
  = (Ok tt, add_log w [missing_record self path_key]).
Proof.
  intros H. unfold process_entry, bind, get_fs.
  assert (E : negb (path_exists (fs w)
                      (joinpath (calibre_path self) path_key))
              || negb (is_dir (fs w)
                         (joinpath (calibre_path self) path_key)) = true).
  { destruct H as [-> | ->]; [reflexivity | apply orb_true_r]. }
  rewrite E. reflexivity.
Qed.

Lemma process_entry_filtered (self : Migrator) (author_filter : option str)
  (path_key : str) (metadata : Metadata) (w : World) :
  filtered_out author_filter metadata = true ->
  exists w',
    process_entry self author_filter (path_key, metadata) w = (Ok tt, w')
    /\ stats w' = stats w /\ fs w' = fs w
    /\ metadata_cache w' = metadata_cache w.
Proof.
  intros H. unfold process_entry, bind, get_fs. rewrite H.
  destruct (negb (path_exists (fs w)
                    (joinpath (calibre_path self) path_key))
            || negb (is_dir (fs w) (joinpath (calibre_path self) path_key))).
  - eexists. split; [reflexivity|]. repeat split.
  - exists w. repeat split.
Qed.

Lemma process_entry_unfiltered (self : Migrator) (author_filter : option str)
  (path_key : str) (metadata : Metadata) (w : World) :
  filtered_out author_filter metadata = false ->
  process_entry self author_filter (path_key, metadata) w
  = process_entry self None (path_key, metadata) w.
Proof.
  intros H. unfold process_entry, bind, get_fs. rewrite H. reflexivity.
Qed.

(** *** What a book writes to the log *)

Lemma add_log_nil (w : World) : add_log w [] = w.
Proof. destruct w. unfold add_log. cbn. rewrite app_nil_r. reflexivity. Qed.

Lemma add_log_app (w : World) (l1 l2 : list LogRecord) :
  add_log (add_log w l1) l2 = add_log w (l1 ++ l2).
Proof. unfold add_log. cbn. rewrite <- app_assoc. reflexivity. Qed.

Lemma logger_eq (l : level) (msg : str) (w : World) :
  logger l msg w = (Ok tt, add_log w [(l, msg)]).
Proof. reflexivity. Qed.

Lemma for_each_logger {A : Type} (items : list A) (rec : A -> LogRecord)
  (w : World) :
  for_each items (fun x => logger (fst (rec x)) (snd (rec x))) w
  = (Ok tt, add_log w (map rec items)).
Proof.
  revert w. induction items as [|x items IH]; intros w.
  - cbn. rewrite add_log_nil. reflexivity.
  - cbn [for_each map]. unfold bind at 1. rewrite logger_eq. rewrite IH.
    rewrite add_log_app. destruct (rec x). reflexivity.
Qed.

(** The log of a dry run of one book. *)
Lemma migrate_book_dry_log (self : Migrator) (book_path : Path)
  (metadata : Metadata) (files : list Path) (w : World) :
  dry_run self = true ->
  get_book_metadata self book_path w = (Ok (Some metadata), w) ->
  find_ebook_files book_path w = (Ok files, w) ->
  files <> [] ->
  exists w',
    migrate_book self book_path w = (Ok true, w')
    /\ fs w' = fs w
    /\ log w'
       = log w
         ++ migrating_record metadata
            :: map (would_create_record metadata
                      (joinpath (komga_path self)
                         (get_series_folder_name metadata)))
                 files.
Proof.
  intros Hdry Hmd Hfiles Hne. unfold migrate_book.
  unfold bind at 1. rewrite Hmd. cbv zeta. unfold bind at 1. rewrite Hfiles.
  destruct files as [|x l]; [contradiction|].
  rewrite Hdry. cbn [negb]. unfold bind at 1. rewrite logger_eq.
  unfold bind at 1.
  rewrite (for_each_logger (x :: l)
             (would_create_record metadata
                (joinpath (komga_path self)
                   (get_series_folder_name metadata)))).
  eexists. split; [reflexivity|]. split; [reflexivity|].
  cbn [log add_log]. rewrite <- app_assoc. reflexivity.
Qed.

(** The copy loop: the files are visited in order; each is copied or passed
    over because its destination is there, until an operation raises. *)
Lemma copy_loop (metadata : Metadata) (series_path : Path)
  (files : list Path) (w : World) :
  exists flags r w',
    for_each files (copy_ebook_file metadata series_path) w = (r, w')
    /\ (List.length flags <= List.length files)%nat
    /\ log w'
       = log w ++ map (copy_record metadata series_path) (combine flags files)
    /\ stats w' = stats w
    /\ match r with
       | Ok _ => List.length flags = List.length files
       | Raise _ => (List.length flags < List.length files)%nat
       end.
Proof.
  revert w. induction files as [|x files IH]; intros w.
  - exists [], (Ok tt), w. cbn. rewrite app_nil_r. repeat split; lia.
  - cbn [for_each]. unfold bind at 1. unfold copy_ebook_file at 1.
    cbv zeta. unfold bind at 1, get_fs at 1.
    destruct (path_exists (fs w) (dest_file metadata series_path x)) eqn:Hex.
    + rewrite logger_eq. cbv beta iota.
      destruct (IH (add_log w
                      [(WARNING,
                        py "File already exists, skipping: "
                        ++ path_str (dest_file metadata series_path x))]))
        as (flags & r & w' & Hrun & Hlen & Hlog & Hst & Hr).
      exists (false :: flags), r, w'.
      split; [exact Hrun|]. split; [cbn; lia|].
      split; [|split].
      * rewrite Hlog. cbn [log add_log combine map copy_record].
        rewrite <- app_assoc. reflexivity.
      * rewrite Hst. reflexivity.
      * destruct r; cbn [List.length]; lia.
    + unfold bind at 1, fs_op at 1.
      destruct (copy2 (fs w) x (dest_file metadata series_path x))
        as [f' [e|]] eqn:Hcopy.
      * exists [], (Raise e). eexists. split; [reflexivity|].
        cbn. rewrite app_nil_r. repeat split; lia.
      * rewrite logger_eq. cbv beta iota.
        match goal with
        | |- context [for_each files _ ?w1] =>
            destruct (IH w1)
              as (flags & r & w' & Hrun & Hlen & Hlog & Hst & Hr)
        end.
        exists (true :: flags), r, w'.
        split; [exact Hrun|]. split; [cbn; lia|].
        split; [|split].
        -- rewrite Hlog. cbn [log add_log combine map copy_record].
           rewrite <- app_assoc. reflexivity.
        -- rewrite Hst. reflexivity.
        -- destruct r; cbn [List.length]; lia.
Qed.

(** The log of a real run of one book. *)
Lemma migrate_book_real_log (self : Migrator) (book_path : Path)
  (metadata : Metadata) (files : list Path) (w : World) :
  dry_run self = false ->
  get_book_metadata self book_path w = (Ok (Some metadata), w) ->
  find_ebook_files book_path w = (Ok files, w) ->
  files <> [] ->
  exists flags closing r w',
    migrate_book self book_path w = (Ok r, w')
    /\ (List.length flags <= List.length files)%nat
    /\ log w'
       = log w
         ++ migrating_record metadata
            :: map (copy_record metadata
                      (joinpath (komga_path self)
                         (get_series_folder_name metadata)))
                 (combine flags files)
         ++ closing
    /\ ((r = true /\ closing = []
         /\ List.length flags = List.length files)
        \/ (r = false
            /\ exists e,
                 closing = [(ERROR, py "Error migrating "
                                    ++ path_str book_path ++ py ": " ++ e)])).
Proof.
  intros Hdry Hmd Hfiles Hne. unfold migrate_book.
  unfold bind at 1. rewrite Hmd. cbv zeta. unfold bind at 1. rewrite Hfiles.
  destruct files as [|x l]; [contradiction|].
  rewrite Hdry. cbn [negb]. unfold bind at 1. rewrite logger_eq.
  set (sp := joinpath (komga_path self) (get_series_folder_name metadata)).
  set (w1 := add_log w _).
  unfold try_except. unfold bind at 1, fs_op at 1.
  destruct (mkdir (fs w1) sp) as [f' [e|]] eqn:Hmk.
  - exists [], [(ERROR, py "Error migrating " ++ path_str book_path
                        ++ py ": " ++ e)], false.
    eexists. split; [reflexivity|]. split; [cbn; lia|]. split.
    + cbn. rewrite <- app_assoc. reflexivity.
    + right. split; [reflexivity|]. exists e. reflexivity.
  - unfold bind at 1.
    match goal with
    | |- context [for_each (x :: l) _ ?w2] =>
        destruct (copy_loop metadata sp (x :: l) w2)
          as (flags & r & w' & Hrun & Hlen & Hlog & Hst & Hr)
    end.
    rewrite Hrun. destruct r as [[]|e].
    + exists flags, [], true. eexists. split; [reflexivity|].
      split; [exact Hlen|]. split.
      * cbn [log]. rewrite Hlog. cbn [log add_log w1].
        rewrite app_nil_r. rewrite <- app_assoc. reflexivity.
      * left. repeat split. exact Hr.
    + exists flags, [(ERROR, py "Error migrating " ++ path_str book_path
                             ++ py ": " ++ e)], false.
      eexists. split; [reflexivity|]. split; [exact Hlen|]. split.
      * cbn [log]. rewrite Hlog. cbn [log add_log w1].
        repeat rewrite <- app_assoc. reflexivity.
      * right. split; [reflexivity|]. exists e. reflexivity.
Qed.

End EngineFacts.

(** ** The claims about runs *)

(** C6 (as amended). A book of the index whose source directory is missing
    or is not a directory is passed over: a warning is logged, no exception
    is raised, and no counter changes, neither the total nor the skipped
    one; the file system and the index stay as they are. *)
Theorem missing_directory_passed_over {platform : Platform}
  (self : Migrator) (author_filter : option str) (path_key : str)
  (metadata : Metadata) (w : World) :
  path_exists (fs w) (joinpath (calibre_path self) path_key) = false
  \/ is_dir (fs w) (joinpath (calibre_path self) path_key) = false ->
  exists w',
    process_entry self author_filter (path_key, metadata) w = (Ok tt, w')
    /\ log w' = log w ++ [missing_record self path_key]
    /\ stats w' = stats w
    /\ fs w' = fs w
    /\ metadata_cache w' = metadata_cache w.
Proof.
  intros H. exists (add_log w [missing_record self path_key]).
  split; [apply process_entry_missing; exact H|]. repeat split.
Qed.

(** The amended C6 on the library whose only book has no directory. *)
Lemma missing_directory_witness :
  exists w',
    process_entry (Toy.migrator false) None
      (py "Frank Herbert/Dune (2)", book "Dune" None (Some 1%Q))
      (Toy.start Toy.missing_dir) = (Ok tt, w')
    /\ log w' = [(WARNING,
                  py "Book path does not exist: lib/Frank Herbert/Dune (2)")]
    /\ stats w' = init_stats
    /\ fs w' = Toy.missing_dir
    /\ metadata_cache w' = [].
Proof.
  apply (@missing_directory_passed_over Toy.platform (Toy.migrator false) None
           (py "Frank Herbert/Dune (2)") (book "Dune" None (Some 1%Q))
           (Toy.start Toy.missing_dir)).
  left. vm_compute. reflexivity.
Defined.

(** C6 as stated fails: after a run over an index of one book whose
    directory is missing, the skipped counter and the total are 0. *)
Lemma missing_directory_counterexample :
  map fst (metadata_cache (Toy.run false None Toy.missing_dir))
  = [py "Frank Herbert/Dune (2)"]
  /\ stats (Toy.run false None Toy.missing_dir)
     = {| total_books := 0; migrated_books := 0; skipped_books := 0;
          errors := 0 |}
  /\ log (Toy.run false None Toy.missing_dir)
     = [(INFO, py "Starting migration from lib to out");
        (INFO, py "Dry run: False");
        (INFO, py "Loaded metadata for 1 books from Calibre database");
        (WARNING, py "Book path does not exist: lib/Frank Herbert/Dune (2)");
        (INFO, py "Migration Summary:");
        (INFO, py "  Total books found: 0");
        (INFO, py "  Books migrated: 0");
        (INFO, py "  Books skipped: 0");
        (INFO, py "  Errors: 0")].
Proof. repeat split; vm_compute; reflexivity. Qed.




(** C8. With an author filter, a book whose author does not contain the
    filter, case ignored, is passed over and no counter changes; a book
    whose author contains it is processed as without a filter. Of two books
    by different authors and a filter that matches one, one is counted in
    the total and as migrated, the other in no counter. *)
Theorem author_filter_spec :
  (forall (platform : Platform) (self : Migrator) (filter path_key : str)
          (metadata : Metadata) (w : World),
      filter <> [] ->
      (contains (lower filter) (lower (author metadata)) = false ->
       exists w',
         process_entry self (Some filter) (path_key, metadata) w = (Ok tt, w')
         /\ stats w' = stats w /\ fs w' = fs w)
      /\ (contains (lower filter) (lower (author metadata)) = true ->
          process_entry self (Some filter) (path_key, metadata) w
          = process_entry self None (path_key, metadata) w))
  /\ stats (Toy.run false (Some (py "ASIMOV")) Toy.two_books)
     = {| total_books := 1; migrated_books := 1; skipped_books := 0;
          errors := 0 |}
  /\ map fst (fs (Toy.run false (Some (py "ASIMOV")) Toy.two_books))
     = map fst Toy.two_books
       ++ [py "out"; py "out/Isaac Asimov";
           py "out/Isaac Asimov/Foundation.epub"]
  /\ stats (Toy.run false None Toy.two_books)
     = {| total_books := 2; migrated_books := 2; skipped_books := 0;
          errors := 0 |}.
Proof.
  split; [|repeat split; vm_compute; reflexivity].
  intros platform self filter path_key metadata w Hne.
  destruct filter as [|c a]; [contradiction|]. split; intros H.
  - destruct (process_entry_filtered self (Some (c :: a)) path_key metadata w)
      as (w' & Hrun & Hst & Hfs & _).
    + cbn [filtered_out]. rewrite H. reflexivity.
    + exists w'. repeat split; assumption.
  - apply process_entry_unfiltered. cbn [filtered_out]. rewrite H.
    reflexivity.
Qed.

(** C8 on the library of two books and the filter [asimov]: the book by
    Frank Herbert is passed over, the book by Isaac Asimov is processed as
    without a filter. *)
Lemma author_filter_spec_witness :
  (exists w',
      process_entry (Toy.migrator false) (Some (py "asimov"))
        (py "Frank Herbert/Dune (2)", Toy.dune)
        (Toy.loaded Toy.two_books) = (Ok tt, w')
      /\ stats w' = stats (Toy.loaded Toy.two_books)
      /\ fs w' = fs (Toy.loaded Toy.two_books))
  /\ process_entry (Toy.migrator false) (Some (py "asimov"))
       (py "Isaac Asimov/Foundation (1)",
        book "Foundation (84)" None (Some 1%Q))
       (Toy.loaded Toy.two_books)
     = process_entry (Toy.migrator false) None
         (py "Isaac Asimov/Foundation (1)",
          book "Foundation (84)" None (Some 1%Q))
         (Toy.loaded Toy.two_books).
Proof.
  split.
  - refine (proj1 (proj1 author_filter_spec Toy.platform (Toy.migrator false)
                     (py "asimov") (py "Frank Herbert/Dune (2)") Toy.dune
                     (Toy.loaded Toy.two_books) _) _).
    + discriminate.
    + vm_compute. reflexivity.
  - refine (proj2 (proj1 author_filter_spec Toy.platform (Toy.migrator false)
                     (py "asimov") (py "Isaac Asimov/Foundation (1)")
                     (book "Foundation (84)" None (Some 1%Q))
                     (Toy.loaded Toy.two_books) _) _).
    + discriminate.
    + vm_compute. reflexivity.
Defined.

Lemma format_float_1f_shape (x : spec_float) :
  is_finite x = true ->
  exists sign ds d,
    format_float_1f x = sign ++ ds ++ [chr_dot; d]
    /\ (sign = [] \/ sign = [chr_minus])
    /\ ds <> [] /\ Forall is_ascii_digit ds /\ is_ascii_digit d.
Proof.
  intros H. destruct x as [s|s| |s m e]; try discriminate.
  - exists (if s then [chr_minus] else []), [chr_zero], chr_zero.
    split; [destruct s; reflexivity|].
    split; [destruct s; auto|]. split; [discriminate|].
    split; [repeat constructor|]; unfold is_ascii_digit, chr_zero; lia.
  - cbn [format_float_1f]. rewrite format_1f_eq.
    eexists _, _, _. split; [reflexivity|].
    split; [destruct (Qnum (float_value s m e) <? 0)%Z; auto|].
    split; [apply str_of_N_nonempty|]. split; [apply str_of_N_digits|].
    unfold is_ascii_digit, chr_zero.
    pose proof (Z.mod_pos_bound (tenths (float_value s m e)) 10). lia.
Qed.

(** C9. [print_summary] always logs the four counters. When the total is
    positive (and the counters are those of a run, migrated between 0 and
    the total) it returns and adds the success rate, the double
    migrated / total * 100 in the format [.1f], a number with one digit
    behind the point; when the total is zero it returns, adds nothing and
    divides nothing. Whatever the counters, it never divides by zero. *)
Theorem print_summary_report :
  (forall (platform : Platform) (w : World),
      (total_books (stats w) <= 0)%Z ->
      print_summary w = (Ok tt, add_log w (counter_lines (stats w))))
  /\ (forall (platform : Platform) (w : World),
         (0 < total_books (stats w))%Z ->
         (0 <= migrated_books (stats w) <= total_books (stats w))%Z ->
         print_summary w
         = (Ok tt,
            add_log w (counter_lines (stats w) ++ [rate_line (stats w)]))
         /\ exists sign ds d,
              format_float_1f (success_rate (stats w))
              = sign ++ ds ++ [chr_dot; d]
              /\ (sign = [] \/ sign = [chr_minus])
              /\ ds <> [] /\ Forall is_ascii_digit ds /\ is_ascii_digit d)
  /\ (forall (platform : Platform) (w : World),
         exists r more,
           print_summary w
           = (r, add_log w (counter_lines (stats w) ++ more))
           /\ (r = Ok tt
               \/ r = Raise
                        (py "integer division result too large for a float")))
  /\ rate_line {| total_books := 3; migrated_books := 1;
                  skipped_books := 1; errors := 1 |}
     = (INFO, py "  Success rate: 33.3%")
  /\ rate_line {| total_books := 2000; migrated_books := 1;
                  skipped_books := 1999; errors := 0 |}
     = (INFO, py "  Success rate: 0.1%")
  /\ counter_lines init_stats
     = [(INFO, py "Migration Summary:");
        (INFO, py "  Total books found: 0");
        (INFO, py "  Books migrated: 0");
        (INFO, py "  Books skipped: 0");
        (INFO, py "  Errors: 0")].
Proof.
  split; [intros platform; exact print_summary_no_books|].
  split.
  { intros platform w Ht Hm.
    destruct (print_summary_with_rate w Ht Hm) as [Hrun Hfin].
    split; [exact Hrun|]. apply format_float_1f_shape. exact Hfin. }
  split; [intros platform; exact print_summary_outcome|].
  repeat split; vm_compute; reflexivity.
Qed.

(** C9 on the counters 3, 1, 1, 1. *)
Lemma print_summary_report_witness :
  print_summary
    {| fs := Toy.two_books;
       stats := {| total_books := 3; migrated_books := 1;
                   skipped_books := 1; errors := 1 |};
       log := []; metadata_cache := [] |}
  = (Ok tt,
     {| fs := Toy.two_books;
        stats := {| total_books := 3; migrated_books := 1;
                    skipped_books := 1; errors := 1 |};
        log := [(INFO, py "Migration Summary:");
                (INFO, py "  Total books found: 3");
                (INFO, py "  Books migrated: 1");
                (INFO, py "  Books skipped: 1");
                (INFO, py "  Errors: 1");
                (INFO, py "  Success rate: 33.3%")];
        metadata_cache := [] |}).
Proof.
  refine (eq_trans
            (proj1 (proj1 (proj2 print_summary_report) Toy.platform
                      {| fs := Toy.two_books;
                         stats := {| total_books := 3; migrated_books := 1;
                                     skipped_books := 1; errors := 1 |};
                         log := []; metadata_cache := [] |} _ _)) _).
  - reflexivity.
  - cbn. lia.
  - vm_compute. reflexivity.
Defined.



(** * Further properties of the code *)

(** ** Titles that come back unchanged; stacked suffixes *)

Lemma strip_by_length (p : char -> bool) (s : str) :
  (List.length (strip_by p s) <= List.length s)%nat.
Proof.
  unfold strip_by.
  destruct (lstrip_by_split p s) as (a & Ha & _).
  destruct (rstrip_by_split p (lstrip_by p s)) as (b & Hb & _).
  rewrite Ha at 2. rewrite Hb at 2. rewrite !length_app. lia.
Qed.

Lemma cut_shorter (m : str -> bool) (s : str) :
  any_tail m s = true -> m [] = false ->
  (List.length (cut m s) < List.length s)%nat.
Proof.
  intros H H0. induction s as [|c s IH].
  - simpl in H. rewrite H0 in H. discriminate H.
  - cbn [cut any_tail] in *. destruct (m (c :: s)).
    + cbn. lia.
    + cbn [orb] in H. cbn [List.length]. specialize (IH H). lia.
Qed.

Lemma cut_length (m : str -> bool) (s : str) :
  (List.length (cut m s) <= List.length s)%nat.
Proof.
  destruct (cut_prefix m s) as (b & Hb). rewrite Hb at 2.
  rewrite length_app. lia.
Qed.

(** A title that ends with a suffix comes back shorter. *)
Lemma clean_shorter (t : str) :
  ends_with_suffix t ->
  (List.length (clean_calibre_title t) < List.length t)%nat.
Proof.
  intros H. apply ends_with_suffix_decide in H.
  rewrite clean_calibre_title_cut.
  pose proof (cut_shorter is_suffixb t H eq_refl) as H1.
  pose proof (cut_length spaced_suffixb (cut is_suffixb t)) as H2.
  pose proof (strip_by_length is_space
                (cut spaced_suffixb (cut is_suffixb t))) as H3.
  unfold strip. lia.
Qed.

(** X1. [clean_calibre_title] returns the title as it is exactly when the
    title has no white space at either end and does not end with a
    parenthesized run of digits (followed by optional white space). *)
Theorem clean_calibre_title_fixed_points (t : str) :
  clean_calibre_title t = t <-> ~ ends_with_suffix t /\ strip t = t.
Proof.
  split.
  - intros E.
    assert (Hno : ~ ends_with_suffix t).
    { intros H. apply clean_shorter in H. rewrite E in H. lia. }
    split; [exact Hno|]. rewrite <- (clean_without_suffix t Hno). exact E.
  - intros [Hno Hs]. rewrite (clean_without_suffix t Hno). exact Hs.
Qed.

Lemma rstrip_l_app_all (p : char -> bool) (a b : str) :
  forallb p b = true -> rstrip_l p (a ++ b) = rstrip_l p a.
Proof.
  induction b as [|x b IH] using rev_ind; intros H.
  - rewrite app_nil_r. reflexivity.
  - rewrite forallb_app in H. apply andb_prop in H. destruct H as [Hb Hx].
    cbn in Hx. rewrite andb_true_r in Hx.
    rewrite app_assoc, rstrip_l_snoc, Hx. apply IH. exact Hb.
Qed.

(** Where the second pattern cuts a string that ends with white space and a
    suffix. *)
Lemma cut_spaced_suffix (p0 : str) (w : char) (s0 : str) :
  is_space w = true -> is_suffix s0 ->
  cut spaced_suffixb (p0 ++ w :: s0) = rstrip_l is_space p0.
Proof.
  intros Hw Hs.
  assert (Hws : is_suffix (w :: s0)).
  { apply (is_suffix_space_left [w] s0); [|exact Hs].
    cbn [forallb]. rewrite Hw. reflexivity. }
  induction p0 as [|c p IH].
  - cbn [app cut spaced_suffixb rstrip_l]. rewrite Hw.
    rewrite (is_suffixb_complete _ Hs). reflexivity.
  - change ((c :: p) ++ w :: s0) with (c :: p ++ w :: s0).
    cbn [cut spaced_suffixb rstrip_l forallb].
    rewrite (is_suffixb_app p (w :: s0) Hws).
    destruct (is_space c && forallb is_space p); [reflexivity|].
    rewrite IH. reflexivity.
Qed.

(** X2. Of suffixes stacked behind one another the last two are removed and
    no more: when the title ends with a suffix [s] and what precedes it
    ends with a white-space character and a suffix [s0], the result is what
    precedes both, stripped, whatever that is (a third suffix at its end
    stays). *)
Theorem clean_calibre_title_two_suffixes (p0 : str) (w : char) (s0 s : str) :
  is_space w = true -> is_suffix s0 -> is_suffix s ->
  clean_calibre_title (p0 ++ w :: s0 ++ s) = strip p0.
Proof.
  intros Hw Hs0 Hs. rewrite clean_calibre_title_cut.
  change (p0 ++ w :: s0 ++ s) with (p0 ++ (w :: s0) ++ s).
  rewrite app_assoc. rewrite (cut_suffix (p0 ++ w :: s0) s Hs).
  destruct Hs0 as (w1 & ds & w2 & -> & Hw1 & Hne & Hd & Hw2).
  assert (E : p0 ++ w :: w1 ++ chr_lparen :: ds ++ chr_rparen :: w2
              = ((p0 ++ w :: w1 ++ chr_lparen :: ds) ++ [chr_rparen]) ++ w2).
  { repeat (rewrite <- app_assoc; cbn [app]). reflexivity. }
  rewrite E. rewrite (rstrip_l_app_all is_space _ w2 Hw2).
  rewrite rstrip_l_snoc. change (is_space chr_rparen) with false. cbv iota.
  assert (E' : (p0 ++ w :: w1 ++ chr_lparen :: ds) ++ [chr_rparen]
               = p0 ++ w :: (w1 ++ chr_lparen :: ds ++ chr_rparen :: [])).
  { repeat (rewrite <- app_assoc; cbn [app]). reflexivity. }
  rewrite E'. rewrite cut_spaced_suffix.
  - apply strip_rstrip.
  - exact Hw.
  - exists w1, ds, []. repeat split; assumption.
Qed.

(** X2 at the title ["Foo (1) (2) (3)"]: the result is ["Foo (1)"]. *)
Lemma clean_calibre_title_two_suffixes_witness :
  clean_calibre_title (py "Foo (1)" ++ 32 :: py "(2)" ++ py " (3)")
  = strip (py "Foo (1)")
  /\ strip (py "Foo (1)") = py "Foo (1)".
Proof.
  split; [|vm_compute; reflexivity].
  apply clean_calibre_title_two_suffixes.
  - reflexivity.
  - apply is_suffixb_sound. vm_compute. reflexivity.
  - apply is_suffixb_sound. vm_compute. reflexivity.
Defined.

(** ** Names that come back unchanged, names that come back empty *)

Lemma map_valid_id (x : str) :
  (forall c, In c x -> is_invalid c = false) ->
  map (fun c => if is_invalid c then chr_underscore else c) x = x.
Proof.
  intros H. rewrite <- (map_id x) at 2. apply map_ext_in.
  intros c Hc. rewrite (H c Hc). reflexivity.
Qed.

Lemma strip_by_nil_iff (p : char -> bool) (s : str) :
  strip_by p s = [] <-> forallb p s = true.
Proof.
  unfold strip_by. split.
  - intros H. destruct (lstrip_by p s) as [|c r] eqn:Hl.
    + destruct (lstrip_by_split p s) as (a & Ha & Hp).
      rewrite Hl, app_nil_r in Ha. subst a. exact Hp.
    + assert (Hc : p c = false) by (eapply lstrip_by_head; exact Hl).
      destruct (rstrip_by_head p c r Hc) as (r' & Hr).
      rewrite Hr in H. discriminate H.
  - intros H. rewrite <- (app_nil_r s).
    rewrite (lstrip_by_app_all p s [] H). reflexivity.
Qed.

Lemma dot_space_In (c : char) :
  mem_char c (py ". ") = true <-> c = chr_dot \/ c = chr_space.
Proof.
  rewrite mem_char_In. cbn. split.
  - intros [H|[H|[]]]; [left|right]; symmetry; exact H.
  - intros [H|H]; [left|right; left]; symmetry; exact H.
Qed.

(** X3. [sanitize_filename] returns its argument as it is exactly when the
    argument is a safe name already: none of the nine characters, at most
    100 characters, neither a dot nor a space at either end. *)
Theorem sanitize_filename_fixed_points (x : str) :
  sanitize_filename x = x
  <-> (forall c, In c x -> ~ In c invalid_chars)
      /\ (List.length x <= 100)%nat
      /\ (forall c r, x = c :: r -> c <> chr_dot /\ c <> chr_space)
      /\ (forall pre c, x = pre ++ [c] -> c <> chr_dot /\ c <> chr_space).
Proof.
  split.
  - intros E.
    assert (Hv : forall c, In c x -> is_invalid c = false).
    { intros c Hc. rewrite <- E in Hc.
      exact (sanitize_filename_valid x c Hc). }
    assert (Hlen : (List.length x <= 100)%nat).
    { rewrite <- E. apply sanitize_filename_length. }
    assert (Hs : (List.length (stripped_name x) <= 100)%nat).
    { unfold stripped_name, strip_chars. rewrite re_sub_invalid.
      rewrite (map_valid_id x Hv).
      pose proof (strip_by_length (fun c => mem_char c (py ". ")) x). lia. }
    split; [|split; [exact Hlen|split]].
    + intros c Hc Hin. apply mem_char_In in Hin.
      pose proof (Hv c Hc) as H. unfold is_invalid in H. congruence.
    + intros c r Hx. apply not_dot_space.
      apply (sanitize_filename_head x c r). rewrite E. exact Hx.
    + intros pre c Hx. apply not_dot_space.
      apply (sanitize_filename_last x pre c Hs). rewrite E. exact Hx.
  - intros (Hv & Hlen & Hh & Hl).
    assert (Hv' : forall c, In c x -> is_invalid c = false).
    { intros c Hc. unfold is_invalid.
      destruct (mem_char c invalid_chars) eqn:Hm; [|reflexivity].
      exfalso. apply (Hv c Hc). apply mem_char_In. exact Hm. }
    assert (Hs : stripped_name x = x).
    { unfold stripped_name, strip_chars. rewrite re_sub_invalid.
      rewrite (map_valid_id x Hv'). apply strip_by_clean.
      - intros c r Hx. destruct (Hh c r Hx) as [H1 H2].
        destruct (mem_char c (py ". ")) eqn:Hm; [|reflexivity].
        apply dot_space_In in Hm. tauto.
      - intros pre c Hx. destruct (Hl pre c Hx) as [H1 H2].
        destruct (mem_char c (py ". ")) eqn:Hm; [|reflexivity].
        apply dot_space_In in Hm. tauto. }
    rewrite sanitize_filename_short; rewrite Hs; [reflexivity|exact Hlen].
Qed.

Lemma sanitize_filename_nil_iff (x : str) :
  sanitize_filename x = [] <-> stripped_name x = [].
Proof.
  rewrite sanitize_filename_unfold.
  destruct (Nat.ltb_spec 100 (List.length (stripped_name x))) as [H|H];
    [|tauto].
  destruct (stripped_name x) as [|c l]; [tauto|].
  cbn. split; intros E; discriminate E.
Qed.

Lemma stripped_name_nil_iff (x : str) :
  stripped_name x = [] <-> forall c, In c x -> c = chr_dot \/ c = chr_space.
Proof.
  unfold stripped_name, strip_chars.
  rewrite strip_by_nil_iff, re_sub_invalid, forallb_forall. split.
  - intros H c Hc.
    specialize (H (if is_invalid c then chr_underscore else c)
                  (in_map _ x c Hc)).
    destruct (is_invalid c) eqn:Hi.
    + vm_compute in H. discriminate H.
    + apply dot_space_In. exact H.
  - intros H y Hy. apply in_map_iff in Hy. destruct Hy as (c & <- & Hc).
    destruct (H c Hc) as [-> | ->]; vm_compute; reflexivity.
Qed.

(** X4. [sanitize_filename] returns the empty string exactly for the names
    made of dots and spaces only, the empty name among them. *)
Theorem sanitize_filename_empty (x : str) :
  sanitize_filename x = []
  <-> forall c, In c x -> c = chr_dot \/ c = chr_space.
Proof. rewrite sanitize_filename_nil_iff. apply stripped_name_nil_iff. Qed.

(** X5. A second pass of [sanitize_filename] changes the name exactly when
    the first pass left a dot or a space at its end, which only the cut to
    100 characters can do: on a name of at most 100 characters the function
    is idempotent. *)
Theorem sanitize_filename_idempotent_iff (x : str) :
  (sanitize_filename (sanitize_filename x) = sanitize_filename x
   <-> forall pre c, sanitize_filename x = pre ++ [c] ->
                     c <> chr_dot /\ c <> chr_space)
  /\ ((List.length x <= 100)%nat ->
      sanitize_filename (sanitize_filename x) = sanitize_filename x).
Proof.
  set (y := sanitize_filename x).
  assert (Hv : forall c, In c y -> is_invalid c = false)
    by (intros c Hc; exact (sanitize_filename_valid x c Hc)).
  assert (Hy : stripped_name y = strip_chars (py ". ") y).
  { unfold stripped_name. rewrite re_sub_invalid, (map_valid_id y Hv).
    reflexivity. }
  assert (Hlen : (List.length (stripped_name y) <= 100)%nat).
  { rewrite Hy. unfold strip_chars.
    pose proof (strip_by_length (fun c => mem_char c (py ". ")) y).
    pose proof (sanitize_filename_length x). fold y in H0. lia. }
  split.
  - rewrite (sanitize_filename_short y Hlen), Hy. unfold strip_chars. split.
    + intros E pre c Hc. apply not_dot_space.
      apply (strip_by_last (fun c => mem_char c (py ". ")) y pre c).
      rewrite E. exact Hc.
    + intros Hl. apply strip_by_clean.
      * intros c r E. exact (sanitize_filename_head x c r E).
      * intros pre c E. destruct (Hl pre c E) as [H1 H2].
        destruct (mem_char c (py ". ")) eqn:Hm; [|reflexivity].
        apply dot_space_In in Hm. tauto.
  - intros Hx. apply sanitize_filename_idempotent_short.
    unfold stripped_name, strip_chars. rewrite re_sub_invalid.
    pose proof (strip_by_length (fun c => mem_char c (py ". "))
                  (map (fun c => if is_invalid c then chr_underscore else c)
                     x)) as H.
    rewrite length_map in H. lia.
Qed.

(** X5 at the name [" ..a<b>. "]. *)
Lemma sanitize_filename_idempotent_iff_witness :
  sanitize_filename (sanitize_filename (py " ..a<b>. "))
  = sanitize_filename (py " ..a<b>. ").
Proof.
  apply (proj2 (sanitize_filename_idempotent_iff (py " ..a<b>. "))).
  apply Nat.leb_le. vm_compute. reflexivity.
Defined.

(** X6. The folder of a book in a series is never the empty name; the
    folder of a book without series is the empty name exactly when the
    author consists of dots and spaces. *)
Theorem get_series_folder_name_empty (metadata : Metadata) :
  get_series_folder_name metadata = []
  <-> truthy_str (series metadata) = false
      /\ forall c, In c (author metadata) -> c = chr_dot \/ c = chr_space.
Proof.
  unfold get_series_folder_name, truthy_str.
  destruct (series metadata) as [[|c s]|].
  - rewrite sanitize_filename_nil_iff, stripped_name_nil_iff. tauto.
  - rewrite sanitize_filename_nil_iff, stripped_name_nil_iff. split.
    + intros H. exfalso.
      assert (Hin : In chr_minus (author metadata ++ py " - " ++ c :: s)).
      { apply in_or_app. right. cbn. right. left. reflexivity. }
      destruct (H _ Hin) as [E|E]; discriminate E.
    + intros [E _]. discriminate E.
  - rewrite sanitize_filename_nil_iff, stripped_name_nil_iff. tauto.
Qed.

(** ** The volume token of a whole index *)

Lemma str_of_uint_inj (d1 d2 : Decimal.uint) :
  str_of_uint d1 = str_of_uint d2 -> d1 = d2.
Proof.
  revert d2.
  induction d1 as [|d1 IH|d1 IH|d1 IH|d1 IH|d1 IH|d1 IH|d1 IH|d1 IH|d1 IH
                   |d1 IH];
    intros d2; destruct d2; cbn [str_of_uint]; intros H;
    try discriminate H; try reflexivity;
    injection H as H; f_equal; apply IH; exact H.
Qed.

Lemma str_of_uint_zeros (k : nat) (d : Decimal.uint) :
  repeat chr_zero k ++ str_of_uint d = str_of_uint (Nat.iter k Decimal.D0 d).
Proof.
  induction k as [|k IH]; [reflexivity|].
  cbn [repeat app Nat.iter nat_rect str_of_uint]. rewrite IH. reflexivity.
Qed.

Lemma of_uint_zeros (k : nat) (d : Decimal.uint) :
  N.of_uint (Nat.iter k Decimal.D0 d) = N.of_uint d.
Proof.
  induction k as [|k IH]; [reflexivity|]. cbn [Nat.iter nat_rect].
  rewrite <- IH. reflexivity.
Qed.

(** Zeros in front do not change the number the digits denote. *)
Lemma padded_digits_inj (k1 k2 : nat) (a b : N) :
  repeat chr_zero k1 ++ str_of_N a = repeat chr_zero k2 ++ str_of_N b ->
  a = b.
Proof.
  unfold str_of_N. rewrite !str_of_uint_zeros. intros H.
  apply str_of_uint_inj in H.
  apply (f_equal N.of_uint) in H. rewrite !of_uint_zeros in H.
  rewrite !DecimalN.Unsigned.of_to in H. exact H.
Qed.

Lemma str_of_N_head (n : N) :
  exists c s, str_of_N n = c :: s /\ is_ascii_digit c.
Proof.
  pose proof (str_of_N_digits n) as Hd. pose proof (str_of_N_nonempty n) as Hn.
  destruct (str_of_N n) as [|c s]; [contradiction|].
  exists c, s. split; [reflexivity|]. inversion Hd. assumption.
Qed.

(** The token of a whole index: the decimal digits behind zeros, or a minus
    sign and the digits. *)
Lemma zfill_2_str_of_Z (n : Z) :
  (exists k, (0 <= n)%Z
             /\ zfill 2 (str_of_Z n) = repeat chr_zero k ++ str_of_N (Z.to_N n))
  \/ ((n < 0)%Z
      /\ zfill 2 (str_of_Z n) = chr_minus :: str_of_N (Z.to_N (- n))).
Proof.
  destruct n as [|p|p].
  - left. exists 1%nat. split; [lia|]. reflexivity.
  - left. destruct (str_of_N_head (Npos p)) as (c & s & E & Hc).
    exists (2 - List.length (c :: s))%nat. split; [lia|].
    cbn [str_of_Z Z.to_N]. rewrite E. apply zfill_unsigned. exact Hc.
  - right. split; [lia|]. cbn [str_of_Z Z.opp Z.to_N].
    destruct (str_of_N_head (Npos p)) as (c & s & E & _). rewrite E.
    rewrite zfill_minus. reflexivity.
Qed.

Lemma padded_head_digit (k : nat) (n : N) :
  exists c s, repeat chr_zero k ++ str_of_N n = c :: s /\ is_ascii_digit c.
Proof.
  destruct k as [|k].
  - apply str_of_N_head.
  - exists chr_zero, (repeat chr_zero k ++ str_of_N n). split; [reflexivity|].
    unfold is_ascii_digit, chr_zero. lia.
Qed.

Lemma zfill_2_str_of_Z_inj (n m : Z) :
  zfill 2 (str_of_Z n) = zfill 2 (str_of_Z m) -> n = m.
Proof.
  destruct (zfill_2_str_of_Z n) as [(k1 & Hn & ->)|(Hn & ->)];
    destruct (zfill_2_str_of_Z m) as [(k2 & Hm & ->)|(Hm & ->)]; intros H.
  - apply padded_digits_inj in H. lia.
  - exfalso. destruct (padded_head_digit k1 (Z.to_N n)) as (c & s & E & Hc).
    rewrite E in H. injection H as -> _.
    unfold is_ascii_digit, chr_minus in Hc. lia.
  - exfalso. destruct (padded_head_digit k2 (Z.to_N m)) as (c & s & E & Hc).
    rewrite E in H. injection H as <- _.
    unfold is_ascii_digit, chr_minus in Hc. lia.
  - injection H as H. apply (padded_digits_inj 0 0) in H. lia.
Qed.

(** X7. Whole series indices get the same volume number only when they are
    the same number: within a series, two books with different whole
    indices never share a volume number. *)
Theorem volume_num_whole_injective (x y : Q) :
  is_whole x = true -> is_whole y = true ->
  volume_num x = volume_num y -> x == y.
Proof.
  intros Hx Hy. unfold volume_num. rewrite Hx, Hy. intros H.
  apply zfill_2_str_of_Z_inj in H.
  apply Qeq_bool_iff in Hx. apply Qeq_bool_iff in Hy.
  rewrite Hx, Hy, H. reflexivity.
Qed.

(** X7 at two fractions that denote the number 7. *)
Lemma volume_num_whole_injective_witness : (14 # 2 == 7 # 1)%Q.
Proof.
  apply volume_num_whole_injective.
  - reflexivity.
  - reflexivity.
  - vm_compute. reflexivity.
Defined.

(** X8. For a book in a series with a whole index other than 0 the new name
    is [Volume NN - Title] sanitized, with the extension of the original:
    an index from 1 to 9 is written with a zero in front, every other whole
    index as the integer is written, a negative one with its minus sign and
    no zero. *)
Theorem get_file_name_whole_index (md : Metadata) (orig s : str) (idx : Q)
  (n : Z) :
  series md = Some s -> s <> [] -> series_index md = Some idx ->
  idx == inject_Z n -> n <> 0%Z ->
  get_file_name md orig
  = sanitize_filename
      (py "Volume "
       ++ (if (0 <? n)%Z && (n <? 10)%Z then [chr_zero; chr_zero + Z.to_N n]
           else str_of_Z n)
       ++ py " - " ++ clean_calibre_title (title md))
    ++ suffix orig.
Proof.
  intros Hs Hne Hi Hq Hn.
  destruct (get_file_name_whole md orig s idx n Hs Hne Hi Hq Hn)
    as (-> & Hsmall & Hbig).
  assert (E : zfill 2 (str_of_Z n)
              = if (0 <? n)%Z && (n <? 10)%Z
                then [chr_zero; chr_zero + Z.to_N n] else str_of_Z n).
  { destruct (Z.ltb_spec 0 n) as [Hpos|Hneg]; cbn [andb].
    - destruct (Z.ltb_spec n 10) as [Hlt|Hge].
      + apply Hsmall. lia.
      + apply Hbig. exact Hge.
    - destruct n as [|p|p]; [contradiction|lia|].
      cbn [str_of_Z]. destruct (str_of_N_head (Npos p)) as (c & t & E & _).
      rewrite E. reflexivity. }
  rewrite E. reflexivity.
Qed.

(** X8 at the index -3. *)
Lemma get_file_name_whole_index_witness :
  get_file_name (book "Foundation (84)" (Some "Foundation") (Some (-3 # 1)))
    (py "book.epub")
  = py "Volume -3 - Foundation.epub".
Proof.
  rewrite (get_file_name_whole_index
             (book "Foundation (84)" (Some "Foundation") (Some (-3 # 1)))
             (py "book.epub") (py "Foundation") (-3 # 1) (-3)).
  - vm_compute. reflexivity.
  - reflexivity.
  - discriminate.
  - reflexivity.
  - reflexivity.
  - discriminate.
Defined.

(** ** The extension of the new file name *)

Lemma rfind_none (c : char) (s : str) : ~ In c s -> rfind c s = None.
Proof.
  induction s as [|x s IH]; [reflexivity|].
  intros H. cbn [rfind]. rewrite IH.
  - destruct (N.eqb_spec x c) as [E|_]; [|reflexivity].
    exfalso. apply H. left. exact E.
  - intros Hin. apply H. right. exact Hin.
Qed.

Lemma rfind_app (c : char) (a b : str) :
  ~ In c b -> rfind c (a ++ c :: b) = Some (List.length a).
Proof.
  intros Hb. induction a as [|x a IH].
  - cbn [app rfind List.length]. rewrite (rfind_none c b Hb).
    rewrite N.eqb_refl. reflexivity.
  - cbn [app rfind List.length]. rewrite IH. reflexivity.
Qed.

Lemma rfind_not_in (c : char) (s : str) : rfind c s = None -> ~ In c s.
Proof.
  induction s as [|y s IH]; [intros _ []|].
  cbn [rfind]. destruct (rfind c s) as [k|]; [discriminate|].
  destruct (N.eqb_spec y c) as [E|Hne]; [discriminate|].
  intros _ [E|Hin]; [congruence|]. exact (IH eq_refl Hin).
Qed.

Lemma rfind_some (c : char) (s : str) (i : nat) :
  rfind c s = Some i ->
  exists a b, s = a ++ c :: b /\ List.length a = i /\ ~ In c b.
Proof.
  revert i. induction s as [|x s IH]; [discriminate|].
  intros i. cbn [rfind]. destruct (rfind c s) as [j|] eqn:Hj.
  - intros H. injection H as <-.
    destruct (IH j eq_refl) as (a & b & -> & Ha & Hb).
    exists (x :: a), b. repeat split; [cbn; lia|exact Hb].
  - destruct (N.eqb_spec x c) as [->|_]; [|discriminate].
    intros H. injection H as <-. exists [], s. repeat split.
    apply rfind_not_in. exact Hj.
Qed.

(** The suffix of a stem followed by a dot and characters without dot. *)
Lemma suffix_app (stem e : str) :
  e <> [] -> ~ In chr_dot e ->
  suffix (stem ++ chr_dot :: e)
  = match stem with [] => [] | _ :: _ => chr_dot :: e end.
Proof.
  intros Hne Hno. unfold suffix. rewrite (rfind_app chr_dot stem e Hno).
  destruct stem as [|c stem]; [reflexivity|].
  assert (Hlt : (List.length (c :: stem)
                 <? List.length ((c :: stem) ++ chr_dot :: e) - 1)%nat = true).
  { apply Nat.ltb_lt. rewrite length_app. cbn [List.length].
    destruct e; [contradiction|]. cbn [List.length]. lia. }
  rewrite Hlt. rewrite skipn_app, skipn_all, Nat.sub_diag. reflexivity.
Qed.

(** A name has the suffix [.ext] exactly when it is a stem that is not
    empty, a dot and [ext], which is not empty and has no dot. *)
Lemma suffix_iff (name ext : str) :
  suffix name = chr_dot :: ext
  <-> exists stem,
        name = stem ++ chr_dot :: ext
        /\ stem <> [] /\ ext <> [] /\ ~ In chr_dot ext.
Proof.
  split.
  - unfold suffix. destruct (rfind chr_dot name) as [i|] eqn:Hi;
      [|discriminate].
    destruct ((0 <? i)%nat && (i <? List.length name - 1)%nat) eqn:Hc;
      [|discriminate].
    apply andb_prop in Hc. destruct Hc as [Hpos Hlt].
    apply Nat.ltb_lt in Hpos. apply Nat.ltb_lt in Hlt.
    destruct (rfind_some _ _ _ Hi) as (a & b & -> & Ha & Hb). subst i.
    rewrite skipn_app, skipn_all, Nat.sub_diag. cbn [skipn app].
    intros E. injection E as <-. exists a. split; [reflexivity|].
    split; [intros ->; cbn in Hpos; lia|]. split; [|exact Hb].
    intros ->. rewrite length_app in Hlt. cbn in Hlt. lia.
  - intros (stem & -> & Hs & He & Hno). rewrite (suffix_app stem ext He Hno).
    destruct stem; [contradiction|reflexivity].
Qed.

(** A suffix, when there is one, is a dot and at least one character, none
    of them a dot. *)
Lemma suffix_shape (name : str) :
  suffix name = []
  \/ exists e, suffix name = chr_dot :: e /\ e <> [] /\ ~ In chr_dot e.
Proof.
  destruct (suffix name) as [|c e] eqn:E; [left; reflexivity|]. right.
  assert (Hc : c = chr_dot).
  { unfold suffix in E. destruct (rfind chr_dot name) as [i|] eqn:Hi;
      [|discriminate].
    destruct ((0 <? i)%nat && (i <? List.length name - 1)%nat);
      [|discriminate].
    destruct (rfind_some _ _ _ Hi) as (a & b & -> & Ha & Hb). subst i.
    rewrite skipn_app, skipn_all, Nat.sub_diag in E. cbn [skipn app] in E.
    injection E as <- _. reflexivity. }
  subst c. exists e. split; [reflexivity|].
  destruct (proj1 (suffix_iff name e) E) as (stem & _ & _ & He & Hno).
  split; assumption.
Qed.

(** X9. The new name is a safe stem followed by the extension of the
    original file, as it was written. The stem has none of the nine
    characters and at most 100 characters. When the original has an
    extension and the stem is not empty, the new name has that extension;
    when the stem is empty the new name is the bare extension, which
    [pathlib] reads as a name without extension. *)
Theorem get_file_name_extension (metadata : Metadata) (orig : str) :
  exists stem,
    get_file_name metadata orig = stem ++ suffix orig
    /\ (forall c, In c stem -> ~ In c invalid_chars)
    /\ (List.length stem <= 100)%nat
    /\ (suffix orig <> [] ->
        suffix (get_file_name metadata orig)
        = match stem with [] => [] | _ :: _ => suffix orig end).
Proof.
  unfold get_file_name. cbv zeta.
  match goal with
  | |- context [sanitize_filename ?f ++ _] => set (name := f)
  end.
  exists (sanitize_filename name). split; [reflexivity|].
  split; [|split; [apply sanitize_filename_length|]].
  - intros c Hc Hin. apply (sanitize_filename_valid name) in Hc.
    apply mem_char_In in Hin. unfold is_invalid in Hc. congruence.
  - destruct (suffix_shape orig) as [->|(e & -> & Hne & Hno)];
      [contradiction|].
    intros _. apply suffix_app; assumption.
Qed.

(** X9 at a book called Dune and at one whose title is three dots. *)
Lemma get_file_name_extension_witness :
  suffix (get_file_name (book "Dune" None None) (py "dune.EPUB")) = py ".EPUB"
  /\ suffix (get_file_name (book "..." None None) (py "dune.EPUB")) = [].
Proof.
  split.
  - destruct (get_file_name_extension (book "Dune" None None)
                (py "dune.EPUB")) as (stem & E & _ & _ & H).
    rewrite H by (vm_compute; discriminate).
    destruct stem; [vm_compute in E; discriminate E|].
    vm_compute. reflexivity.
  - destruct (get_file_name_extension (book "..." None None)
                (py "dune.EPUB")) as (stem & E & _ & _ & H).
    rewrite H by (vm_compute; discriminate).
    destruct stem as [|c stem]; [reflexivity|]. exfalso.
    apply (f_equal (@List.length char)) in E. rewrite length_app in E.
    change (List.length (get_file_name (book "..." None None)
                           (py "dune.EPUB"))) with 5%nat in E.
    change (List.length (suffix (py "dune.EPUB"))) with 5%nat in E.
    cbn [List.length] in E. lia.
Defined.

(** ** The author of a catalog row *)

Lemma split_on_hd (sep : char) (s : str) :
  forall c, In c (hd [] (split_on sep s)) -> c <> sep.
Proof.
  induction s as [|x s IH]; [intros c []|].
  cbn [split_on]. destruct (N.eqb_spec x sep) as [E|Hne]; [intros c []|].
  destruct (split_on sep s) as [|w ws]; cbn [hd] in *.
  - intros c [<-|[]]. exact Hne.
  - intros c [<-|Hc]; [exact Hne|exact (IH c Hc)].
Qed.

Lemma unknown_author_shape :
  py "Unknown Author" <> []
  /\ ~ In chr_comma (py "Unknown Author")
  /\ (forall c r, py "Unknown Author" = c :: r -> is_space c = false)
  /\ (forall pre c, py "Unknown Author" = pre ++ [c] -> is_space c = false).
Proof.
  split; [discriminate|]. split; [vm_compute; intuition discriminate|].
  split.
  - intros c r E. injection E as <- _. reflexivity.
  - intros pre c E.
    change (py "Unknown Author") with (py "Unknown Autho" ++ [114]) in E.
    apply app_inj_tail in E. destruct E as [_ <-]. reflexivity.
Qed.

(** X10. The author [load_calibre_metadata] stores for a row is never empty,
    holds no comma and has no white space at its ends: it is the text
    [Unknown Author], or the part of the catalog's author before the first
    comma, stripped. *)
Theorem metadata_of_row_author (row : Row) :
  author (metadata_of_row row) <> []
  /\ ~ In chr_comma (author (metadata_of_row row))
  /\ (forall c r, author (metadata_of_row row) = c :: r -> is_space c = false)
  /\ (forall pre c, author (metadata_of_row row) = pre ++ [c] ->
                    is_space c = false)
  /\ (author (metadata_of_row row) = py "Unknown Author"
      \/ exists name,
           row_author_name row = Some name
           /\ author (metadata_of_row row)
              = strip (hd [] (split_on chr_comma name))).
Proof.
  pose proof unknown_author_shape as (U1 & U2 & U3 & U4).
  unfold metadata_of_row. cbn [author].
  destruct (row_author_name row) as [[|c a]|].
  - repeat split; try assumption. left. reflexivity.
  - destruct (strip (hd [] (split_on chr_comma (c :: a)))) as [|y t] eqn:E.
    + repeat split; try assumption. left. reflexivity.
    + split; [discriminate|]. split; [|split; [|split]].
      * intros Hin. rewrite <- E in Hin. apply strip_by_incl in Hin.
        exact (split_on_hd chr_comma (c :: a) _ Hin eq_refl).
      * intros x r E'. rewrite <- E in E'.
        exact (strip_by_head is_space _ x r E').
      * intros pre x E'. rewrite <- E in E'.
        exact (strip_by_last is_space _ pre x E').
      * right. exists (c :: a). split; [reflexivity|]. symmetry. exact E.
  - repeat split; try assumption. left. reflexivity.
Qed.

(** ** Dictionaries *)

Lemma str_eqb_eq (a b : str) : str_eqb a b = true <-> a = b.
Proof.
  revert b. induction a as [|x a IH]; intros [|y b]; cbn [str_eqb];
    try (split; [discriminate|discriminate]); [tauto|].
  rewrite andb_true_iff, N.eqb_eq, IH. split.
  - intros [-> ->]. reflexivity.
  - intros E. injection E as -> ->. split; reflexivity.
Qed.

Lemma str_eqb_refl (a : str) : str_eqb a a = true.
Proof. apply str_eqb_eq. reflexivity. Qed.

Lemma str_eqb_neq (a b : str) : a <> b -> str_eqb a b = false.
Proof.
  intros H. destruct (str_eqb a b) eqn:E; [|reflexivity].
  apply str_eqb_eq in E. contradiction.
Qed.

Lemma mem_str_In (k : str) (l : list str) : mem_str k l = true <-> In k l.
Proof.
  unfold mem_str. rewrite existsb_exists. split.
  - intros (x & Hx & E). apply str_eqb_eq in E. subst x. exact Hx.
  - intros H. exists k. split; [exact H|apply str_eqb_refl].
Qed.

Lemma dict_get_set_same {V : Type} (k : str) (v : V) (d : dict V) :
  dict_get k (dict_set k v d) = Some v.
Proof.
  induction d as [|[k' v'] d IH]; cbn [dict_set dict_get].
  - rewrite str_eqb_refl. reflexivity.
  - destruct (str_eqb k k') eqn:E; cbn [dict_get]; rewrite E;
      [reflexivity|exact IH].
Qed.

Lemma dict_get_set_other {V : Type} (k k' : str) (v : V) (d : dict V) :
  k <> k' -> dict_get k (dict_set k' v d) = dict_get k d.
Proof.
  intros Hne. induction d as [|[k0 v0] d IH]; cbn [dict_set dict_get].
  - rewrite (str_eqb_neq k k' Hne). reflexivity.
  - destruct (str_eqb k' k0) eqn:E; cbn [dict_get].
    + apply str_eqb_eq in E. subst k0.
      rewrite (str_eqb_neq k k' Hne). reflexivity.
    + rewrite IH. reflexivity.
Qed.

(** The keys after [d[k] = v]: a new key goes to the end. *)
Lemma dict_set_keys {V : Type} (k : str) (v : V) (d : dict V) :
  map fst (dict_set k v d)
  = if mem_str k (map fst d) then map fst d else map fst d ++ [k].
Proof.
  induction d as [|[k' v'] d IH]; [reflexivity|].
  cbn [dict_set map fst mem_str existsb].
  change (existsb (str_eqb k) (map fst d)) with (mem_str k (map fst d)).
  destruct (str_eqb k k') eqn:E; cbn [orb map fst]; [reflexivity|].
  rewrite IH. destruct (mem_str k (map fst d)); reflexivity.
Qed.

Lemma dict_set_nodup {V : Type} (k : str) (v : V) (d : dict V) :
  NoDup (map fst d) -> NoDup (map fst (dict_set k v d)).
Proof.
  intros H. rewrite dict_set_keys.
  destruct (mem_str k (map fst d)) eqn:E; [exact H|].
  apply NoDup_app; [exact H|repeat constructor; intros []|].
  intros x Hx [<-|[]]. apply mem_str_In in Hx. congruence.
Qed.

Lemma dict_set_length {V : Type} (k : str) (v : V) (d : dict V) :
  (List.length (dict_set k v d) <= S (List.length d))%nat.
Proof.
  rewrite <- (length_map fst (dict_set k v d)), <- (length_map fst d).
  rewrite dict_set_keys. destruct (mem_str k (map fst d)); [lia|].
  rewrite length_app. cbn. lia.
Qed.

Lemma dict_get_In {V : Type} (k : str) (v : V) (d : dict V) :
  NoDup (map fst d) -> In (k, v) d -> dict_get k d = Some v.
Proof.
  induction d as [|[k' v'] d IH]; [intros _ []|].
  cbn [map fst dict_get]. intros Hnd [E|Hin].
  - injection E as -> ->. rewrite str_eqb_refl. reflexivity.
  - inversion Hnd as [|? ? Hk Hd]; subst.
    rewrite str_eqb_neq; [apply IH; assumption|].
    intros ->. apply Hk. apply (in_map fst) in Hin. exact Hin.
Qed.

Lemma find_unique {A : Type} (key : A -> str) (k : str) (l : list A) (x : A) :
  NoDup (map key l) -> In x l -> key x = k ->
  find (fun y => str_eqb k (key y)) l = Some x.
Proof.
  intros Hnd Hin Hk. induction l as [|y l IH]; [contradiction|].
  cbn [find]. cbn [map] in Hnd. inversion Hnd as [|? ? Hy Hl]; subst.
  destruct Hin as [->|Hin].
  - rewrite str_eqb_refl. reflexivity.
  - rewrite str_eqb_neq; [apply IH; assumption|].
    intros E. apply Hy. rewrite <- E. apply in_map. exact Hin.
Qed.

(** ** The index the rows make *)

Lemma cache_of_rows_snoc (rows : list Row) (row : Row) (d : dict Metadata) :
  cache_of_rows (rows ++ [row]) d
  = dict_set (row_path row) (metadata_of_row row) (cache_of_rows rows d).
Proof. unfold cache_of_rows. rewrite fold_left_app. reflexivity. Qed.

Lemma cache_of_rows_lookup (rows : list Row) (d : dict Metadata) (k : str) :
  dict_get k (cache_of_rows rows d)
  = match find (fun row => str_eqb k (row_path row)) (rev rows) with
    | Some row => Some (metadata_of_row row)
    | None => dict_get k d
    end.
Proof.
  induction rows as [|row rows IH] using rev_ind; [reflexivity|].
  rewrite cache_of_rows_snoc, rev_app_distr. cbn [rev app find].
  destruct (str_eqb k (row_path row)) eqn:E.
  - apply str_eqb_eq in E. subst k. apply dict_get_set_same.
  - rewrite dict_get_set_other; [exact IH|].
    intros ->. rewrite str_eqb_refl in E. discriminate E.
Qed.

Lemma cache_of_rows_nodup (rows : list Row) (d : dict Metadata) :
  NoDup (map fst d) -> NoDup (map fst (cache_of_rows rows d)).
Proof.
  intros H. induction rows as [|row rows IH] using rev_ind; [exact H|].
  rewrite cache_of_rows_snoc. apply dict_set_nodup. exact IH.
Qed.

Lemma cache_of_rows_length (rows : list Row) (d : dict Metadata) :
  (List.length (cache_of_rows rows d) <= List.length d + List.length rows)%nat.
Proof.
  induction rows as [|row rows IH] using rev_ind; [cbn; lia|].
  rewrite cache_of_rows_snoc, length_app.
  pose proof (dict_set_length (row_path row) (metadata_of_row row)
                (cache_of_rows rows d)).
  cbn [List.length]. lia.
Qed.

(** Every key of the index made from the empty one is the path of a row. *)
Lemma cache_of_rows_key (rows : list Row) (k : str) :
  In k (map fst (cache_of_rows rows [])) ->
  exists row, In row rows /\ row_path row = k.
Proof.
  induction rows as [|row rows IH] using rev_ind; [intros []|].
  rewrite cache_of_rows_snoc, dict_set_keys.
  destruct (mem_str (row_path row) (map fst (cache_of_rows rows []))).
  - intros H. destruct (IH H) as (r & Hr & Hk).
    exists r. split; [apply in_or_app; left; exact Hr|exact Hk].
  - intros H. apply in_app_or in H. destruct H as [H|[<-|[]]].
    + destruct (IH H) as (r & Hr & Hk).
      exists r. split; [apply in_or_app; left; exact Hr|exact Hk].
    + exists row. split; [apply in_or_app; right; left|]; reflexivity.
Qed.

(** ** Loading the catalog *)

Section Loading.

Context {platform : Platform}.

Lemma load_loop (rows : list Row) (w : World) :
  for_each rows
    (fun row =>
       d <- get_cache ;;
       set_cache (dict_set (row_path row) (metadata_of_row row) d)) w
  = (Ok tt, {| fs := fs w; stats := stats w; log := log w;
               metadata_cache := cache_of_rows rows (metadata_cache w) |}).
Proof.
  revert w. induction rows as [|row rows IH]; intros w.
  - destruct w. reflexivity.
  - cbn [for_each]. unfold bind at 1. unfold bind at 1.
    unfold get_cache at 1, set_cache at 1. rewrite IH. reflexivity.
Qed.

(** The state after a query that returns. *)
Lemma load_ok (self : Migrator) (w : World) (rows : list Row) :
  fetch_catalog (fs w) (metadata_db_path self) = Ok rows ->
  load_calibre_metadata self w
  = (Ok true,
     {| fs := fs w; stats := stats w;
        log := log w
               ++ [(INFO, py "Loaded metadata for "
                          ++ str_of_N
                               (N.of_nat
                                  (List.length
                                     (cache_of_rows rows (metadata_cache w))))
                          ++ py " books from Calibre database")];
        metadata_cache := cache_of_rows rows (metadata_cache w) |}).
Proof.
  intros Hq. unfold load_calibre_metadata, try_except.
  unfold bind at 1, get_fs at 1. rewrite Hq.
  unfold bind at 1. rewrite load_loop. reflexivity.
Qed.

(** The state after a query that raises. *)
Lemma load_failed (self : Migrator) (w : World) (e : str) :
  fetch_catalog (fs w) (metadata_db_path self) = Raise e ->
  load_calibre_metadata self w
  = (Ok false,
     add_log w [(ERROR, py "Error loading Calibre metadata: " ++ e)]).
Proof.
  intros Hq. unfold load_calibre_metadata, try_except.
  unfold bind at 1, get_fs at 1. rewrite Hq. reflexivity.
Qed.

(** X11. When the query returns, [load_calibre_metadata] returns True and
    changes only the index and the log. A path is then found in the index
    with the record of the last row that has it (a later row replaces an
    earlier one), and a path no row has keeps what it had; the index has at
    most as many entries as it had plus the number of rows; the line added
    to the log gives the size of the index. *)
Theorem load_calibre_metadata_index (self : Migrator) (w : World)
  (rows : list Row) :
  fetch_catalog (fs w) (metadata_db_path self) = Ok rows ->
  exists w',
    load_calibre_metadata self w = (Ok true, w')
    /\ fs w' = fs w /\ stats w' = stats w
    /\ log w'
       = log w
         ++ [(INFO, py "Loaded metadata for "
                    ++ str_of_N (N.of_nat (List.length (metadata_cache w')))
                    ++ py " books from Calibre database")]
    /\ (forall k,
          dict_get k (metadata_cache w')
          = match find (fun row => str_eqb k (row_path row)) (rev rows) with
            | Some row => Some (metadata_of_row row)
            | None => dict_get k (metadata_cache w)
            end)
    /\ (List.length (metadata_cache w')
        <= List.length (metadata_cache w) + List.length rows)%nat.
Proof.
  intros Hq. rewrite (load_ok self w rows Hq).
  eexists. split; [reflexivity|]. cbn [fs stats log metadata_cache].
  repeat split.
  - apply cache_of_rows_lookup.
  - apply cache_of_rows_length.
Qed.

Lemma get_book_metadata_round_trip (self : Migrator) (key : str) (w : World) :
  round_trips self key ->
  get_book_metadata self (joinpath (calibre_path self) key) w
  = (Ok (dict_get key (metadata_cache w)), w).
Proof.
  intros (rel & Hrel & Hkey). unfold get_book_metadata.
  rewrite Hrel, Hkey. reflexivity.
Qed.

(** X12. What [load_calibre_metadata] stores, [get_book_metadata] finds
    again: when the rows have different paths, after the load the directory
    of a row (the library root joined with the path of the row) has the
    record made of that row, provided the path comes back from
    [relative_to] as it went in. *)
Theorem loaded_book_is_found (self : Migrator) (w : World) (rows : list Row)
  (row : Row) :
  fetch_catalog (fs w) (metadata_db_path self) = Ok rows ->
  NoDup (map row_path rows) -> In row rows ->
  round_trips self (row_path row) ->
  exists w',
    load_calibre_metadata self w = (Ok true, w')
    /\ get_book_metadata self (joinpath (calibre_path self) (row_path row)) w'
       = (Ok (Some (metadata_of_row row)), w').
Proof.
  intros Hq Hnd Hin Hrt. rewrite (load_ok self w rows Hq).
  eexists. split; [reflexivity|].
  rewrite (get_book_metadata_round_trip self _ _ Hrt).
  cbn [metadata_cache]. rewrite cache_of_rows_lookup.
  rewrite (find_unique row_path (row_path row) (rev rows) row).
  - reflexivity.
  - rewrite map_rev. apply NoDup_rev. exact Hnd.
  - apply in_rev in Hin. exact Hin.
  - reflexivity.
Qed.

End Loading.

(** X11 on the library of two books. *)
Lemma load_calibre_metadata_index_witness :
  exists w',
    load_calibre_metadata (Toy.migrator true) (Toy.start Toy.two_books)
    = (Ok true, w')
    /\ dict_get (py "Frank Herbert/Dune (2)") (metadata_cache w')
       = Some Toy.dune.
Proof.
  destruct (@load_calibre_metadata_index Toy.platform (Toy.migrator true)
              (Toy.start Toy.two_books) _ eq_refl)
    as (w' & Hrun & _ & _ & _ & Hget & _).
  exists w'. split; [exact Hrun|]. rewrite Hget. reflexivity.
Defined.

(** X12 on the library of two books. *)
Lemma loaded_book_is_found_witness :
  exists w',
    load_calibre_metadata (Toy.migrator false) (Toy.start Toy.two_books)
    = (Ok true, w')
    /\ get_book_metadata (Toy.migrator false)
         (py "lib/Frank Herbert/Dune (2)") w'
       = (Ok (Some Toy.dune), w').
Proof.
  apply (@loaded_book_is_found Toy.platform (Toy.migrator false)
           (Toy.start Toy.two_books)
           [Toy.row 2 "Dune" "Frank Herbert/Dune (2)" "Frank Herbert";
            Toy.row 1 "Foundation (84)" "Isaac Asimov/Foundation (1)"
              "Isaac Asimov"]
           (Toy.row 2 "Dune" "Frank Herbert/Dune (2)" "Frank Herbert")).
  - reflexivity.
  - repeat constructor; cbn; intuition discriminate.
  - left. reflexivity.
  - eexists. split; reflexivity.
Defined.

(** ** The files of a book *)

Section Files.

Context {platform : Platform}.

Lemma find_ebook_files_eq (book_path : Path) (w : World) :
  find_ebook_files book_path w
  = (Ok (filter (is_ebook (fs w)) (iterdir (fs w) book_path)), w).
Proof. reflexivity. Qed.

(** X13. [find_ebook_files] changes nothing and does not raise. With a
    [lower] that leaves the empty string empty, a path is among the files
    it returns exactly when it is an entry of the directory, is a file, and
    its name is a stem that is not empty, a dot and an extension without a
    dot that, put in lower case with the dot, is [.epub] or [.kepub]: a name
    that is only [.epub] is not taken, nor is [book.epub.bak]. *)
Theorem find_ebook_files_spec (book_path : Path) (w : World) :
  lower [] = [] ->
  exists files,
    find_ebook_files book_path w = (Ok files, w)
    /\ forall file_path,
         In file_path files
         <-> In file_path (iterdir (fs w) book_path)
             /\ is_file (fs w) file_path = true
             /\ exists stem ext,
                  path_name file_path = stem ++ chr_dot :: ext
                  /\ stem <> [] /\ ext <> [] /\ ~ In chr_dot ext
                  /\ (lower (chr_dot :: ext) = py ".epub"
                      \/ lower (chr_dot :: ext) = py ".kepub").
Proof.
  intros Hlow. eexists. split; [reflexivity|]. intros p.
  rewrite filter_In. rewrite andb_true_iff.
  assert (Hfmt : forall s,
            mem_str s supported_formats = true
            <-> s = py ".epub" \/ s = py ".kepub").
  { intros s. rewrite mem_str_In. unfold supported_formats. cbn [In].
    split.
    - intros [H|[H|[]]]; [left|right]; symmetry; exact H.
    - intros [H|H]; [left|right; left]; symmetry; exact H. }
  rewrite Hfmt. split.
  - intros (Hin & Hfile & Hs). split; [exact Hin|]. split; [exact Hfile|].
    destruct (suffix_shape (path_name p)) as [E|(ext & E & _ & _)].
    + rewrite E, Hlow in Hs. destruct Hs as [Hs|Hs]; discriminate Hs.
    + destruct (proj1 (suffix_iff _ _) E) as (stem & Hn & H1 & H2 & H3).
      exists stem, ext. rewrite E in Hs. tauto.
  - intros (Hin & Hfile & stem & ext & Hn & H1 & H2 & H3 & Hs).
    split; [exact Hin|]. split; [exact Hfile|].
    assert (E : suffix (path_name p) = chr_dot :: ext).
    { apply suffix_iff. exists stem. tauto. }
    rewrite E. exact Hs.
Qed.

End Files.

(** X13 on the directory of the book by Frank Herbert. *)
Lemma find_ebook_files_spec_witness :
  exists files,
    find_ebook_files (py "lib/Frank Herbert/Dune (2)")
      (Toy.start Toy.two_books) = (Ok files, Toy.start Toy.two_books)
    /\ In (py "lib/Frank Herbert/Dune (2)/dune.kepub") files.
Proof.
  destruct (@find_ebook_files_spec Toy.platform
              (py "lib/Frank Herbert/Dune (2)") (Toy.start Toy.two_books)
              eq_refl) as (files & Hrun & Hin).
  exists files. split; [exact Hrun|]. apply Hin.
  split; [vm_compute; tauto|]. split; [reflexivity|].
  exists (py "dune"), (py "kepub").
  split; [reflexivity|]. split; [discriminate|]. split; [discriminate|].
  split; [vm_compute; intuition discriminate|]. right. reflexivity.
Defined.

(** ** One book *)

Section OneBook.

Context {platform : Platform}.

Lemma keeps_cache_log (d : dict Metadata) : ignores_log (keeps_cache d).
Proof. intros ? ? ? ? ? H. exact H. Qed.

Lemma keeps_cache_fs (d : dict Metadata) : ignores_fs (keeps_cache d).
Proof. intros ? ? ? ? ? H. exact H. Qed.

Lemma get_book_metadata_eq (self : Migrator) (book_path : Path) (w : World) :
  exists found, get_book_metadata self book_path w = (Ok found, w).
Proof.
  unfold get_book_metadata.
  destruct (relative_to book_path (calibre_path self)); eexists; reflexivity.
Qed.

Lemma tally_refl (s : Stats) : tally 0 0 0 0 s s.
Proof. unfold tally. repeat split; lia. Qed.

Lemma tally_trans (t m k e t' m' k' e' : Z) (s1 s2 s3 : Stats) :
  tally t m k e s1 s2 -> tally t' m' k' e' s2 s3 ->
  tally (t + t') (m + m') (k + k') (e + e') s1 s3.
Proof. unfold tally. intros (?&?&?&?) (?&?&?&?). repeat split; lia. Qed.

(** A book that is passed over: one warning, one more skipped book. *)
Lemma skip_book (msg : str) (w : World) :
  exists w',
    (logger WARNING msg ;; incr_skipped ;; ret false) w = (Ok false, w')
    /\ fs w' = fs w /\ metadata_cache w' = metadata_cache w
    /\ log w' = log w ++ [(WARNING, msg)]
    /\ tally 0 0 1 0 (stats w) (stats w').
Proof.
  eexists. split; [reflexivity|]. cbn. unfold tally. cbn.
  repeat split; lia.
Qed.

(** The copy loop leaves the counters and the index alone. *)
Lemma copy_loop_frame (metadata : Metadata) (series_path : Path)
  (files : list Path) (w : World) :
  stats (snd (for_each files (copy_ebook_file metadata series_path) w))
  = stats w
  /\ metadata_cache
       (snd (for_each files (copy_ebook_file metadata series_path) w))
     = metadata_cache w.
Proof.
  split.
  - apply (preserves_final (keeps_stats (stats w))); [|reflexivity].
    unfold preserves. apply triple_for_each. intros x.
    apply copy_ebook_file_keeps_stats.
  - apply (preserves_final (keeps_cache (metadata_cache w))); [|reflexivity].
    unfold preserves. apply triple_for_each. intros x.
    unfold copy_ebook_file. cbv zeta.
    apply keep_bind; [apply get_fs_triple|]. intros f.
    destruct (path_exists f (dest_file metadata series_path x)).
    + apply logger_triple. apply keeps_cache_log.
    + apply keep_bind; [apply fs_op_triple; apply keeps_cache_fs|].
      intros _. apply logger_triple. apply keeps_cache_log.
Qed.

Lemma filter_nil_existsb {A : Type} (p : A -> bool) (l : list A) :
  filter p l = [] <-> existsb p l = false.
Proof.
  induction l as [|x l IH]; cbn [filter existsb]; [tauto|].
  destruct (p x); cbn [orb]; [|exact IH].
  split; intros H; discriminate H.
Qed.

Lemma has_ebook_files_cons (f : FS) (book_path : Path) :
  has_ebook_files f book_path = true ->
  exists x l, filter (is_ebook f) (iterdir f book_path) = x :: l.
Proof.
  intros H.
  destruct (filter (is_ebook f) (iterdir f book_path)) as [|x l] eqn:E.
  - apply filter_nil_existsb in E. unfold has_ebook_files in H. congruence.
  - exists x, l. reflexivity.
Qed.

(** A book without record, or without a supported file. *)
Lemma migrate_book_skipped (self : Migrator) (book_path : Path)
  (found : option Metadata) (w : World) :
  get_book_metadata self book_path w = (Ok found, w) ->
  found = None \/ has_ebook_files (fs w) book_path = false ->
  exists w',
    migrate_book self book_path w = (Ok false, w')
    /\ fs w' = fs w /\ metadata_cache w' = metadata_cache w
    /\ (exists msg, log w' = log w ++ [(WARNING, msg)])
    /\ tally 0 0 1 0 (stats w) (stats w').
Proof.
  intros Hmd Hwhy. unfold migrate_book. unfold bind at 1. rewrite Hmd.
  destruct found as [metadata|].
  - destruct Hwhy as [Hwhy|Hwhy]; [discriminate Hwhy|].
    apply filter_nil_existsb in Hwhy.
    cbv zeta. unfold bind at 1. rewrite find_ebook_files_eq, Hwhy.
    destruct (skip_book (py "No supported ebook files found in "
                         ++ path_str book_path) w)
      as (w' & Hrun & Hfs & Hc & Hlog & Ho).
    exists w'. split; [exact Hrun|]. split; [exact Hfs|]. split; [exact Hc|].
    split; [eexists; exact Hlog|exact Ho].
  - destruct (skip_book (py "No metadata found for " ++ path_str book_path
                         ++ py ", skipping") w)
      as (w' & Hrun & Hfs & Hc & Hlog & Ho).
    exists w'. split; [exact Hrun|]. split; [exact Hfs|]. split; [exact Hc|].
    split; [eexists; exact Hlog|exact Ho].
Qed.

(** A book with a record and a supported file, in a dry run. *)
Lemma migrate_book_dry_migrated (self : Migrator) (book_path : Path)
  (metadata : Metadata) (w : World) :
  dry_run self = true ->
  get_book_metadata self book_path w = (Ok (Some metadata), w) ->
  has_ebook_files (fs w) book_path = true ->
  exists w',
    migrate_book self book_path w = (Ok true, w')
    /\ fs w' = fs w /\ metadata_cache w' = metadata_cache w
    /\ tally 0 1 0 0 (stats w) (stats w').
Proof.
  intros Hdry Hmd Hfiles. unfold migrate_book. unfold bind at 1. rewrite Hmd.
  cbv zeta. unfold bind at 1. rewrite find_ebook_files_eq.
  destruct (has_ebook_files_cons _ _ Hfiles) as (x & l & ->).
  rewrite Hdry. cbn [negb]. unfold bind at 1. rewrite logger_eq.
  unfold bind at 1.
  rewrite (for_each_logger (x :: l)
             (would_create_record metadata
                (joinpath (komga_path self)
                   (get_series_folder_name metadata)))).
  eexists. split; [reflexivity|]. split; [reflexivity|].
  split; [reflexivity|]. unfold tally. cbn. repeat split; lia.
Qed.

(** A book with a record and a supported file, in a real run. *)
Lemma migrate_book_real (self : Migrator) (book_path : Path)
  (metadata : Metadata) (w : World) :
  dry_run self = false ->
  get_book_metadata self book_path w = (Ok (Some metadata), w) ->
  has_ebook_files (fs w) book_path = true ->
  exists r w',
    migrate_book self book_path w = (Ok r, w')
    /\ metadata_cache w' = metadata_cache w
    /\ ((r = true /\ tally 0 1 0 0 (stats w) (stats w'))
        \/ (r = false /\ tally 0 0 0 1 (stats w) (stats w'))).
Proof.
  intros Hdry Hmd Hfiles. unfold migrate_book. unfold bind at 1. rewrite Hmd.
  cbv zeta. unfold bind at 1. rewrite find_ebook_files_eq.
  destruct (has_ebook_files_cons _ _ Hfiles) as (x & l & ->).
  rewrite Hdry. cbn [negb]. unfold bind at 1. rewrite logger_eq.
  set (w1 := add_log w _).
  set (sp := joinpath (komga_path self) (get_series_folder_name metadata)).
  unfold try_except. unfold bind at 1, fs_op at 1.
  destruct (mkdir (fs w1) sp) as [f' [e|]] eqn:Hmk.
  - exists false. eexists. split; [reflexivity|]. split; [reflexivity|].
    right. split; [reflexivity|]. unfold tally. cbn. repeat split; lia.
  - unfold bind at 1.
    match goal with
    | |- context [for_each (x :: l) _ ?w2] =>
        destruct (copy_loop_frame metadata sp (x :: l) w2) as [Hst Hc];
        destruct (for_each (x :: l) (copy_ebook_file metadata sp) w2)
          as [[[]|e] w3]
    end; cbn [snd stats metadata_cache] in Hst, Hc.
    + exists true. eexists. split; [reflexivity|]. split; [exact Hc|].
      left. split; [reflexivity|]. unfold tally. cbn. rewrite Hst. cbn.
      repeat split; lia.
    + exists false. eexists. split; [reflexivity|]. split; [exact Hc|].
      right. split; [reflexivity|]. unfold tally. cbn. rewrite Hst. cbn.
      repeat split; lia.
Qed.


(** What every call of [migrate_book] does to the counters. *)
Lemma migrate_book_tally (self : Migrator) (book_path : Path) (w : World) :
  exists r w' m k e,
    migrate_book self book_path w = (Ok r, w')
    /\ metadata_cache w' = metadata_cache w
    /\ tally 0 m k e (stats w) (stats w')
    /\ (dry_run self = true -> e = 0%Z /\ fs w' = fs w).
Proof.
  destruct (get_book_metadata_eq self book_path w) as (found & Hmd).
  destruct found as [metadata|].
  2:{ destruct (migrate_book_skipped self book_path None w Hmd)
        as (w' & Hrun & Hfs & Hc & Hlog & Ho); [left; reflexivity|].
      exists false, w', 0%Z, 1%Z, 0%Z. split; [exact Hrun|].
      split; [exact Hc|]. split; [exact Ho|]. intros _.
      split; [reflexivity|exact Hfs]. }
  destruct (has_ebook_files (fs w) book_path) eqn:Hfiles.
  2:{ destruct (migrate_book_skipped self book_path _ w Hmd)
        as (w' & Hrun & Hfs & Hc & Hlog & Ho); [right; exact Hfiles|].
      exists false, w', 0%Z, 1%Z, 0%Z. split; [exact Hrun|].
      split; [exact Hc|]. split; [exact Ho|]. intros _.
      split; [reflexivity|exact Hfs]. }
  destruct (dry_run self) eqn:Hdry.
  - destruct (migrate_book_dry_migrated self book_path metadata w Hdry Hmd
                Hfiles) as (w' & Hrun & Hfs & Hc & Ho).
    exists true, w', 1%Z, 0%Z, 0%Z. split; [exact Hrun|].
    split; [exact Hc|]. split; [exact Ho|]. intros _.
    split; [reflexivity|exact Hfs].
  - destruct (migrate_book_real self book_path metadata w Hdry Hmd Hfiles)
      as (r & w' & Hrun & Hc & [[-> Ho]|[-> Ho]]).
    + exists true, w', 1%Z, 0%Z, 0%Z.
      split; [exact Hrun|]. split; [exact Hc|]. split; [exact Ho|].
      discriminate.
    + exists false, w', 0%Z, 0%Z, 1%Z.
      split; [exact Hrun|]. split; [exact Hc|]. split; [exact Ho|].
      discriminate.
Qed.

End OneBook.

(** ** Runs that stop before the loop *)

Section EarlyStops.

Context {platform : Platform}.

Lemma start_eq (self : Migrator) (author_filter : option str) (w : World) :
  migrate_library self author_filter w
  = (valid <- validate_paths self ;;
     if negb valid then ret tt
     else
       loaded <- load_calibre_metadata self ;;
       if negb loaded then
         logger ERROR (py "Failed to load Calibre metadata. Exiting.")
       else
         d <- get_cache ;;
         for_each d (process_entry self author_filter) ;;
         print_summary) (add_log w (start_records self)).
Proof.
  unfold migrate_library. unfold bind at 1. rewrite logger_eq.
  unfold bind at 1. rewrite logger_eq. rewrite add_log_app. reflexivity.
Qed.

Lemma validate_paths_unusable (self : Migrator) (w : World) :
  usable self (fs w) = false ->
  exists msg, validate_paths self w = (Ok false, add_log w [(ERROR, msg)]).
Proof.
  unfold usable, validate_paths. unfold bind at 1, get_fs at 1.
  destruct (path_exists (fs w) (calibre_path self)); cbn [negb andb].
  - destruct (is_dir (fs w) (calibre_path self)); cbn [negb andb].
    + intros ->. cbn [negb]. eexists. reflexivity.
    + intros _. eexists. reflexivity.
  - intros _. eexists. reflexivity.
Qed.

Lemma validate_paths_usable (self : Migrator) (w : World) :
  usable self (fs w) = true ->
  validate_paths self w
  = (match snd (prepared self (fs w)) with
     | None => Ok true
     | Some e => Raise e
     end,
     {| fs := fst (prepared self (fs w)); stats := stats w; log := log w;
        metadata_cache := metadata_cache w |}).
Proof.
  unfold usable, validate_paths, prepared. intros H.
  apply andb_prop in H. destruct H as [H H3].
  apply andb_prop in H. destruct H as [H1 H2].
  unfold bind at 1, get_fs at 1. rewrite H1, H2, H3. cbn [negb].
  destruct (dry_run self); cbn [negb].
  - destruct w. reflexivity.
  - unfold bind, fs_op, ret.
    destruct (mkdir (fs w) (komga_path self)) as [f' [e|]]; reflexivity.
Qed.

(** A run on a usable source whose preparation raises. *)
Lemma stops_at_root (self : Migrator) (author_filter : option str)
  (w : World) (f1 : FS) (e : str) :
  usable self (fs w) = true ->
  prepared self (fs w) = (f1, Some e) ->
  migrate_library self author_filter w
  = (Raise e,
     {| fs := f1; stats := stats w; log := log w ++ start_records self;
        metadata_cache := metadata_cache w |}).
Proof.
  intros H Hp. rewrite start_eq. unfold bind at 1.
  rewrite (validate_paths_usable self (add_log w (start_records self)) H).
  cbn [fs add_log]. rewrite Hp. reflexivity.
Qed.

(** A run on a usable source whose catalog cannot be read. *)
Lemma stops_at_catalog (self : Migrator) (author_filter : option str)
  (w : World) (f1 : FS) (e : str) :
  usable self (fs w) = true ->
  prepared self (fs w) = (f1, None) ->
  fetch_catalog f1 (metadata_db_path self) = Raise e ->
  migrate_library self author_filter w
  = (Ok tt,
     {| fs := f1; stats := stats w;
        log := log w ++ start_records self
               ++ [(ERROR, py "Error loading Calibre metadata: " ++ e);
                   (ERROR, py "Failed to load Calibre metadata. Exiting.")];
        metadata_cache := metadata_cache w |}).
Proof.
  intros H Hp Hq. rewrite start_eq. unfold bind at 1.
  rewrite (validate_paths_usable self (add_log w (start_records self)) H).
  cbn [fs add_log]. rewrite Hp. cbn [fst snd negb]. unfold bind at 1.
  rewrite (load_failed self _ e) by exact Hq. cbn [negb]. rewrite logger_eq.
  unfold add_log. cbn [fs stats log metadata_cache].
  rewrite <- !app_assoc. reflexivity.
Qed.

(** A run on a source that is not usable. *)
Lemma stops_at_source (self : Migrator) (author_filter : option str)
  (w : World) :
  usable self (fs w) = false ->
  exists msg,
    migrate_library self author_filter w
    = (Ok tt, add_log w (start_records self ++ [(ERROR, msg)])).
Proof.
  intros H. rewrite start_eq.
  destruct (validate_paths_unusable self (add_log w (start_records self)) H)
    as (msg & Hv).
  exists msg. unfold bind at 1. rewrite Hv. cbn [negb].
  rewrite add_log_app. reflexivity.
Qed.

(** X15. On a source that is missing, is not a directory or has no
    [metadata.db], a run does nothing but write to the log: the two opening
    lines and one error. Nothing is created, not even the destination root
    of a real run, no counter changes and no summary is written. *)
Theorem migrate_library_unusable_source (self : Migrator)
  (author_filter : option str) (w : World) :
  usable self (fs w) = false ->
  exists msg w',
    migrate_library self author_filter w = (Ok tt, w')
    /\ log w' = log w ++ start_records self ++ [(ERROR, msg)]
    /\ fs w' = fs w /\ stats w' = stats w
    /\ metadata_cache w' = metadata_cache w.
Proof.
  intros H. destruct (stops_at_source self author_filter w H) as (msg & Hrun).
  exists msg. eexists. split; [exact Hrun|]. repeat split.
Qed.

(** X16. When the destination root of a real run cannot be created, the
    exception of [mkdir] is not caught: the run ends with it after the two
    opening lines, before the catalog is read, and writes no summary. *)
Theorem migrate_library_root_not_created (self : Migrator)
  (author_filter : option str) (w : World) (f1 : FS) (e : str) :
  usable self (fs w) = true ->
  dry_run self = false ->
  mkdir (fs w) (komga_path self) = (f1, Some e) ->
  exists w',
    migrate_library self author_filter w = (Raise e, w')
    /\ log w' = log w ++ start_records self
    /\ fs w' = f1 /\ stats w' = stats w
    /\ metadata_cache w' = metadata_cache w.
Proof.
  intros H Hdry Hmk. eexists. split.
  - apply stops_at_root; [exact H|].
    unfold prepared. rewrite Hdry. exact Hmk.
  - repeat split.
Qed.

(** X17. When the query on the catalog raises, [load_calibre_metadata]
    catches the exception and logs its message, and the run stops there
    with a second error line: it returns, no book is processed, no counter
    changes, no summary is written. The destination root of a real run has
    been created by then. *)
Theorem migrate_library_unreadable_catalog (self : Migrator)
  (author_filter : option str) (w : World) (f1 : FS) (e : str) :
  usable self (fs w) = true ->
  prepared self (fs w) = (f1, None) ->
  fetch_catalog f1 (metadata_db_path self) = Raise e ->
  exists w',
    migrate_library self author_filter w = (Ok tt, w')
    /\ log w'
       = log w ++ start_records self
         ++ [(ERROR, py "Error loading Calibre metadata: " ++ e);
             (ERROR, py "Failed to load Calibre metadata. Exiting.")]
    /\ fs w' = f1 /\ stats w' = stats w
    /\ metadata_cache w' = metadata_cache w.
Proof.
  intros H Hp Hq. eexists. split.
  - apply stops_at_catalog; [exact H|exact Hp|exact Hq].
  - repeat split.
Qed.

End EarlyStops.

(** X15 on a file system without the library, in a real run. *)
Lemma migrate_library_unusable_source_witness :
  exists msg w',
    migrate_library (Toy.migrator false) None (Toy.start Toy.no_library)
    = (Ok tt, w')
    /\ log w' = start_records (Toy.migrator false) ++ [(ERROR, msg)]
    /\ fs w' = Toy.no_library.
Proof.
  destruct (@migrate_library_unusable_source Toy.platform
              (Toy.migrator false) None (Toy.start Toy.no_library) eq_refl)
    as (msg & w' & Hrun & Hlog & Hfs & _).
  exists msg, w'. split; [exact Hrun|]. split; [exact Hlog|exact Hfs].
Defined.

(** X16 on a library whose destination root is taken by a file. *)
Lemma migrate_library_root_not_created_witness :
  exists w',
    migrate_library (Toy.migrator false) None (Toy.start Toy.blocked_root)
    = (Raise (py "File exists"), w')
    /\ log w' = start_records (Toy.migrator false)
    /\ stats w' = init_stats.
Proof.
  destruct (@migrate_library_root_not_created Toy.platform
              (Toy.migrator false) None (Toy.start Toy.blocked_root)
              Toy.blocked_root (py "File exists") eq_refl eq_refl eq_refl)
    as (w' & Hrun & Hlog & _ & Hst & _).
  exists w'. split; [exact Hrun|]. split; [exact Hlog|exact Hst].
Defined.

(** X17 on a library whose [metadata.db] is not a catalog, in a real run:
    the destination root is there at the end. *)
Lemma migrate_library_unreadable_catalog_witness :
  exists w',
    migrate_library (Toy.migrator false) None (Toy.start Toy.broken_catalog)
    = (Ok tt, w')
    /\ stats w' = init_stats
    /\ Toy.isdir (fs w') (py "out") = true.
Proof.
  destruct (@migrate_library_unreadable_catalog Toy.platform
              (Toy.migrator false) None (Toy.start Toy.broken_catalog)
              (Toy.broken_catalog ++ [(py "out", Toy.Dir)])
              (py "unable to open database file") eq_refl eq_refl eq_refl)
    as (w' & Hrun & _ & Hfs & Hst & _).
  exists w'. split; [exact Hrun|]. split; [exact Hst|].
  rewrite Hfs. reflexivity.
Defined.

(** ** Counting *)

Section Counting.

Context {platform : Platform}.

Lemma process_entry_not_eligible (self : Migrator)
  (author_filter : option str) (entry : str * Metadata) (w : World) :
  eligible self author_filter (fs w) entry = false ->
  exists l,
    process_entry self author_filter entry w = (Ok tt, add_log w l).
Proof.
  destruct entry as [k md]. unfold eligible, process_entry. cbn [fst snd].
  unfold bind at 1, get_fs at 1.
  destruct (path_exists (fs w) (joinpath (calibre_path self) k));
    cbn [negb andb orb].
  - destruct (is_dir (fs w) (joinpath (calibre_path self) k));
      cbn [negb andb orb].
    + destruct (filtered_out author_filter md); [|discriminate].
      intros _. exists []. rewrite add_log_nil. reflexivity.
    + intros _. eexists. apply logger_eq.
  - intros _. eexists. apply logger_eq.
Qed.

Lemma process_entry_eligible (self : Migrator)
  (author_filter : option str) (entry : str * Metadata) (w : World) :
  eligible self author_filter (fs w) entry = true ->
  process_entry self author_filter entry w
  = (migrate_book self (joinpath (calibre_path self) (fst entry)) ;; ret tt)
      (snd (incr_total w)).
Proof.
  destruct entry as [k md]. unfold eligible, process_entry. cbn [fst snd].
  intros H. apply andb_prop in H. destruct H as [H H3].
  apply andb_prop in H. destruct H as [H1 H2].
  unfold bind at 1, get_fs at 1. rewrite H1, H2. cbn [negb orb].
  apply negb_true_iff in H3. rewrite H3. reflexivity.
Qed.

Lemma incr_total_eq (w : World) :
  fs (snd (incr_total w)) = fs w
  /\ metadata_cache (snd (incr_total w)) = metadata_cache w
  /\ tally 1 0 0 0 (stats w) (stats (snd (incr_total w))).
Proof. unfold tally. cbn. repeat split; lia. Qed.

(** What the body of the loop does to the counters. *)
Lemma process_entry_tally (self : Migrator) (author_filter : option str)
  (entry : str * Metadata) (w : World) :
  exists w' t m k e,
    process_entry self author_filter entry w = (Ok tt, w')
    /\ metadata_cache w' = metadata_cache w
    /\ tally t m k e (stats w) (stats w')
    /\ (0 <= t <= 1)%Z
    /\ (dry_run self = true -> e = 0%Z /\ fs w' = fs w).
Proof.
  destruct (eligible self author_filter (fs w) entry) eqn:He.
  - rewrite (process_entry_eligible self author_filter entry w He).
    destruct (incr_total_eq w) as (Hf1 & Hc1 & Ht1).
    destruct (migrate_book_tally self
                (joinpath (calibre_path self) (fst entry))
                (snd (incr_total w)))
      as (r & w' & m & k & e & Hrun & Hc & Ht & Hdry).
    exists w', 1%Z, m, k, e. unfold bind. rewrite Hrun.
    split; [reflexivity|]. split; [congruence|].
    split; [exact (tally_trans _ _ _ _ _ _ _ _ _ _ _ Ht1 Ht)|].
    split; [lia|]. intros H. destruct (Hdry H) as [-> Hf].
    split; [reflexivity|congruence].
  - destruct (process_entry_not_eligible self author_filter entry w He)
      as (l & Hrun).
    exists (add_log w l), 0%Z, 0%Z, 0%Z, 0%Z. split; [exact Hrun|].
    split; [reflexivity|]. split; [apply tally_refl|].
    split; [lia|]. intros _. split; reflexivity.
Qed.

Lemma loop_tally (self : Migrator) (author_filter : option str)
  (l : dict Metadata) (w : World) :
  exists w' t m k e,
    for_each l (process_entry self author_filter) w = (Ok tt, w')
    /\ metadata_cache w' = metadata_cache w
    /\ tally t m k e (stats w) (stats w')
    /\ (0 <= t <= Z.of_nat (List.length l))%Z
    /\ (dry_run self = true -> e = 0%Z /\ fs w' = fs w).
Proof.
  revert w. induction l as [|entry l IH]; intros w.
  - exists w, 0%Z, 0%Z, 0%Z, 0%Z. split; [reflexivity|].
    split; [reflexivity|]. split; [apply tally_refl|]. split; [cbn; lia|].
    intros _. split; reflexivity.
  - destruct (process_entry_tally self author_filter entry w)
      as (w1 & t1 & m1 & k1 & e1 & Hrun1 & Hc1 & Ht1 & Hb1 & Hd1).
    destruct (IH w1) as (w' & t & m & k & e & Hrun & Hc & Ht & Hb & Hd).
    exists w', (t1 + t)%Z, (m1 + m)%Z, (k1 + k)%Z, (e1 + e)%Z.
    cbn [for_each]. unfold bind at 1. rewrite Hrun1.
    split; [exact Hrun|]. split; [congruence|].
    split; [exact (tally_trans _ _ _ _ _ _ _ _ _ _ _ Ht1 Ht)|].
    split; [cbn [List.length]; lia|].
    intros H. destruct (Hd1 H) as [-> Hf1]. destruct (Hd H) as [-> Hf].
    split; [reflexivity|congruence].
Qed.

(** Once the source is found usable and the catalog is read, the run is the
    loop over the index and the summary. *)
Lemma migrate_library_loop (self : Migrator) (author_filter : option str)
  (w : World) (f1 : FS) (rows : list Row) :
  usable self (fs w) = true ->
  prepared self (fs w) = (f1, None) ->
  fetch_catalog f1 (metadata_db_path self) = Ok rows ->
  exists l,
    migrate_library self author_filter w
    = (for_each (cache_of_rows rows (metadata_cache w))
         (process_entry self author_filter) ;;
       print_summary)
        {| fs := f1; stats := stats w; log := log w ++ l;
           metadata_cache := cache_of_rows rows (metadata_cache w) |}.
Proof.
  intros H Hp Hq. rewrite start_eq. unfold bind at 1.
  rewrite (validate_paths_usable self (add_log w (start_records self)) H).
  cbn [fs add_log]. rewrite Hp. cbn [fst snd negb]. unfold bind at 1.
  rewrite (load_ok self _ rows) by exact Hq. cbn [negb].
  unfold bind at 1, get_cache at 1.
  cbn [fs stats log metadata_cache add_log]. rewrite <- app_assoc.
  eexists. reflexivity.
Qed.

(** What every run does to the counters. *)
Lemma migrate_library_tally (self : Migrator) (author_filter : option str)
  (w : World) :
  exists t m k e,
    tally t m k e (stats w)
      (stats (snd (migrate_library self author_filter w)))
    /\ (0 <= t
        <= Z.of_nat
             (List.length
                (metadata_cache
                   (snd (migrate_library self author_filter w)))))%Z
    /\ (dry_run self = true ->
        e = 0%Z /\ fs (snd (migrate_library self author_filter w)) = fs w).
Proof.
  assert (Hsame : forall r l f',
            (dry_run self = true -> f' = fs w) ->
            migrate_library self author_filter w
            = (r, {| fs := f'; stats := stats w; log := l;
                     metadata_cache := metadata_cache w |}) ->
            exists t m k e,
              tally t m k e (stats w)
                (stats (snd (migrate_library self author_filter w)))
              /\ (0 <= t
                  <= Z.of_nat
                       (List.length
                          (metadata_cache
                             (snd (migrate_library self author_filter
                                     w)))))%Z
              /\ (dry_run self = true ->
                  e = 0%Z /\
                  fs (snd (migrate_library self author_filter w)) = fs w)).
  { intros r l f' Hf' ->. exists 0%Z, 0%Z, 0%Z, 0%Z. cbn [snd stats fs].
    split; [apply tally_refl|]. split; [lia|].
    intros Hd. split; [reflexivity|exact (Hf' Hd)]. }
  destruct (usable self (fs w)) eqn:Hu.
  2:{ destruct (stops_at_source self author_filter w Hu) as (msg & Hrun).
      apply (Hsame _ _ (fs w) (fun _ => eq_refl) Hrun). }
  assert (Hprep : dry_run self = true -> fst (prepared self (fs w)) = fs w).
  { intros Hd. unfold prepared. rewrite Hd. reflexivity. }
  destruct (prepared self (fs w)) as [f1 [e|]] eqn:Hp; cbn [fst] in Hprep.
  { apply (Hsame _ _ f1 Hprep
             (stops_at_root self author_filter w f1 e Hu Hp)). }
  destruct (fetch_catalog f1 (metadata_db_path self)) as [rows|e] eqn:Hq.
  2:{ apply (Hsame _ _ f1 Hprep
               (stops_at_catalog self author_filter w f1 e Hu Hp Hq)). }
  destruct (migrate_library_loop self author_filter w f1 rows Hu Hp Hq)
    as (l & ->).
  match goal with
  | |- context [bind (for_each ?d _) _ ?w2] =>
      destruct (loop_tally self author_filter d w2)
        as (w3 & t & m & k & e & Hrun & Hc & Ht & Hb & Hd)
  end.
  unfold bind. rewrite Hrun.
  destruct (print_summary_outcome w3) as (r & more & -> & _).
  cbn [snd stats fs metadata_cache add_log] in *.
  exists t, m, k, e. split; [exact Ht|]. split; [rewrite Hc; exact Hb|].
  intros H. destruct (Hd H) as [-> Hf]. split; [reflexivity|].
  rewrite Hf. exact (Hprep H).
Qed.

(** X18. Whatever the run, the total never decreases and grows by at most
    the number of entries of the index: no entry is counted twice. *)
Theorem total_books_bound (self : Migrator) (author_filter : option str)
  (w : World) :
  (total_books (stats w)
   <= total_books (stats (snd (migrate_library self author_filter w)))
   <= total_books (stats w)
      + Z.of_nat
          (List.length
             (metadata_cache
                (snd (migrate_library self author_filter w)))))%Z.
Proof.
  destruct (migrate_library_tally self author_filter w)
    as (t & m & k & e & (Ht & _) & Hb & _).
  lia.
Qed.

(** X19. A dry run never counts an error, whatever the file system would
    do to a real run. *)
Theorem dry_run_counts_no_error (self : Migrator)
  (author_filter : option str) (w : World) :
  dry_run self = true ->
  errors (stats (snd (migrate_library self author_filter w)))
  = errors (stats w).
Proof.
  intros Hdry.
  destruct (migrate_library_tally self author_filter w)
    as (t & m & k & e & (_ & _ & _ & He) & _ & Hd).
  destruct (Hd Hdry) as [-> _]. lia.
Qed.

(** *** What a dry run reports *)

Lemma process_entry_dry_exact (self : Migrator) (author_filter : option str)
  (key : str) (metadata : Metadata) (w : World) :
  dry_run self = true ->
  dict_get key (metadata_cache w) = Some metadata ->
  round_trips self key ->
  exists w',
    process_entry self author_filter (key, metadata) w = (Ok tt, w')
    /\ fs w' = fs w /\ metadata_cache w' = metadata_cache w
    /\ tally
         (Z.b2z (eligible self author_filter (fs w) (key, metadata)))
         (Z.b2z (eligible self author_filter (fs w) (key, metadata)
                 && with_files self (fs w) (key, metadata)))
         (Z.b2z (eligible self author_filter (fs w) (key, metadata)
                 && negb (with_files self (fs w) (key, metadata))))
         0 (stats w) (stats w').
Proof.
  intros Hdry Hget Hrt.
  destruct (eligible self author_filter (fs w) (key, metadata)) eqn:He.
  - rewrite (process_entry_eligible self author_filter _ w He).
    cbn [fst andb]. destruct (incr_total_eq w) as (Hf1 & Hc1 & Ht1).
    set (w1 := snd (incr_total w)) in *.
    pose proof (get_book_metadata_round_trip self key w1 Hrt) as Hmd.
    rewrite Hc1, Hget in Hmd. unfold with_files. cbn [fst].
    rewrite <- Hf1.
    destruct (has_ebook_files (fs w1) (joinpath (calibre_path self) key))
      eqn:Hfiles; cbn [negb Z.b2z].
    + destruct (migrate_book_dry_migrated self _ metadata w1 Hdry Hmd Hfiles)
        as (w' & Hrun & Hfs & Hc & Ho).
      exists w'. unfold bind. rewrite Hrun. split; [reflexivity|].
      split; [exact Hfs|]. split; [congruence|].
      exact (tally_trans _ _ _ _ _ _ _ _ _ _ _ Ht1 Ho).
    + destruct (migrate_book_skipped self _ _ w1 Hmd)
        as (w' & Hrun & Hfs & Hc & _ & Ho); [right; exact Hfiles|].
      exists w'. unfold bind. rewrite Hrun. split; [reflexivity|].
      split; [exact Hfs|]. split; [congruence|].
      exact (tally_trans _ _ _ _ _ _ _ _ _ _ _ Ht1 Ho).
  - destruct (process_entry_not_eligible self author_filter _ w He)
      as (l & Hrun).
    exists (add_log w l). split; [exact Hrun|]. split; [reflexivity|].
    split; [reflexivity|]. cbn [andb Z.b2z]. apply tally_refl.
Qed.

Lemma filter_length_cons {A : Type} (p : A -> bool) (x : A) (l : list A) :
  Z.of_nat (List.length (filter p (x :: l)))
  = (Z.b2z (p x) + Z.of_nat (List.length (filter p l)))%Z.
Proof. cbn [filter]. destruct (p x); cbn [List.length Z.b2z]; lia. Qed.

Lemma filter_both {A : Type} (p q : A -> bool) (l : list A) :
  filter q (filter p l) = filter (fun x => p x && q x) l.
Proof.
  induction l as [|x l IH]; [reflexivity|]. cbn [filter].
  destruct (p x); cbn [filter andb]; [destruct (q x)|]; rewrite IH;
    reflexivity.
Qed.

Lemma loop_dry_exact (self : Migrator) (author_filter : option str)
  (l : dict Metadata) (w : World) :
  dry_run self = true ->
  (forall key metadata,
     In (key, metadata) l ->
     dict_get key (metadata_cache w) = Some metadata
     /\ round_trips self key) ->
  exists w',
    for_each l (process_entry self author_filter) w = (Ok tt, w')
    /\ fs w' = fs w /\ metadata_cache w' = metadata_cache w
    /\ tally
         (Z.of_nat
            (List.length (counted_entries self author_filter (fs w) l)))
         (Z.of_nat
            (List.length
               (filter (with_files self (fs w))
                  (counted_entries self author_filter (fs w) l))))
         (Z.of_nat
            (List.length
               (filter (fun entry => negb (with_files self (fs w) entry))
                  (counted_entries self author_filter (fs w) l))))
         0 (stats w) (stats w').
Proof.
  intros Hdry. unfold counted_entries. rewrite !filter_both.
  revert w. induction l as [|[key metadata] l IH]; intros w Hl.
  - exists w. split; [reflexivity|]. split; [reflexivity|].
    split; [reflexivity|]. apply tally_refl.
  - destruct (Hl key metadata (or_introl eq_refl)) as [Hget Hrt].
    destruct (process_entry_dry_exact self author_filter key metadata w
                Hdry Hget Hrt) as (w1 & Hrun1 & Hf1 & Hc1 & Ht1).
    destruct (IH w1) as (w' & Hrun & Hf & Hc & Ht).
    { intros k md Hin. rewrite Hc1. apply Hl. right. exact Hin. }
    exists w'. cbn [for_each]. unfold bind at 1. rewrite Hrun1.
    split; [exact Hrun|]. split; [congruence|]. split; [congruence|].
    rewrite Hf1 in Ht. rewrite !filter_length_cons.
    replace 0%Z with (0 + 0)%Z by reflexivity.
    exact (tally_trans _ _ _ _ _ _ _ _ _ _ _ Ht1 Ht).
Qed.


End Counting.

(** X19 on the library of two books. *)
Lemma dry_run_counts_no_error_witness :
  errors (stats (snd (migrate_library (Toy.migrator true) None
                        (Toy.start Toy.two_books)))) = 0%Z.
Proof.
  rewrite (@dry_run_counts_no_error Toy.platform (Toy.migrator true) None
             (Toy.start Toy.two_books) eq_refl).
  reflexivity.
Defined.


(** ** The rate of a run where all, or none, of the books were migrated *)

Lemma new_location_exact (nb_steps : Z) :
  new_location nb_steps 0 = loc_Exact.
Proof.
  unfold new_location, new_location_even, new_location_odd.
  destruct (Z.even nb_steps); reflexivity.
Qed.

(** A counter divided by itself is the double 1.0. *)
Lemma SFdiv_same (m : positive) :
  SFdiv prec emax (S754_finite false m 0) (S754_finite false m 0)
  = S754_finite false 4503599627370496 (-52).
Proof.
  unfold SFdiv, SFdiv_core_binary.
  replace (Zdigits2 (Zpos m) + 0 - (Zdigits2 (Zpos m) + 0))%Z with 0%Z by lia.
  change (Z.min (fexp prec emax 0) (0 - 0)) with (-53)%Z.
  change (0 - 0 - -53)%Z with 53%Z.
  rewrite Z.shiftl_mul_pow2 by lia.
  pose proof (Z_div_mod (Zpos m * 2 ^ 53) (Zpos m) ltac:(lia)) as H.
  destruct (Z.div_eucl (Zpos m * 2 ^ 53) (Zpos m)) as [q r].
  destruct H as [Hq Hr].
  assert (Hd : (2 ^ 53 - q = 0)%Z) by nia.
  assert (Hq0 : q = (2 ^ 53)%Z) by lia.
  assert (Hr0 : r = 0%Z) by (subst q; lia).
  subst q r. rewrite new_location_exact. vm_compute. reflexivity.
Qed.

Lemma rate_line_all_or_none (s : Stats) :
  (0 < total_books s)%Z ->
  (migrated_books s = total_books s ->
   rate_line s = (INFO, py "  Success rate: 100.0%"))
  /\ (migrated_books s = 0%Z ->
      rate_line s = (INFO, py "  Success rate: 0.0%")).
Proof.
  intros Ht. unfold rate_line, success_rate. split; intros ->.
  - destruct (total_books s) as [|t|t]; try lia. cbn [float_of_int].
    rewrite SFdiv_same. vm_compute. reflexivity.
  - destruct (total_books s) as [|t|t]; try lia. reflexivity.
Qed.

Section Rate.

Context {platform : Platform}.

(** X21. After the four counter lines, the summary of a run in which every
    counted book was migrated ends with the line [Success rate: 100.0%],
    and the summary of a run in which none was ends with
    [Success rate: 0.0%], however large the counters are. *)
Theorem print_summary_all_or_none (w : World) :
  (0 < total_books (stats w))%Z ->
  (migrated_books (stats w) = total_books (stats w) ->
   print_summary w
   = (Ok tt,
      add_log w (counter_lines (stats w)
                 ++ [(INFO, py "  Success rate: 100.0%")])))
  /\ (migrated_books (stats w) = 0%Z ->
      print_summary w
      = (Ok tt,
         add_log w (counter_lines (stats w)
                    ++ [(INFO, py "  Success rate: 0.0%")]))).
Proof.
  intros Ht. destruct (rate_line_all_or_none (stats w) Ht) as [Hall Hnone].
  split; intros Hm.
  - rewrite <- (Hall Hm). apply print_summary_with_rate; [exact Ht|lia].
  - rewrite <- (Hnone Hm). apply print_summary_with_rate; [exact Ht|lia].
Qed.

End Rate.

(** X21 after the dry run on the library of two books. *)
Lemma print_summary_all_or_none_witness :
  print_summary (Toy.run true None Toy.two_books)
  = (Ok tt,
     add_log (Toy.run true None Toy.two_books)
       (counter_lines (stats (Toy.run true None Toy.two_books))
        ++ [(INFO, py "  Success rate: 100.0%")])).
Proof.
  apply (@print_summary_all_or_none Toy.platform
           (Toy.run true None Toy.two_books)); reflexivity.
Defined.
